(** * Board.py: the rules engine of the shrinking-board capture game

    A shallow embedding of [src/Board.py] (class [Board]) and the
    properties of its operations.  Python integers are [Z], Python lists
    are stdpp lists indexed the way Python indexes them (negative indices
    count from the end, anything else out of range raises [IndexError]),
    and the methods, which mutate [self] and may raise half-way, are
    computations in a state-and-exception monad that keeps the state
    reached when the exception was raised. *)

From Stdlib Require Import ZArith Bool Lia.
From stdpp Require Import base list gmap.

Local Open Scope Z_scope.

(** ** Python lists and exceptions *)

Inductive exn := IndexError | UnboundLocalError.

Inductive Exc (A : Type) : Type :=
| Val (a : A)
| Err (e : exn).
Arguments Val {A} a.
Arguments Err {A} e.

Definition ebind {A B} (m : Exc A) (k : A -> Exc B) : Exc B :=
  match m with
  | Val a => k a
  | Err e => Err e
  end.

Notation "'let?' x ':=' m 'in' k" := (ebind m (fun x => k))
  (at level 10, x pattern, m at level 100, k at level 200).

(** [l[i]] resolves an index the way CPython does. *)
Definition py_index (n : nat) (i : Z) : option nat :=
  if (0 <=? i) && (i <? Z.of_nat n) then Some (Z.to_nat i)
  else if (- Z.of_nat n <=? i) && (i <? 0) then Some (Z.to_nat (Z.of_nat n + i))
  else None.

Definition getitem {A} (l : list A) (i : Z) : Exc A :=
  match py_index (length l) i with
  | Some k => match l !! k with Some a => Val a | None => Err IndexError end
  | None => Err IndexError
  end.

Definition setitem {A} (l : list A) (i : Z) (a : A) : Exc (list A) :=
  match py_index (length l) i with
  | Some k => Val (<[k:=a]> l)
  | None => Err IndexError
  end.

(** [g[x][y]] and [g[x][y] = v] on a list of lists.  The rows of every
    nested list of a [Board] are distinct objects (they are built by
    list comprehensions), so writing one row never changes another. *)
Definition getitem2 {A} (g : list (list A)) (x y : Z) : Exc A :=
  let? row := getitem g x in getitem row y.

Definition setitem2 {A} (g : list (list A)) (x y : Z) (v : A)
  : Exc (list (list A)) :=
  let? row := getitem g x in
  let? row' := setitem row y v in
  setitem g x row'.

(** [range(a, b)] *)
Definition range (a b : Z) : list Z :=
  (fun k => a + Z.of_nat k) <$> seq 0 (Z.to_nat (b - a)).

(** ** The object state ([__slots__]) *)

Record Board := mkBoard {
  board : list (list Z);
  border : Z;
  count : list Z;
  num_pieces : list Z;
  pieces : list (list (option (Z * Z)));
  turn_step : Z;
  turn_thres : Z;
  turns : Z
}.

Definition set_board (g : list (list Z)) (s : Board) : Board :=
  mkBoard g (border s) (count s) (num_pieces s) (pieces s)
          (turn_step s) (turn_thres s) (turns s).
Definition set_border (b : Z) (s : Board) : Board :=
  mkBoard (board s) b (count s) (num_pieces s) (pieces s)
          (turn_step s) (turn_thres s) (turns s).
Definition set_count (c : list Z) (s : Board) : Board :=
  mkBoard (board s) (border s) c (num_pieces s) (pieces s)
          (turn_step s) (turn_thres s) (turns s).
Definition set_num_pieces (n : list Z) (s : Board) : Board :=
  mkBoard (board s) (border s) (count s) n (pieces s)
          (turn_step s) (turn_thres s) (turns s).
Definition set_pieces (p : list (list (option (Z * Z)))) (s : Board) : Board :=
  mkBoard (board s) (border s) (count s) (num_pieces s) p
          (turn_step s) (turn_thres s) (turns s).
Definition set_turn_step (v : Z) (s : Board) : Board :=
  mkBoard (board s) (border s) (count s) (num_pieces s) (pieces s)
          v (turn_thres s) (turns s).
Definition set_turn_thres (v : Z) (s : Board) : Board :=
  mkBoard (board s) (border s) (count s) (num_pieces s) (pieces s)
          (turn_step s) v (turns s).
Definition set_turns (v : Z) (s : Board) : Board :=
  mkBoard (board s) (border s) (count s) (num_pieces s) (pieces s)
          (turn_step s) (turn_thres s) v.

(** ** Methods as state-and-exception computations *)

Inductive Res (A : Type) : Type :=
| Ok (a : A) (s : Board)
| Raise (e : exn) (s : Board).
Arguments Ok {A} a s.
Arguments Raise {A} e s.

Definition M (A : Type) : Type := Board -> Res A.

Definition ret {A} (a : A) : M A := fun s => Ok a s.
Definition bind {A B} (m : M A) (k : A -> M B) : M B :=
  fun s => match m s with
           | Ok a s' => k a s'
           | Raise e s' => Raise e s'
           end.
Definition raise {A} (e : exn) : M A := fun s => Raise e s.
Definition read {A} (f : Board -> Exc A) : M A :=
  fun s => match f s with Val a => Ok a s | Err e => Raise e s end.
Definition update (f : Board -> Exc Board) : M unit :=
  fun s => match f s with Val s' => Ok tt s' | Err e => Raise e s end.

Notation "'let*' x ':=' m 'in' k" := (bind m (fun x => k))
  (at level 10, x pattern, m at level 100, k at level 200).
Notation "m >> k" := (bind m (fun _ => k))
  (at level 100, k at level 200, right associativity).

Fixpoint for_ {A} (l : list A) (body : A -> M unit) : M unit :=
  match l with
  | [] => ret tt
  | a :: l' => body a >> for_ l' body
  end.

(** The state in which a call ended, whether it returned or raised. *)
Definition final {A} (r : Res A) : Board :=
  match r with Ok _ s => s | Raise _ s => s end.

(** Class attributes. *)
Definition oppo : list (list Z) := [[1; 3]; [0; 3]].
Definition dirs : list (Z * Z) := [(0, -1); (1, 0); (0, 1); (-1, 0)].

(** [board[x][y]] and [board[x][y] = v] *)
Definition cell (s : Board) (x y : Z) : Exc Z := getitem2 (board s) x y.

Definition store_cell (x y v : Z) (s : Board) : Exc Board :=
  let? g := setitem2 (board s) x y v in
  Val (set_board g s).

(** [self.pieces[p // 0x10][p % 0x10] = e] and
    [self.num_pieces[t] += k] *)
Definition store_rec (p : Z) (e : option (Z * Z)) (s : Board) : Exc Board :=
  let? ps := setitem2 (pieces s) (p / 0x10) (p mod 0x10) e in
  Val (set_pieces ps s).

Definition add_num (t k : Z) (s : Board) : Exc Board :=
  let? n := getitem (num_pieces s) t in
  let? ns := setitem (num_pieces s) t (n + k) in
  Val (set_num_pieces ns s).

(** [__init__] *)
Definition init : Board :=
  let row := replicate 8 0x20 in
  let top := <[0%nat := 0x30]> (<[7%nat := 0x30]> row) in
  {| board := [top; row; row; row; row; row; row; top];
     border := 0;
     count := [0; 0];
     num_pieces := [0; 0];
     pieces := [replicate 12 None; replicate 12 None];
     turn_step := 64;
     turn_thres := 128;
     turns := 0 |}.

(** [_add_rec] *)
Definition _add_rec (p : Z) (pos : Z * Z) : M unit :=
  let t := p / 0x10 in
  update (store_rec p (Some pos)) >>
  update (add_num t 1).

(** [_delete_rec] *)
Definition _delete_rec (p : Z) : M unit :=
  if 0x20 <=? p then ret tt
  else
    let t := p / 0x10 in
    update (store_rec p None) >>
    update (add_num t (-1)).

(** [_inboard] *)
Definition inboard_at (b x y : Z) : bool :=
  (b - 1 <? x) && (x <? 8 - b) && ((b - 1 <? y) && (y <? 8 - b)).

Definition _inboard (s : Board) (x y : Z) : bool :=
  let b := border s in inboard_at b x y.

(** [_surrounded] *)
Definition _surrounded (s : Board) (x y dx dy : Z) : Exc bool :=
  let x1 := x + dx in
  let y1 := y + dy in
  if negb (_inboard s x1 y1) then Val false
  else
    let x2 := x - dx in
    let y2 := y - dy in
    if negb (_inboard s x2 y2) then Val false
    else
      let? p := cell s x y in
      if p =? 0x20 then Val false
      else
        let? p1 := cell s x1 y1 in
        let? p2 := cell s x2 y2 in
        let? op := getitem oppo (p / 0x10) in
        Val (existsb (Z.eqb (p1 / 0x10)) op && existsb (Z.eqb (p2 / 0x10)) op).

(** The pair of statements [self._delete_rec(board[x][y])] and
    [board[x][y] = v], which [_elim] and both loops of [_shrink] run. *)
Definition wipe (x y v : Z) : M unit :=
  let* p := read (fun s => cell s x y) in
  _delete_rec p >>
  update (store_cell x y v).

(** [_elim]: one iteration of the loop over [dirs], then the loop. *)
Definition elim_dir (x y : Z) (d : Z * Z) : M unit :=
  let '(dx, dy) := d in
  let nx := x + dx in
  let ny := y + dy in
  let* c := read (fun s => _surrounded s nx ny dx dy) in
  if c : bool then wipe nx ny 0x20 else ret tt.

Definition _elim (x y : Z) : M unit := for_ dirs (elim_dir x y).

(** [_shrink].  The second loop reuses the loop variable [i] of the
    first one: it holds the last value of [range(b, 7 - b)], and is
    unbound when that range is empty. *)
Definition ring_cells (b i : Z) : list (Z * Z) :=
  [(b, i); (7 - i, b); (7 - b, 7 - i); (i, 7 - b)].

Definition remove_cell (c : Z * Z) : M unit :=
  let '(x, y) := c in wipe x y 0x40.

Definition block_cell (c : Z * Z) : M unit :=
  let '(x, y) := c in wipe x y 0x30 >> _elim x y.

Definition _shrink : M unit :=
  let* b := read (fun s => Val (border s)) in
  for_ (range b (7 - b)) (fun i => for_ (ring_cells b i) remove_cell) >>
  match last (range b (7 - b)) with
  | None => raise UnboundLocalError
  | Some i =>
      let b := b + 1 in
      for_ (ring_cells b i) block_cell >>
      update (fun s => Val (set_border (border s + b) s)) >>
      update (fun s => Val (set_turn_thres (turn_thres s + turn_step s) s)) >>
      update (fun s => Val (set_turn_step (turn_step s / 2) s))
  end.

(** [_try_move] *)
Definition _try_move (s : Board) (x y dx dy : Z) : Exc (option (Z * Z)) :=
  let nx := x + dx in
  let ny := y + dy in
  if negb (_inboard s nx ny) then Val None
  else
    let? c := cell s nx ny in
    if c =? 0x30 then Val None
    else if c =? 0x20 then Val (Some (nx, ny))
    else
      let nx := nx + dx in
      let ny := ny + dy in
      if _inboard s nx ny then
        let? c2 := cell s nx ny in
        if c2 =? 0x20 then Val (Some (nx, ny)) else Val None
      else Val None.

(** [copy]: the value the new object holds. *)
Definition copy (s : Board) : Board :=
  {| board := map (fun j => map (fun i => i) j) (board s);
     border := border s;
     count := map (fun i => i) (count s);
     num_pieces := map (fun i => i) (num_pieces s);
     pieces := map (fun j => map (fun i => i) j) (pieces s);
     turn_step := turn_step s;
     turn_thres := turn_thres s;
     turns := turns s |}.

(** The test [_surrounded(x, y, 1, 0) or _surrounded(x, y, 0, 1)]. *)
Definition self_surrounded (s : Board) (x y : Z) : Exc bool :=
  let? a := _surrounded s x y 1 0 in
  if a : bool then Val true else _surrounded s x y 0 1.

(** [move].  The part up to the registry update, then the turn counter
    and the shrink test.  The method returns [None]; the model returns
    whether the branch that calls [_shrink] was taken. *)
Definition move_piece (sx sy dx dy : Z) : M unit :=
  let* a := read (fun s => cell s dx dy) in
  let* b := read (fun s => cell s sx sy) in
  update (store_cell sx sy a) >>
  update (store_cell dx dy b) >>
  let* p := read (fun s => cell s dx dy) in
  _elim dx dy >>
  let* c := read (fun s => self_surrounded s dx dy) in
  if c : bool then
    update (store_cell dx dy 0x20) >>
    _delete_rec p
  else
    update (store_rec p (Some (dx, dy))).

Definition move (sx sy dx dy : Z) : M bool :=
  move_piece sx sy dx dy >>
  update (fun s => Val (set_turns (turns s + 1) s)) >>
  let* due := read (fun s => Val (turns s =? turn_thres s)) in
  if due : bool then _shrink >> ret true else ret false.

(** [place].  The part up to and including [_elim], then the test. *)
Definition place_piece (x y type : Z) : M Z :=
  let* c := read (fun s => getitem (count s) type) in
  let piece := type * 0x10 + c in
  update (fun s =>
    let? c := getitem (count s) type in
    let? cs := setitem (count s) type (c + 1) in
    Val (set_count cs s)) >>
  update (store_cell x y piece) >>
  _elim x y >>
  ret piece.

Definition place (x y type : Z) : M unit :=
  let* piece := place_piece x y type in
  let* c := read (fun s => self_surrounded s x y) in
  if c : bool then update (store_cell x y 0x20)
  else _add_rec piece (x, y).

(** [valid_place] *)
Fixpoint efilter {A} (f : A -> Exc bool) (l : list A) : Exc (list A) :=
  match l with
  | [] => Val []
  | a :: l' =>
      let? keep := f a in
      let? r := efilter f l' in
      Val (if keep : bool then a :: r else r)
  end.

Fixpoint emap {A B} (f : A -> Exc B) (l : list A) : Exc (list B) :=
  match l with
  | [] => Val []
  | a :: l' =>
      let? b := f a in
      let? r := emap f l' in
      Val (b :: r)
  end.

Definition product (l1 l2 : list Z) : list (Z * Z) :=
  x ← l1; (fun y => (x, y)) <$> l2.

Definition valid_place (s : Board) (type : Z) : Exc (list (Z * Z)) :=
  let rows := if type =? 0 then range 0 6 else range 2 8 in
  efilter (fun '(x, y) => let? c := cell s x y in Val (c =? 0x20))
          (product rows (range 0 8)).

(** [valid_move] *)
Definition valid_move (s : Board) (type : Z)
  : Exc (list ((Z * Z) * list (Z * Z))) :=
  let? reg := getitem (pieces s) type in
  emap (fun '(x, y) =>
          let? ds := emap (fun '(dx, dy) => _try_move s x y dx dy) dirs in
          Val ((x, y), omap id ds))
       (omap id reg).

(** [end] *)
Definition end_ (s : Board) : bool := existsb (fun i => i <? 2) (num_pieces s).

(** ** Running sequences of operations *)

Inductive op :=
| Place (x y type : Z)
| Move (sx sy dx dy : Z).


Definition step (o : op) : M bool :=
  match o with
  | Place x y type => place x y type >> ret false
  | Move sx sy dx dy => move sx sy dx dy
  end.

Definition valid_op (s : Board) (o : op) : bool :=
  match o with
  | Place x y type =>
      bool_decide (type ∈ [0; 1])
      && match getitem (count s) type with Val c => c <? 12 | Err _ => false end
      && match valid_place s type with
         | Val l => bool_decide ((x, y) ∈ l)
         | Err _ => false
         end
  | Move sx sy dx dy =>
      existsb (fun type =>
        match valid_move s type with
        | Val l => existsb (fun '(o, ds) => bool_decide (o = (sx, sy))
                                            && bool_decide ((dx, dy) ∈ ds)) l
        | Err _ => false
        end) [0; 1]
  end.

Fixpoint run (ops : list op) : M (list Z) :=
  match ops with
  | [] => ret []
  | o :: r =>
      let* f := step o in
      let* t := read (fun s => Val (turns s)) in
      let* l := run r in
      ret (if f : bool then t :: l else l)
  end.

Fixpoint all_valid (ops : list op) (s : Board) : bool :=
  match ops with
  | [] => true
  | o :: r => valid_op s o && match step o s with Ok _ s' => all_valid r s' | Raise _ _ => false end
  end.

(** The number of [move] calls in a sequence. *)
Fixpoint moves (ops : list op) : Z :=
  match ops with
  | [] => 0
  | Move _ _ _ _ :: r => 1 + moves r
  | Place _ _ _ :: r => moves r
  end.

(** A game used in the examples: one piece of each side is placed, then
    the first side's piece goes back and forth [n] times between
    [(4, 3)] and [(4, 4)]. *)
Fixpoint shuttle (n : nat) (r a b : Z) : list op :=
  match n with
  | O => []
  | S n' => Move r a r b :: shuttle n' r b a
  end.

Definition game (n : nat) : list op :=
  Place 4 3 0 :: Place 2 4 1 :: shuttle n 4 3 4.

(** A computation leaves a component of the state as it found it,
    whether it returns or raises. *)
Definition keeps {A X} (f : Board -> X) (m : M A) : Prop :=
  forall s, f (final (m s)) = f s.

(** The counters that only [place], [move] and [_shrink] write. *)
Definition clock (s : Board) : Z * list Z * Z * Z * Z :=
  (border s, count s, turns s, turn_thres s, turn_step s).


(** ** Views of the state used in the statements *)

(** Total lookups at non-negative coordinates. *)
Definition lk2 {A} (g : list (list A)) (x y : Z) : option A :=
  if (0 <=? x) && (0 <=? y)
  then g !! Z.to_nat x ≫= (fun row => row !! Z.to_nat y)
  else None.

Definition upd2 {A} (g : list (list A)) (x y : Z) (v : A) : list (list A) :=
  match g !! Z.to_nat x with
  | Some row => <[Z.to_nat x := <[Z.to_nat y := v]> row]> g
  | None => g
  end.

Definition in_grid (x y : Z) : Prop := (0 <= x < 8) /\ (0 <= y < 8).


(** The codes a cell can hold (class docstring): [0x00]-[0x0B] and
    [0x10]-[0x1B] are the numbered pieces of the two sides, [0x20] is a
    space, [0x30] a block, [0x40] a removed square. *)
Definition is_piece (v : Z) : bool :=
  (0 <=? v) && (v <? 0x20) && (v mod 0x10 <? 12).

Inductive cls := Free | Blocked | Removed | Junk.

#[global] Instance cls_eq_dec : EqDecision cls.
Proof. solve_decision. Defined.

Definition classify (v : Z) : cls :=
  if (v =? 0x20) || is_piece v then Free
  else if v =? 0x30 then Blocked
  else if v =? 0x40 then Removed
  else Junk.

(** The board with pieces and spaces identified. *)
Definition skel (s : Board) : list (list cls) :=
  fmap (M:=list) (fmap (M:=list) classify) (board s).

(** The registry entry of the piece with code [p]. *)
Definition reg (s : Board) (p : Z) : option (option (Z * Z)) :=
  lk2 (pieces s) (p / 0x10) (p mod 0x10).

Definition count_some (l : list (option (Z * Z))) : Z :=
  Z.of_nat (length (omap id l)).

Definition reg_shape (s : Board) : Prop :=
  length (pieces s) = 2%nat
  /\ Forall (fun r => length r = 12%nat) (pieces s)
  /\ length (num_pieces s) = 2%nat
  /\ length (count s) = 2%nat.

(** The state after [wipe x y v]. *)
Definition wiped (x y v : Z) (s : Board) : Board :=
  match lk2 (board s) x y with
  | Some q =>
      if is_piece q then
        {| board := upd2 (board s) x y v;
           border := border s;
           count := count s;
           num_pieces :=
             alter (fun n => n + -1) (Z.to_nat (q / 0x10)) (num_pieces s);
           pieces := upd2 (pieces s) (q / 0x10) (q mod 0x10) None;
           turn_step := turn_step s;
           turn_thres := turn_thres s;
           turns := turns s |}
      else set_board (upd2 (board s) x y v) s
  | None => s
  end.

Definition dims (s : Board) : Prop :=
  length (board s) = 8%nat /\ Forall (fun r => length r = 8%nat) (board s).

(** [q // 0x10 in oppo[p // 0x10]] *)
Definition hostile (p q : Z) : bool :=
  match getitem oppo (p / 0x10) with
  | Val op => existsb (Z.eqb (q / 0x10)) op
  | Err _ => false
  end.

(** The piece on [(x, y)] lies between two active cells hostile to it,
    along the axis [(dx, dy)]. *)
Definition flanked (s : Board) (x y dx dy : Z) : bool :=
  _inboard s (x + dx) (y + dy) && _inboard s (x - dx) (y - dy)
  && match lk2 (board s) x y,
           lk2 (board s) (x + dx) (y + dy),
           lk2 (board s) (x - dx) (y - dy) with
     | Some p, Some p1, Some p2 =>
         is_piece p && (hostile p p1 && hostile p p2)
     | _, _, _ => false
     end.

(** *** Agreement of the grid and the registries

    While [place] and [move] run, one piece, on the cell being played,
    is not yet recorded where it stands: its registry entry is empty
    ([place]) or still names the cell it left, now a space ([move]). *)
Record hole := mkHole {
  hx : Z;
  hy : Z;
  hp : Z;
  he : option (Z * Z)
}.

Definition off_hole (h : option hole) (x y : Z) : Prop :=
  match h with
  | Some k => (x, y) <> (hx k, hy k)
  | None => True
  end.

Definition not_hole_piece (h : option hole) (p : Z) : Prop :=
  match h with
  | Some k => p <> hp k
  | None => True
  end.

Definition hole_ok (h : option hole) (s : Board) : Prop :=
  match h with
  | Some k =>
      lk2 (board s) (hx k) (hy k) = Some (hp k)
      /\ is_piece (hp k) = true
      /\ reg s (hp k) = Some (he k)
      /\ match he k with
         | Some (x, y) => lk2 (board s) x y = Some 0x20
         | None => True
         end
  | None => True
  end.

Record agree_ex (h : option hole) (s : Board) : Prop := mkAgree {
  ag_grid : forall x y p,
    lk2 (board s) x y = Some p -> is_piece p = true -> off_hole h x y ->
    reg s p = Some (Some (x, y));
  ag_reg : forall p x y,
    is_piece p = true -> reg s p = Some (Some (x, y)) -> not_hole_piece h p ->
    lk2 (board s) x y = Some p;
  ag_hole : hole_ok h s;
  ag_num : forall t row,
    t = 0 \/ t = 1 -> pieces s !! Z.to_nat t = Some row ->
    num_pieces s !! Z.to_nat t = Some (count_some row);
  ag_ids : forall p pos,
    is_piece p = true -> reg s p = Some (Some pos) ->
    exists c, count s !! Z.to_nat (p / 0x10) = Some c /\ p mod 0x10 < c;
  ag_count : forall t c, count s !! t = Some c -> 0 <= c <= 12
}.

Definition agree (s : Board) : Prop := agree_ex None s.

(** *** The shape of the board between shrinks

    [border] takes the values 0, 1, 3 and 7; each fixes which squares
    are removed and which are blocks. *)
Definition ring_of (x y : Z) : Z := Z.min (Z.min x (7 - x)) (Z.min y (7 - y)).

Definition shrinks_done (b : Z) : Z :=
  if b =? 0 then 0 else if b =? 1 then 1 else if b =? 3 then 2 else 3.

Definition expect_cls (b x y : Z) : cls :=
  let n := shrinks_done b in
  let r := ring_of x y in
  if r <? Z.min n 2 then Removed
  else if (Z.min x (7 - x) =? Z.min y (7 - y)) && (r <=? n) then Blocked
  else Free.

Definition expect (b : Z) : list (list cls) :=
  (fun x => (fun y => expect_cls b x y) <$> range 0 8) <$> range 0 8.

Definition sched (s : Board) : Prop :=
  (border s, turn_thres s, turn_step s)
  ∈ [(0, 128, 64); (1, 192, 32); (3, 224, 16); (7, 240, 8)].

(** No flank test that passes both [_inboard] checks when [_elim x y]
    runs it sits on a block or a removed square. *)
Definition site_safe (K : list (list cls)) (b x y : Z) : bool :=
  forallb (fun '(dx, dy) =>
             implb (inboard_at b (x + dx + dx) (y + dy + dy)
                    && inboard_at b (x + dx - dx) (y + dy - dy))
                   (bool_decide (lk2 K (x + dx) (y + dy) = Some Free)))
          dirs.

Definition safe_skel (K : list (list cls)) (b : Z) : bool :=
  forallb (fun '(x, y) => site_safe K b x y)
          (product (range (-2) 10) (range (-2) 10)).

(** [_shrink] on the board with pieces and spaces identified. *)
Fixpoint afold {A K} (f : A -> K -> option K) (l : list A) (k : K) : option K :=
  match l with
  | [] => Some k
  | a :: l' => match f a k with Some k' => afold f l' k' | None => None end
  end.

Definition awipe (v : Z) (c : Z * Z) (K : list (list cls))
  : option (list (list cls)) :=
  match lk2 K c.1 c.2 with
  | Some k => if decide (k = Junk) then None else Some (upd2 K c.1 c.2 (classify v))
  | None => None
  end.

Definition ablock (b : Z) (c : Z * Z) (K : list (list cls))
  : option (list (list cls)) :=
  match awipe 0x30 c K with
  | Some K' => if site_safe K' b c.1 c.2 then Some K' else None
  | None => None
  end.

Definition shrink_skel (b : Z) (K : list (list cls)) : option (list (list cls)) :=
  match afold (fun i => afold (awipe 0x40) (ring_cells b i)) (range b (7 - b)) K with
  | Some K1 =>
      match last (range b (7 - b)) with
      | Some i => afold (ablock b) (ring_cells (b + 1) i) K1
      | None => None
      end
  | None => None
  end.

(** The state while an operation that started in [s0] runs: the board
    has the shape [K], the registries agree with the grid but for the
    piece being played, the counters are those of [s0]. *)
Record mid (K : list (list cls)) (h : option hole) (s0 s : Board) : Prop := mkMid {
  mid_skel : skel s = K;
  mid_dims : dims s;
  mid_shape : reg_shape s;
  mid_agree : agree_ex h s;
  mid_border : border s = border s0;
  mid_count : count s = count s0;
  mid_turns : turns s = turns s0;
  mid_thres : turn_thres s = turn_thres s0;
  mid_step : turn_step s = turn_step s0
}.

(** The state once the piece being played is recorded where it stands
    ([e = Some _], on the grid [g] as it is) or taken off ([e = None],
    [g] with a space on its cell). *)
Definition b2z {A} (e : option A) : Z := if e is Some _ then 1 else 0.

Definition closed (k : hole) (g : list (list Z)) (e : option (Z * Z))
    (s : Board) : Board :=
  {| board := g;
     border := border s;
     count := count s;
     num_pieces :=
       alter (fun n => n + (b2z e - b2z (he k)))
             (Z.to_nat (hp k / 0x10)) (num_pieces s);
     pieces := upd2 (pieces s) (hp k / 0x10) (hp k mod 0x10) e;
     turn_step := turn_step s;
     turn_thres := turn_thres s;
     turns := turns s |}.

(** *** The movement rule in the words of the specification

    For a direction, the single-step destination when the adjacent cell
    is empty and active; otherwise the cell two steps away when the
    adjacent cell is occupied by a piece or is a block and the cell
    beyond it is empty and active; otherwise no destination.  This is
    the text to compare [_try_move] with. *)
Definition empty_active (s : Board) (c : Z * Z) : bool :=
  _inboard s c.1 c.2 && bool_decide (lk2 (board s) c.1 c.2 = Some 0x20).

Definition occupied_or_blocked (s : Board) (c : Z * Z) : bool :=
  match lk2 (board s) c.1 c.2 with
  | Some v => is_piece v || (v =? 0x30)
  | None => false
  end.

Definition spec_try_move (s : Board) (x y dx dy : Z) : option (Z * Z) :=
  let adj := (x + dx, y + dy) in
  let far := (x + dx + dx, y + dy + dy) in
  if empty_active s adj then Some adj
  else if occupied_or_blocked s adj && empty_active s far then Some far
  else None.

(** What the shape of the board guarantees around a free cell: a block
    next to it, or an inactive cell next to it, has no active cell
    behind, and an active cell next to it is not a removed square. *)
Definition move_geometry (K : list (list cls)) (b : Z) : bool :=
  forallb (fun '(x, y) =>
    implb (bool_decide (lk2 K x y = Some Free))
      (forallb (fun '(dx, dy) =>
         let a := inboard_at b (x + dx) (y + dy) in
         let f := inboard_at b (x + dx + dx) (y + dy + dy) in
         (a || negb f)
         && implb (a && bool_decide (lk2 K (x + dx) (y + dy) = Some Blocked))
                  (negb f)
         && implb a (bool_decide (lk2 K (x + dx) (y + dy) = Some Free)
                     || bool_decide (lk2 K (x + dx) (y + dy) = Some Blocked)))
         dirs))
    (product (range 0 8) (range 0 8)).

(** The shape after the shrink entered with [border = b]: the four
    cells of the second loop are blocks, the rest of ring [b] is removed,
    the rest of ring [b + 1] is free. *)
Definition shrink_picture (b : Z) : bool :=
  forallb (fun '(x, y) =>
             let c := expect_cls (b + (b + 1)) x y in
             if bool_decide ((x, y) ∈ ring_cells (b + 1) (6 - b))
             then bool_decide (c = Blocked)
             else if ring_of x y =? b then bool_decide (c = Removed)
             else if ring_of x y =? b + 1 then bool_decide (c = Free)
             else true)
          (product (range 0 8) (range 0 8))
  && forallb (fun '(x, y) => (0 <=? x) && (x <? 8) && ((0 <=? y) && (y <? 8)))
             (ring_cells (b + 1) (6 - b))
  && bool_decide (last (range b (7 - b)) = Some (6 - b)).

(** A second game for the examples: a piece of the first side on
    [(2, 6)], one of the second side below it on [(3, 6)], and a third
    piece that goes back and forth [n] times. *)
Definition game2 (n : nat) : list op :=
  Place 2 6 0 :: Place 3 6 1 :: Place 4 3 0 :: shuttle n 4 3 4.

(** A cell hostile to side [a]: a block, or a piece of the other side
    (the entries of [oppo[a]] are the other side and 3, the high digit
    of the code of a block). *)
Definition hostile_to (a : Z) (s : Board) (x y : Z) : bool :=
  match lk2 (board s) x y with
  | Some v => (v =? 0x30) || (is_piece v && (v / 0x10 =? 1 - a))
  | None => false
  end.

(** *** States of the game *)

Record Inv (s : Board) : Prop := mkInv {
  inv_skel : skel s = expect (border s);
  inv_sched : sched s;
  inv_shape : reg_shape s;
  inv_agree : agree s;
  inv_turns : 0 <= turns s < turn_thres s
}.

Inductive reachable : Board -> Prop :=
| reach_init : reachable init
| reach_step s o f s' :
    reachable s -> valid_op s o = true -> step o s = Ok f s' ->
    reachable s'.

(** ** The objects behind a [Board]: storage and aliasing

    A [Board] object holds four references to lists ([board] and
    [pieces] are lists of references to row lists) and four integers.
    The heap below keeps every list and every [Board] object at a
    location; the methods mutate the lists of [self] in place (they only
    assign items and rebind the integer slots), which is what [call]
    does with the state-and-exception model of a method. *)
Definition loc := nat.

Inductive val :=
| VInt (z : Z)
| VRef (l : loc)
| VPos (p : option (Z * Z)).

Record slots := mkSlots {
  s_board : loc;
  s_border : Z;
  s_count : loc;
  s_num_pieces : loc;
  s_pieces : loc;
  s_turn_step : Z;
  s_turn_thres : Z;
  s_turns : Z
}.

Inductive obj :=
| OList (vs : list val)
| OBoard (f : slots).

Definition heap := list obj.

Definition alloc (h : heap) (ob : obj) : heap * loc := (h ++ [ob], length h).

Definition get_list (h : heap) (l : loc) : option (list val) :=
  match h !! l with
  | Some (OList vs) => Some vs
  | _ => None
  end.

Definition as_int (v : val) : option Z :=
  match v with VInt z => Some z | _ => None end.
Definition as_ref (v : val) : option loc :=
  match v with VRef l => Some l | _ => None end.
Definition as_pos (v : val) : option (option (Z * Z)) :=
  match v with VPos p => Some p | _ => None end.

Definition get_refs (h : heap) (l : loc) : option (list loc) :=
  get_list h l ≫= mapM as_ref.

Definition get_rows (h : heap) (l : loc) : option (list (list val)) :=
  get_refs h l ≫= mapM (get_list h).

Definition row_locs (h : heap) (l : loc) : list loc :=
  default [] (get_refs h l).

(** The value of the object at [o]. *)
Definition view (h : heap) (o : loc) : option Board :=
  match h !! o with
  | Some (OBoard f) =>
      g ← get_rows h (s_board f) ≫= mapM (mapM as_int);
      c ← get_list h (s_count f) ≫= mapM as_int;
      n ← get_list h (s_num_pieces f) ≫= mapM as_int;
      p ← get_rows h (s_pieces f) ≫= mapM (mapM as_pos);
      Some (mkBoard g (s_border f) c n p
                    (s_turn_step f) (s_turn_thres f) (s_turns f))
  | _ => None
  end.

(** The locations that hold the object at [o] and its lists. *)
Definition locs (h : heap) (o : loc) : list loc :=
  match h !! o with
  | Some (OBoard f) =>
      o :: s_board f :: s_count f :: s_num_pieces f :: s_pieces f
        :: row_locs h (s_board f) ++ row_locs h (s_pieces f)
  | _ => [o]
  end.

Definition refs_of (ob : obj) : list loc :=
  match ob with
  | OList vs => omap as_ref vs
  | OBoard f => [s_board f; s_count f; s_num_pieces f; s_pieces f]
  end.

(** [__init__]: a new object with new lists, holding the value [s]. *)
Fixpoint alloc_rows (h : heap) (rows : list (list val)) : heap * list loc :=
  match rows with
  | [] => (h, [])
  | row :: r =>
      let '(h1, l) := alloc h (OList row) in
      let '(h2, ls) := alloc_rows h1 r in
      (h2, l :: ls)
  end.

Definition new_board (h : heap) (s : Board) : heap * loc :=
  let '(h1, brs) := alloc_rows h (fmap (M:=list) VInt <$> board s) in
  let '(h2, bl) := alloc h1 (OList (VRef <$> brs)) in
  let '(h3, cl) := alloc h2 (OList (VInt <$> count s)) in
  let '(h4, prs) := alloc_rows h3 (fmap (M:=list) VPos <$> pieces s) in
  let '(h5, pl) := alloc h4 (OList (VRef <$> prs)) in
  let '(h6, nl) := alloc h5 (OList (VInt <$> num_pieces s)) in
  alloc h6 (OBoard (mkSlots bl (border s) cl nl pl
                            (turn_step s) (turn_thres s) (turns s))).

(** [copy] on the heap.  [[i for i in j]] builds a new list with the
    items of [j]; [[[i for i in j] for j in g]] builds a new list for
    each row of [g], then a new list of them.  The new object is
    created by [object.__new__] and its slots are then assigned, in the
    order [board], [count], [pieces], [num_pieces] and the four
    integers; none is read in between, so the model allocates it once
    the slots are known. *)
Definition copy_list (h : heap) (l : loc) : option (heap * loc) :=
  vs ← get_list h l; Some (alloc h (OList vs)).

Fixpoint copy_rows (h : heap) (rs : list loc) : option (heap * list loc) :=
  match rs with
  | [] => Some (h, [])
  | r :: rs' =>
      match copy_list h r with
      | Some (h1, r') =>
          match copy_rows h1 rs' with
          | Some (h2, rs2) => Some (h2, r' :: rs2)
          | None => None
          end
      | None => None
      end
  end.

Definition copy_grid (h : heap) (l : loc) : option (heap * loc) :=
  match get_refs h l with
  | Some rs =>
      match copy_rows h rs with
      | Some (h1, rs') => Some (alloc h1 (OList (VRef <$> rs')))
      | None => None
      end
  | None => None
  end.

Definition heap_copy (h : heap) (o : loc) : option (heap * loc) :=
  match h !! o with
  | Some (OBoard f) =>
      match copy_grid h (s_board f) with
      | Some (h1, bl) =>
          match copy_list h1 (s_count f) with
          | Some (h2, cl) =>
              match copy_grid h2 (s_pieces f) with
              | Some (h3, pl) =>
                  match copy_list h3 (s_num_pieces f) with
                  | Some (h4, nl) =>
                      Some (alloc h4 (OBoard (mkSlots bl (s_border f) cl nl pl
                                                (s_turn_step f) (s_turn_thres f)
                                                (s_turns f))))
                  | None => None
                  end
              | None => None
              end
          | None => None
          end
      | None => None
      end
  | _ => None
  end.

(** A method call on the object at [o]: the lists of the object are
    written in place, the integer slots rebound. *)
Fixpoint put_rows (h : heap) (rs : list loc) (rows : list (list val)) : heap :=
  match rs, rows with
  | r :: rs', row :: rows' => put_rows (<[r := OList row]> h) rs' rows'
  | _, _ => h
  end.

Definition put (h : heap) (o : loc) (s : Board) : heap :=
  match h !! o with
  | Some (OBoard f) =>
      let h1 := put_rows h (row_locs h (s_board f))
                         (fmap (M:=list) VInt <$> board s) in
      let h2 := <[s_count f := OList (VInt <$> count s)]> h1 in
      let h3 := <[s_num_pieces f := OList (VInt <$> num_pieces s)]> h2 in
      let h4 := put_rows h3 (row_locs h (s_pieces f))
                         (fmap (M:=list) VPos <$> pieces s) in
      <[o := OBoard (mkSlots (s_board f) (border s) (s_count f)
                             (s_num_pieces f) (s_pieces f)
                             (turn_step s) (turn_thres s) (turns s))]> h4
  | _ => h
  end.

Definition call {A} (h : heap) (o : loc) (m : M A) : heap :=
  match view h o with
  | Some s => put h o (final (m s))
  | None => h
  end.

Fixpoint calls (h : heap) (o : loc) (ops : list op) : heap :=
  match ops with
  | [] => h
  | op :: r => calls (call h o (step op)) o r
  end.

(** A set of locations that no reference leads out of. *)
Definition closed_set (C : list loc) (h : heap) : Prop :=
  forall l ob r, l ∈ C -> h !! l = Some ob -> r ∈ refs_of ob -> r ∈ C.

(** [h'] is [h] except at locations of [C], which hold objects whose
    references stay in [C]. *)
Definition writes (C : list loc) (h h' : heap) : Prop :=
  forall l, h' !! l = h !! l
            \/ (l ∈ C /\ exists ob, h' !! l = Some ob
                                  /\ forall r, r ∈ refs_of ob -> r ∈ C).

(** The lists that hold the value [s] of the object at [o]. *)
Record backing (h : heap) (o : loc) (s : Board) (f : slots)
    (rb : list (list val)) (cv nv : list val) (rp : list (list val)) : Prop :=
  mkBacking {
    bk_obj : h !! o = Some (OBoard f);
    bk_board : get_rows h (s_board f) = Some rb;
    bk_board_v : mapM (mapM as_int) rb = Some (board s);
    bk_count : get_list h (s_count f) = Some cv;
    bk_count_v : mapM as_int cv = Some (count s);
    bk_num : get_list h (s_num_pieces f) = Some nv;
    bk_num_v : mapM as_int nv = Some (num_pieces s);
    bk_pieces : get_rows h (s_pieces f) = Some rp;
    bk_pieces_v : mapM (mapM as_pos) rp = Some (pieces s);
    bk_ints : (border s, turn_step s, turn_thres s, turns s)
              = (s_border f, s_turn_step f, s_turn_thres f, s_turns f)
  }.

(** * Properties *)

(** ** Python indexing *)

Section pylist.
Context {A : Type}.
Implicit Types (l : list A) (g : list (list A)) (i x y : Z).

Lemma py_index_nonneg n i :
  0 <= i -> py_index n i = if i <? Z.of_nat n then Some (Z.to_nat i) else None.
Proof.
  intros Hi. unfold py_index.
  destruct (0 <=? i) eqn:E0; [|lia].
  destruct (i <? Z.of_nat n) eqn:E1; simpl; [done|].
  destruct (i <? 0) eqn:E2; [lia|]. by rewrite andb_false_r.
Qed.

Lemma getitem_nonneg l i :
  0 <= i ->
  getitem l i = match l !! Z.to_nat i with
                | Some a => Val a
                | None => Err IndexError
                end.
Proof.
  intros Hi. unfold getitem. rewrite py_index_nonneg by done.
  destruct (i <? Z.of_nat (length l)) eqn:E; [done|].
  rewrite lookup_ge_None_2; [done|lia].
Qed.

Lemma getitem_Val l i a :
  0 <= i -> l !! Z.to_nat i = Some a -> getitem l i = Val a.
Proof. intros Hi H. rewrite getitem_nonneg by done. by rewrite H. Qed.

Lemma setitem_nonneg l i a b :
  0 <= i -> l !! Z.to_nat i = Some b ->
  setitem l i a = Val (<[Z.to_nat i := a]> l).
Proof.
  intros Hi H. unfold setitem. rewrite py_index_nonneg by done.
  apply lookup_lt_Some in H.
  destruct (i <? Z.of_nat (length l)) eqn:E; [done|lia].
Qed.

End pylist.

Section pylist2.
Context {A : Type}.
Implicit Types (g : list (list A)) (x y : Z).

Lemma lk2_Some g x y a :
  lk2 g x y = Some a ->
  0 <= x /\ 0 <= y /\
  exists row, g !! Z.to_nat x = Some row /\ row !! Z.to_nat y = Some a.
Proof.
  unfold lk2. destruct (0 <=? x) eqn:Ex, (0 <=? y) eqn:Ey; simpl; try done.
  destruct (g !! Z.to_nat x) as [row|] eqn:Er; simpl; [|done].
  intros H. repeat split; [lia|lia|]. by exists row.
Qed.

Lemma lk2_intro g x y row a :
  0 <= x -> 0 <= y ->
  g !! Z.to_nat x = Some row -> row !! Z.to_nat y = Some a ->
  lk2 g x y = Some a.
Proof.
  intros Hx Hy Hr Ha. unfold lk2.
  destruct (0 <=? x) eqn:Ex, (0 <=? y) eqn:Ey; try lia.
  simpl. rewrite Hr. done.
Qed.

Lemma getitem2_lk2 g x y a : lk2 g x y = Some a -> getitem2 g x y = Val a.
Proof.
  intros (Hx & Hy & row & Hr & Ha)%lk2_Some. unfold getitem2.
  rewrite (getitem_Val _ _ row) by done. simpl. by apply getitem_Val.
Qed.

Lemma getitem2_nonneg g x y :
  0 <= x -> 0 <= y ->
  getitem2 g x y = match lk2 g x y with
                   | Some a => Val a
                   | None => Err IndexError
                   end.
Proof.
  intros Hx Hy. destruct (lk2 g x y) as [a|] eqn:E.
  - by apply getitem2_lk2.
  - unfold getitem2, lk2 in *.
    destruct (0 <=? x) eqn:Ex, (0 <=? y) eqn:Ey; try lia. simpl in E.
    rewrite getitem_nonneg by done.
    destruct (g !! Z.to_nat x) as [row|]; simpl in *; [|done].
    rewrite getitem_nonneg by done. by rewrite E.
Qed.

Lemma setitem2_lk2 g x y v a :
  lk2 g x y = Some a -> setitem2 g x y v = Val (upd2 g x y v).
Proof.
  intros (Hx & Hy & row & Hr & Ha)%lk2_Some. unfold setitem2, upd2.
  rewrite (getitem_Val _ _ row) by done. simpl.
  rewrite (setitem_nonneg _ _ _ a) by done. simpl.
  rewrite Hr. by apply (setitem_nonneg _ _ _ row).
Qed.

Lemma lk2_upd2_eq g x y v a :
  lk2 g x y = Some a -> lk2 (upd2 g x y v) x y = Some v.
Proof.
  intros (Hx & Hy & row & Hr & Ha)%lk2_Some. unfold upd2. rewrite Hr.
  apply (lk2_intro _ _ _ (<[Z.to_nat y := v]> row)); try done.
  - apply list_lookup_insert_eq. by apply lookup_lt_Some in Hr.
  - apply list_lookup_insert_eq. by apply lookup_lt_Some in Ha.
Qed.

Lemma lk2_upd2_ne g x y v x' y' :
  0 <= x -> 0 <= y -> (x, y) <> (x', y') ->
  lk2 (upd2 g x y v) x' y' = lk2 g x' y'.
Proof.
  intros Hx Hy Hne. unfold upd2.
  destruct (g !! Z.to_nat x) as [row|] eqn:Hr; [|done].
  unfold lk2. destruct ((0 <=? x') && (0 <=? y')) eqn:E; [|done].
  apply andb_true_iff in E as [Ex' Ey'].
  destruct (decide (Z.to_nat x = Z.to_nat x')) as [Heq|Hneq].
  - rewrite <- Heq. rewrite list_lookup_insert_eq by (by apply lookup_lt_Some in Hr).
    rewrite Hr. simpl. apply list_lookup_insert_ne.
    intros Hy'. apply Hne. f_equal; lia.
  - by rewrite list_lookup_insert_ne.
Qed.

Lemma upd2_id g x y a : lk2 g x y = Some a -> upd2 g x y a = g.
Proof.
  intros (Hx & Hy & row & Hr & Ha)%lk2_Some. unfold upd2. rewrite Hr.
  rewrite (list_insert_id row) by done. by apply list_insert_id.
Qed.

Lemma length_upd2 g x y v : length (upd2 g x y v) = length g.
Proof.
  unfold upd2. destruct (g !! Z.to_nat x); [|done]. by rewrite length_insert.
Qed.
End pylist2.

Lemma fmap_upd2 {A B} (f : A -> B) (g : list (list A)) x y v :
  fmap (M:=list) (fmap (M:=list) f) (upd2 g x y v)
  = upd2 (fmap (M:=list) (fmap (M:=list) f) g) x y (f v).
Proof.
  unfold upd2. rewrite list_lookup_fmap.
  destruct (g !! Z.to_nat x) as [row|]; simpl; [|done].
  by rewrite !list_fmap_insert.
Qed.

Lemma lk2_fmap {A B} (f : A -> B) (g : list (list A)) x y :
  lk2 (fmap (M:=list) (fmap (M:=list) f) g) x y = f <$> lk2 g x y.
Proof.
  unfold lk2. destruct ((0 <=? x) && (0 <=? y)); [|done].
  rewrite list_lookup_fmap. destruct (g !! Z.to_nat x) as [row|]; simpl; [|done].
  by rewrite list_lookup_fmap.
Qed.

(** ** The monad *)

Lemma bind_Ok {A B} (m : M A) (k : A -> M B) s a s' :
  m s = Ok a s' -> bind m k s = k a s'.
Proof. unfold bind. by intros ->. Qed.

Lemma read_Val {A} (f : Board -> Exc A) s a :
  f s = Val a -> read f s = Ok a s.
Proof. unfold read. by intros ->. Qed.

Lemma update_Val (f : Board -> Exc Board) s s' :
  f s = Val s' -> update f s = Ok tt s'.
Proof. unfold update. by intros ->. Qed.

(** ** Cell codes *)

Lemma is_piece_spec v :
  is_piece v = true <->
  0 <= v < 0x20 /\ v mod 0x10 < 12.
Proof. unfold is_piece. rewrite !andb_true_iff. lia. Qed.

Lemma is_piece_side v :
  is_piece v = true ->
  (v / 0x10 = 0 \/ v / 0x10 = 1) /\ 0 <= v mod 0x10 < 12.
Proof.
  intros [H1 H2]%is_piece_spec.
  assert (0 <= v / 16 < 2) by (split; [apply Z.div_pos|apply Z.div_lt_upper_bound]; lia).
  assert (0 <= v mod 16 < 16) by (apply Z.mod_pos_bound; lia).
  lia.
Qed.

Lemma is_piece_code v : is_piece v = true -> v = 0x10 * (v / 0x10) + v mod 0x10.
Proof. intros _. apply Z.div_mod. lia. Qed.

Lemma classify_Free v :
  classify v = Free <-> v = 0x20 \/ is_piece v = true.
Proof.
  unfold classify.
  destruct (v =? 0x20) eqn:E1; simpl; [intuition lia|].
  destruct (is_piece v); [intuition lia|].
  destruct (v =? 0x30), (v =? 0x40); intuition (try discriminate; try lia).
Qed.

Lemma classify_piece v : is_piece v = true -> classify v = Free.
Proof. intros. apply classify_Free. by right. Qed.

Lemma classify_low v : classify v <> Junk -> v < 0x20 -> is_piece v = true.
Proof.
  unfold classify. intros H Hv.
  destruct (v =? 0x20) eqn:E1; [lia|]. simpl in H.
  destruct (is_piece v); [done|].
  destruct (v =? 0x30) eqn:E2; [lia|].
  destruct (v =? 0x40) eqn:E3; [lia|]. done.
Qed.

(** ** Primitive steps *)

Lemma reg_shape_lookup s p :
  reg_shape s -> is_piece p = true ->
  (exists e, reg s p = Some e)
  /\ exists n, num_pieces s !! Z.to_nat (p / 0x10) = Some n.
Proof.
  intros (Hp & Hr & Hn & _) [Hs Hi]%is_piece_side. split.
  - destruct (lookup_lt_is_Some_2 (pieces s) (Z.to_nat (p / 16))) as [row Hrow]; [lia|].
    assert (length row = 12%nat) as Hlen.
    { by apply (Forall_lookup_1 _ _ _ _ Hr Hrow). }
    destruct (lookup_lt_is_Some_2 row (Z.to_nat (p mod 16))) as [e He]; [lia|].
    exists e. unfold reg. apply (lk2_intro _ _ _ row); [lia|lia|done|done].
  - apply lookup_lt_is_Some_2. lia.
Qed.

Lemma delete_rec_exec s p :
  reg_shape s -> is_piece p = true ->
  _delete_rec p s
  = Ok tt {| board := board s;
             border := border s;
             count := count s;
             num_pieces :=
               alter (fun n => n + -1) (Z.to_nat (p / 0x10)) (num_pieces s);
             pieces := upd2 (pieces s) (p / 0x10) (p mod 0x10) None;
             turn_step := turn_step s;
             turn_thres := turn_thres s;
             turns := turns s |}.
Proof.
  intros Hsh Hp. destruct (reg_shape_lookup s p Hsh Hp) as [[e He] [n Hn]].
  pose proof (is_piece_side _ Hp) as [Hs Hi].
  apply is_piece_spec in Hp as Hp'.
  unfold _delete_rec. destruct (0x20 <=? p) eqn:E; [lia|].
  erewrite bind_Ok; cycle 1.
  { apply update_Val. unfold store_rec. unfold reg in He.
    rewrite (setitem2_lk2 _ _ _ _ _ He). simpl. reflexivity. }
  apply update_Val. unfold add_num, set_pieces. simpl.
  rewrite (getitem_Val _ _ n) by (done || lia). simpl.
  rewrite (setitem_nonneg _ _ _ n) by (done || lia). simpl.
  unfold set_num_pieces. simpl. do 2 f_equal.
  apply list_eq. intros i. rewrite list_lookup_alter.
  destruct (decide (Z.to_nat (p / 16) = i)) as [<-|Hne].
  - rewrite list_lookup_insert_eq by (by apply lookup_lt_Some in Hn). by rewrite Hn.
  - by rewrite list_lookup_insert_ne.
Qed.

Lemma wipe_exec s x y v q :
  reg_shape s -> lk2 (board s) x y = Some q -> classify q <> Junk ->
  wipe x y v s = Ok tt (wiped x y v s).
Proof.
  intros Hsh Hq Hc. unfold wipe, wiped. rewrite Hq.
  erewrite bind_Ok; [|apply read_Val; unfold cell; by apply getitem2_lk2].
  destruct (is_piece q) eqn:Hp.
  - erewrite bind_Ok; [|by apply delete_rec_exec].
    apply update_Val. unfold store_cell. simpl.
    by rewrite (setitem2_lk2 _ _ _ _ _ Hq).
  - assert (_delete_rec q s = Ok tt s) as Hd.
    { unfold _delete_rec. destruct (0x20 <=? q) eqn:E; [done|].
      rewrite classify_low in Hp; [done|done|lia]. }
    rewrite (bind_Ok _ _ _ _ _ Hd).
    apply update_Val. unfold store_cell.
    by rewrite (setitem2_lk2 _ _ _ _ _ Hq).
Qed.

Lemma piece_code_inj p q :
  is_piece p = true -> is_piece q = true ->
  p / 0x10 = q / 0x10 -> p mod 0x10 = q mod 0x10 -> p = q.
Proof.
  intros Hp Hq H1 H2.
  rewrite (is_piece_code p Hp), (is_piece_code q Hq). lia.
Qed.

Lemma Forall_length_upd2 {A} (g : list (list A)) x y v n :
  Forall (fun r => length r = n) g ->
  Forall (fun r => length r = n) (upd2 g x y v).
Proof.
  intros H. unfold upd2. destruct (g !! Z.to_nat x) as [row|] eqn:E; [|done].
  apply Forall_insert; [done|]. rewrite length_insert.
  by apply (Forall_lookup_1 _ _ _ _ H E).
Qed.

Lemma dims_lk2 s x y : dims s -> in_grid x y -> exists v, lk2 (board s) x y = Some v.
Proof.
  intros [Hl Hr] [Hx Hy].
  destruct (lookup_lt_is_Some_2 (board s) (Z.to_nat x)) as [row Hrow]; [lia|].
  pose proof (Forall_lookup_1 _ _ _ _ Hr Hrow) as Hlen. simpl in Hlen.
  destruct (lookup_lt_is_Some_2 row (Z.to_nat y)) as [v Hv]; [lia|].
  exists v. apply (lk2_intro _ _ _ row); [lia|lia|done|done].
Qed.

(** *** What [wipe] leaves *)

Section wiped.
Context (s : Board) (x y v q : Z).
Context (Hq : lk2 (board s) x y = Some q).

Lemma wiped_border : border (wiped x y v s) = border s.
Proof. unfold wiped. rewrite Hq. by destruct (is_piece q). Qed.

Lemma wiped_count : count (wiped x y v s) = count s.
Proof. unfold wiped. rewrite Hq. by destruct (is_piece q). Qed.

Lemma wiped_turns : turns (wiped x y v s) = turns s.
Proof. unfold wiped. rewrite Hq. by destruct (is_piece q). Qed.

Lemma wiped_turn_thres : turn_thres (wiped x y v s) = turn_thres s.
Proof. unfold wiped. rewrite Hq. by destruct (is_piece q). Qed.

Lemma wiped_turn_step : turn_step (wiped x y v s) = turn_step s.
Proof. unfold wiped. rewrite Hq. by destruct (is_piece q). Qed.

Lemma wiped_board : board (wiped x y v s) = upd2 (board s) x y v.
Proof. unfold wiped. rewrite Hq. by destruct (is_piece q). Qed.

Lemma wiped_skel : skel (wiped x y v s) = upd2 (skel s) x y (classify v).
Proof. unfold skel. by rewrite wiped_board, fmap_upd2. Qed.

Lemma wiped_dims : dims s -> dims (wiped x y v s).
Proof.
  intros [H1 H2]. unfold dims. rewrite wiped_board. split.
  - by rewrite length_upd2.
  - by apply Forall_length_upd2.
Qed.

Lemma wiped_reg_shape : reg_shape s -> reg_shape (wiped x y v s).
Proof.
  intros (H1 & H2 & H3 & H4). unfold wiped. rewrite Hq.
  destruct (is_piece q); [|done]. unfold reg_shape. simpl.
  rewrite length_upd2, length_alter. repeat split; try done.
  by apply Forall_length_upd2.
Qed.

Lemma wiped_cell_eq : lk2 (board (wiped x y v s)) x y = Some v.
Proof. rewrite wiped_board. by apply (lk2_upd2_eq _ _ _ _ q). Qed.

Lemma wiped_cell_ne x' y' :
  (x, y) <> (x', y') ->
  lk2 (board (wiped x y v s)) x' y' = lk2 (board s) x' y'.
Proof.
  intros Hne. rewrite wiped_board.
  apply lk2_Some in Hq as (? & ? & _). by apply lk2_upd2_ne.
Qed.

Lemma wiped_reg_other p :
  is_piece q = false -> reg (wiped x y v s) p = reg s p.
Proof. intros Hp. unfold wiped. by rewrite Hq, Hp. Qed.

Lemma wiped_reg_eq :
  reg_shape s -> is_piece q = true -> reg (wiped x y v s) q = Some None.
Proof.
  intros Hsh Hp. destruct (reg_shape_lookup s q Hsh Hp) as [[e He] _].
  unfold wiped. rewrite Hq, Hp. unfold reg in *. simpl.
  by apply (lk2_upd2_eq _ _ _ _ e).
Qed.

Lemma wiped_reg_ne p :
  is_piece q = true -> is_piece p = true -> p <> q ->
  reg (wiped x y v s) p = reg s p.
Proof.
  intros Hp Hp' Hne. unfold wiped. rewrite Hq, Hp. unfold reg. simpl.
  pose proof (is_piece_side _ Hp) as [? ?].
  apply lk2_upd2_ne; [lia|lia|].
  intros [= H1 H2]. apply Hne. by apply piece_code_inj.
Qed.
End wiped.

Lemma upd2_row {A} (g : list (list A)) x y v i :
  upd2 g x y v !! i
  = if decide (i = Z.to_nat x) then (fun r => <[Z.to_nat y := v]> r) <$> g !! i
    else g !! i.
Proof.
  unfold upd2. destruct (g !! Z.to_nat x) as [row|] eqn:E.
  - destruct (decide (i = Z.to_nat x)) as [->|Hne].
    + rewrite list_lookup_insert_eq by (by apply lookup_lt_Some in E).
      by rewrite E.
    + by rewrite list_lookup_insert_ne.
  - destruct (decide (i = Z.to_nat x)) as [->|Hne]; [by rewrite E|done].
Qed.

Lemma count_some_insert (l : list (option (Z * Z))) (i : nat)
    (e0 e : option (Z * Z)) :
  l !! i = Some e0 ->
  count_some (<[i := e]> l)
  = count_some l - (if e0 is Some _ then 1 else 0)
    + (if e is Some _ then 1 else 0).
Proof.
  unfold count_some. revert i. induction l as [|a l IH]; intros i H; [done|].
  destruct i as [|i]; simpl in *.
  - injection H as ->. clear IH.
    destruct e0, e; simpl; rewrite ?Nat2Z.inj_succ; lia.
  - specialize (IH i H). unfold omap in *.
    destruct a; simpl in *; rewrite ?Nat2Z.inj_succ; lia.
Qed.

Lemma wiped_agree h s x y v q :
  reg_shape s -> agree_ex h s ->
  lk2 (board s) x y = Some q -> classify q <> Junk ->
  is_piece v = false -> off_hole h x y ->
  h = None \/ is_piece q = true ->
  agree_ex h (wiped x y v s).
Proof.
  intros Hsh [Hg Hr Hh Hn Hi Hc] Hq Hcl Hv Hoff Hcase.
  destruct (is_piece q) eqn:Hp.
  - (* a piece is taken off *)
    assert (reg s q = Some (Some (x, y))) as Hregq by (by apply Hg).
    assert (forall p, is_piece p = true -> p <> q ->
                      reg (wiped x y v s) p = reg s p) as Hne.
    { intros p Hp' Hpq. by apply (wiped_reg_ne s x y v q). }
    assert (reg (wiped x y v s) q = Some None) as Heq
      by (by apply wiped_reg_eq).
    split.
    + intros x' y' p Hl Hp' Hoff'.
      destruct (decide ((x, y) = (x', y'))) as [[= <- <-]|Hxy].
      { rewrite (wiped_cell_eq s x y v q Hq) in Hl.
        injection Hl as <-. congruence. }
      rewrite (wiped_cell_ne s x y v q Hq) in Hl by done.
      pose proof (Hg _ _ _ Hl Hp' Hoff') as Hrp.
      rewrite Hne; [done|done|]. intros ->. congruence.
    + intros p x' y' Hp' Hrp Hnh.
      destruct (decide (p = q)) as [->|Hpq]; [congruence|].
      rewrite Hne in Hrp by done.
      pose proof (Hr _ _ _ Hp' Hrp Hnh) as Hl.
      rewrite (wiped_cell_ne s x y v q Hq); [done|].
      intros [= <- <-]. congruence.
    + destruct h as [k|]; [|done]. simpl in *.
      destruct Hh as (Hh1 & Hh2 & Hh3 & Hh4).
      assert (hp k <> q) as Hkq.
      { intros Hkq. rewrite Hkq in Hh3.
        rewrite Hregq in Hh3. injection Hh3 as Hh3. rewrite <- Hh3 in Hh4.
        rewrite Hq in Hh4. injection Hh4 as ->. done. }
      repeat split.
      * by rewrite (wiped_cell_ne s x y v q Hq).
      * done.
      * by rewrite Hne.
      * destruct (he k) as [[sx sy]|]; [|done].
        rewrite (wiped_cell_ne s x y v q Hq); [done|].
        intros [= <- <-]. rewrite Hq in Hh4. injection Hh4 as ->. done.
    + intros t row Ht Hrow.
      pose proof (is_piece_side _ Hp) as [Hside Hidx].
      unfold wiped in *. rewrite Hq, Hp in *. simpl in *.
      rewrite upd2_row in Hrow. rewrite list_lookup_alter.
      destruct (decide (Z.to_nat t = Z.to_nat (q / 16))) as [E|E].
      * destruct (pieces s !! Z.to_nat t) as [row0|] eqn:Hrow0; [|done].
        injection Hrow as <-.
        rewrite decide_True by done. rewrite <- E.
        rewrite (Hn t row0 Ht Hrow0). simpl. f_equal.
        unfold reg in Hregq.
        apply lk2_Some in Hregq as (_ & _ & row1 & Hr1 & He1).
        rewrite <- E, Hrow0 in Hr1. injection Hr1 as <-.
        rewrite (count_some_insert _ _ _ _ He1). simpl. lia.
      * rewrite decide_False by done. by apply Hn.
    + intros p pos Hp' Hrp.
      destruct (decide (p = q)) as [->|Hpq]; [congruence|].
      rewrite Hne in Hrp by done. rewrite (wiped_count s x y v q Hq).
      by apply (Hi p pos).
    + rewrite (wiped_count s x y v q Hq). done.
  - (* the cell held no piece *)
    destruct Hcase as [->|?]; [|done].
    assert (forall p, reg (wiped x y v s) p = reg s p) as Hsame.
    { intros p. by apply (wiped_reg_other s x y v q). }
    split.
    + intros x' y' p Hl Hp' _.
      destruct (decide ((x, y) = (x', y'))) as [[= <- <-]|Hxy].
      { rewrite (wiped_cell_eq s x y v q Hq) in Hl.
        injection Hl as <-. congruence. }
      rewrite (wiped_cell_ne s x y v q Hq) in Hl by done.
      rewrite Hsame. by apply Hg.
    + intros p x' y' Hp' Hrp _. rewrite Hsame in Hrp.
      pose proof (Hr _ _ _ Hp' Hrp I) as Hl.
      rewrite (wiped_cell_ne s x y v q Hq); [done|].
      intros [= <- <-]. congruence.
    + done.
    + intros t row Ht Hrow. unfold wiped in *. rewrite Hq, Hp in *.
      simpl in *. by apply Hn.
    + intros p pos Hp' Hrp. rewrite Hsame in Hrp.
      rewrite (wiped_count s x y v q Hq). by apply (Hi p pos).
    + rewrite (wiped_count s x y v q Hq). done.
Qed.

(** ** The fixed shapes *)

Lemma shrink_skel_0 : shrink_skel 0 (expect 0) = Some (expect 1).
Proof. vm_compute. reflexivity. Qed.

Lemma shrink_skel_1 : shrink_skel 1 (expect 1) = Some (expect 3).
Proof. vm_compute. reflexivity. Qed.

Lemma shrink_skel_3 : shrink_skel 3 (expect 3) = Some (expect 7).
Proof. vm_compute. reflexivity. Qed.

Lemma safe_expect b : b ∈ [0; 1; 3; 7] -> safe_skel (expect b) b = true.
Proof.
  intros H. repeat (apply elem_of_cons in H as [->|H]); try by vm_compute.
  by apply elem_of_nil in H.
Qed.

Lemma init_skel : skel init = expect 0.
Proof. vm_compute. reflexivity. Qed.

(** ** The flank test and capture resolution *)

Lemma inboard_in_grid s x y :
  0 <= border s -> _inboard s x y = true -> in_grid x y.
Proof.
  unfold _inboard, inboard_at, in_grid. rewrite !andb_true_iff. lia.
Qed.

Lemma hostile_piece p q :
  is_piece p = true ->
  exists op, getitem oppo (p / 0x10) = Val op
             /\ hostile p q = existsb (Z.eqb (q / 0x10)) op.
Proof.
  intros [[H|H] _]%is_piece_side; unfold hostile; rewrite H; eauto.
Qed.

Lemma surrounded_flanked s x y dx dy :
  dims s -> 0 <= border s ->
  (_inboard s (x + dx) (y + dy) = true ->
   _inboard s (x - dx) (y - dy) = true ->
   exists p, lk2 (board s) x y = Some p /\ classify p = Free) ->
  _surrounded s x y dx dy = Val (flanked s x y dx dy).
Proof.
  intros Hd Hb Hsafe. unfold _surrounded, flanked.
  destruct (_inboard s (x + dx) (y + dy)) eqn:E1; [|done].
  destruct (_inboard s (x - dx) (y - dy)) eqn:E2; [|done]. simpl.
  destruct Hsafe as (p & Hp & Hc); [done|done|].
  destruct (dims_lk2 s _ _ Hd (inboard_in_grid _ _ _ Hb E1)) as [p1 Hp1].
  destruct (dims_lk2 s _ _ Hd (inboard_in_grid _ _ _ Hb E2)) as [p2 Hp2].
  unfold cell. rewrite (getitem2_lk2 _ _ _ _ Hp). simpl.
  rewrite Hp, Hp1, Hp2.
  apply classify_Free in Hc as [->|Hpc]; [done|].
  destruct (p =? 32) eqn:E; [apply is_piece_spec in Hpc; lia|].
  rewrite (getitem2_lk2 _ _ _ _ Hp1), (getitem2_lk2 _ _ _ _ Hp2). simpl.
  destruct (hostile_piece p p1 Hpc) as (op & Hop & ->).
  destruct (hostile_piece p p2 Hpc) as (op' & Hop' & ->).
  rewrite Hop in Hop'. injection Hop' as <-.
  rewrite Hop, Hpc. done.
Qed.

Lemma flanked_piece s x y dx dy :
  flanked s x y dx dy = true ->
  exists p, lk2 (board s) x y = Some p /\ is_piece p = true.
Proof.
  unfold flanked. intros [_ H]%andb_true_iff.
  destruct (lk2 (board s) x y) as [p|]; [|done].
  destruct (lk2 (board s) (x + dx) (y + dy)); [|done].
  destruct (lk2 (board s) (x - dx) (y - dy)); [|done].
  apply andb_true_iff in H as [H _]. eauto.
Qed.

Lemma elim_dir_exec s x y dx dy :
  dims s -> reg_shape s -> 0 <= border s ->
  (_inboard s (x + dx + dx) (y + dy + dy) = true ->
   _inboard s (x + dx - dx) (y + dy - dy) = true ->
   exists p, lk2 (board s) (x + dx) (y + dy) = Some p /\ classify p = Free) ->
  elim_dir x y (dx, dy) s
  = Ok tt (if flanked s (x + dx) (y + dy) dx dy
           then wiped (x + dx) (y + dy) 0x20 s else s).
Proof.
  intros Hd Hsh Hb Hsafe. unfold elim_dir.
  erewrite bind_Ok; [|apply read_Val; by apply surrounded_flanked].
  destruct (flanked s (x + dx) (y + dy) dx dy) eqn:E; [|done].
  destruct (flanked_piece _ _ _ _ _ E) as (p & Hp & Hpc).
  apply (wipe_exec _ _ _ _ p); [done|done|].
  by rewrite classify_piece.
Qed.

Lemma for_inv {A} (I : Board -> Prop) (l : list A) (body : A -> M unit) s :
  (forall a s, a ∈ l -> I s -> exists s', body a s = Ok tt s' /\ I s') ->
  I s -> exists s', for_ l body s = Ok tt s' /\ I s'.
Proof.
  revert s. induction l as [|a l IH]; intros s Hbody Hs.
  - by exists s.
  - destruct (Hbody a s) as (s1 & H1 & Hs1); [left|done|].
    destruct (IH s1) as (s2 & H2 & Hs2); [|done|].
    { intros a' s' Ha'. apply Hbody. by right. }
    exists s2. split; [|done]. simpl. by rewrite (bind_Ok _ _ _ _ _ H1).
Qed.

Lemma site_safe_dir K b x y dx dy :
  site_safe K b x y = true -> (dx, dy) ∈ dirs ->
  inboard_at b (x + dx + dx) (y + dy + dy) = true ->
  inboard_at b (x + dx - dx) (y + dy - dy) = true ->
  lk2 K (x + dx) (y + dy) = Some Free.
Proof.
  unfold site_safe. rewrite forallb_forall. intros H Hd H1 H2.
  apply list_elem_of_In in Hd. specialize (H (dx, dy) Hd). cbv beta iota in H.
  rewrite H1, H2 in H. simpl in H.
  by apply bool_decide_eq_true_1 in H.
Qed.

(** [_elim] keeps whatever the removal of a flanked neighbour keeps. *)
Lemma elim_inv (I : Board -> Prop) K b x y s :
  site_safe K b x y = true -> 0 <= b ->
  (forall s, I s -> dims s /\ reg_shape s /\ skel s = K /\ border s = b) ->
  (forall s dx dy,
      I s -> (dx, dy) ∈ dirs ->
      flanked s (x + dx) (y + dy) dx dy = true ->
      I (wiped (x + dx) (y + dy) 0x20 s)) ->
  I s -> exists s', _elim x y s = Ok tt s' /\ I s'.
Proof.
  intros Hsafe Hb Hfacts Hstep Hs. unfold _elim.
  apply for_inv; [|done].
  intros [dx dy] s1 Hd Hs1.
  destruct (Hfacts s1 Hs1) as (Hdims & Hsh & Hsk & Hbd).
  rewrite elim_dir_exec; [| done | done | lia |].
  - destruct (flanked s1 (x + dx) (y + dy) dx dy) eqn:E; eauto.
  - intros H1 H2. unfold _inboard in H1, H2. rewrite Hbd in H1, H2.
    pose proof (site_safe_dir K b x y dx dy Hsafe Hd H1 H2) as Hl.
    rewrite <- Hsk in Hl. unfold skel in Hl. rewrite lk2_fmap in Hl.
    destruct (lk2 (board s1) (x + dx) (y + dy)) as [p|]; [|done].
    injection Hl as Hl. eauto.
Qed.

Lemma mid_wiped K h s0 s x y v q :
  mid K h s0 s ->
  lk2 (board s) x y = Some q -> classify q <> Junk ->
  is_piece v = false -> off_hole h x y ->
  h = None \/ is_piece q = true ->
  mid (upd2 K x y (classify v)) h s0 (wiped x y v s).
Proof.
  intros [H1 H2 H3 H4 H5 H6 H7 H8 H9] Hq Hc Hv Hoff Hcase. split.
  - by rewrite (wiped_skel s x y v q Hq), H1.
  - by apply (wiped_dims s x y v q).
  - by apply (wiped_reg_shape s x y v q).
  - by apply (wiped_agree h s x y v q).
  - by rewrite (wiped_border s x y v q).
  - by rewrite (wiped_count s x y v q).
  - by rewrite (wiped_turns s x y v q).
  - by rewrite (wiped_turn_thres s x y v q).
  - by rewrite (wiped_turn_step s x y v q).
Qed.

Lemma mid_capture K h s0 s x y :
  mid K h s0 s ->
  (exists p, lk2 (board s) x y = Some p /\ is_piece p = true) ->
  off_hole h x y ->
  mid K h s0 (wiped x y 0x20 s).
Proof.
  intros Hm (p & Hp & Hpc) Hoff.
  assert (upd2 K x y (classify 0x20) = K) as <-.
  { apply upd2_id. rewrite <- (mid_skel _ _ _ _ Hm). unfold skel.
    rewrite lk2_fmap, Hp. simpl. by rewrite classify_piece. }
  apply (mid_wiped K h s0 s x y 0x20 p); try done.
  - by rewrite classify_piece.
  - by right.
Qed.

Lemma dirs_nonzero dx dy : (dx, dy) ∈ dirs -> (dx, dy) <> (0, 0).
Proof.
  intros H. repeat (apply elem_of_cons in H as [[= -> ->]|H]); try done.
  by apply elem_of_nil in H.
Qed.

(** Capture resolution around the piece being played. *)
Lemma elim_mid K s0 s k :
  site_safe K (border s0) (hx k) (hy k) = true -> 0 <= border s0 ->
  mid K (Some k) s0 s ->
  exists s', _elim (hx k) (hy k) s = Ok tt s' /\ mid K (Some k) s0 s'.
Proof.
  intros Hsafe Hb Hm.
  apply (elim_inv (mid K (Some k) s0) K (border s0)); try done.
  - intros s1 H1. destruct H1. done.
  - intros s1 dx dy H1 Hd Hf. apply mid_capture; [done| |].
    + by apply (flanked_piece _ _ _ dx dy).
    + simpl. intros [= H2 H3]. apply (dirs_nonzero dx dy Hd). f_equal; lia.
Qed.

(** Capture resolution around a square that holds no record. *)
Lemma elim_mid_none K s0 s x y :
  site_safe K (border s0) x y = true -> 0 <= border s0 ->
  mid K None s0 s ->
  exists s', _elim x y s = Ok tt s' /\ mid K None s0 s'.
Proof.
  intros Hsafe Hb Hm.
  apply (elim_inv (mid K None s0) K (border s0)); try done.
  - intros s1 H1. destruct H1. done.
  - intros s1 dx dy H1 Hd Hf. apply mid_capture; [done| |done].
    by apply (flanked_piece _ _ _ dx dy).
Qed.

Lemma agree_ext h s s' :
  board s' = board s -> pieces s' = pieces s ->
  num_pieces s' = num_pieces s -> count s' = count s ->
  agree_ex h s -> agree_ex h s'.
Proof.
  intros Hb Hp Hn Hc [H1 H2 H3 H4 H5 H6].
  split; unfold reg, hole_ok in *; rewrite ?Hb, ?Hp, ?Hn, ?Hc; try done.
  destruct h as [k|]; [|done]. unfold reg in *. by rewrite Hp.
Qed.

(** ** The shrink transition *)

Lemma for_sim {A K} (R : K -> Board -> Prop) (l : list A)
    (body : A -> M unit) (abody : A -> K -> option K) k k' s :
  (forall a k s k', a ∈ l -> R k s -> abody a k = Some k' ->
                    exists s', body a s = Ok tt s' /\ R k' s') ->
  R k s -> afold abody l k = Some k' ->
  exists s', for_ l body s = Ok tt s' /\ R k' s'.
Proof.
  revert k s. induction l as [|a l IH]; intros k s Hbody Hs Hf; simpl in *.
  - injection Hf as <-. by exists s.
  - destruct (abody a k) as [k1|] eqn:E; [|done].
    destruct (Hbody a k s k1) as (s1 & H1 & Hs1); [left|done|done|].
    destruct (IH k1 s1) as (s2 & H2 & Hs2); [|done|done|].
    { intros a' k0 s' k0' Ha'. apply Hbody. by right. }
    exists s2. split; [|done]. by rewrite (bind_Ok _ _ _ _ _ H1).
Qed.

Lemma awipe_sim K K' s0 s v c :
  is_piece v = false -> mid K None s0 s -> awipe v c K = Some K' ->
  exists s', wipe c.1 c.2 v s = Ok tt s' /\ mid K' None s0 s'.
Proof.
  intros Hv Hm Ha. unfold awipe in Ha.
  destruct (lk2 K c.1 c.2) as [k|] eqn:Hk; [|done].
  destruct (decide (k = Junk)) as [|Hnj]; [done|]. injection Ha as <-.
  rewrite <- (mid_skel _ _ _ _ Hm) in Hk. unfold skel in Hk.
  rewrite lk2_fmap in Hk.
  destruct (lk2 (board s) c.1 c.2) as [q|] eqn:Hq; [|done].
  injection Hk as Hk. exists (wiped c.1 c.2 v s). split.
  - apply (wipe_exec _ _ _ _ q); [by destruct Hm|done|congruence].
  - apply (mid_wiped K None s0 s _ _ v q); try done; [congruence|by left].
Qed.

Lemma ablock_sim K K' s0 s c :
  0 <= border s0 ->
  mid K None s0 s -> ablock (border s0) c K = Some K' ->
  exists s', block_cell c s = Ok tt s' /\ mid K' None s0 s'.
Proof.
  intros Hb Hm Ha. unfold ablock in Ha.
  destruct (awipe 48 c K) as [K1|] eqn:E; [|done].
  destruct (site_safe K1 (border s0) c.1 c.2) eqn:Hs; [|done].
  injection Ha as <-.
  destruct (awipe_sim K K1 s0 s 48 c) as (s1 & H1 & Hm1); [done|done|done|].
  destruct (elim_mid_none K1 s0 s1 c.1 c.2) as (s2 & H2 & Hm2); [done|done|done|].
  exists s2. split; [|done]. destruct c as [x y]. unfold block_cell.
  by rewrite (bind_Ok _ _ _ _ _ H1).
Qed.

Lemma shrink_sim s K' :
  dims s -> reg_shape s -> agree s -> 0 <= border s ->
  shrink_skel (border s) (skel s) = Some K' ->
  exists s',
    _shrink s = Ok tt s'
    /\ skel s' = K' /\ dims s' /\ reg_shape s' /\ agree s'
    /\ border s' = border s + (border s + 1)
    /\ count s' = count s /\ turns s' = turns s
    /\ turn_thres s' = turn_thres s + turn_step s
    /\ turn_step s' = turn_step s / 2.
Proof.
  intros Hd Hsh Hag Hb Hsk. unfold shrink_skel in Hsk.
  destruct (afold _ (range (border s) (7 - border s)) (skel s))
    as [K1|] eqn:E1; [|done].
  destruct (last (range (border s) (7 - border s))) as [i|] eqn:El; [|done].
  assert (mid (skel s) None s s) as Hm by (by split).
  destruct (for_sim (fun K s1 => mid K None s s1)
              (range (border s) (7 - border s))
              (fun i => for_ (ring_cells (border s) i) remove_cell)
              (fun i => afold (awipe 64) (ring_cells (border s) i))
              (skel s) K1 s) as (s1 & H1 & Hm1); [|done|done|].
  { intros j K0 s0 K0' _ Hm0 Hf.
    apply (for_sim (fun K s1 => mid K None s s1) _ _ (awipe 64) K0 K0');
      [|done|done].
    intros [x y] K2 s2 K2' _ Hm2 Hw. by apply (awipe_sim K2 K2' s s2 64 (x, y)). }
  destruct (for_sim (fun K s1 => mid K None s s1)
              (ring_cells (border s + 1) i) block_cell (ablock (border s))
              K1 K' s1) as (s2 & H2 & Hm2); [|done|done|].
  { intros c K0 s0 K0' _ Hm0 Hf. by apply (ablock_sim K0 K0' s s0 c). }
  destruct Hm2 as [M1 M2 M3 M4 M5 M6 M7 M8 M9].
  eexists. split.
  - unfold _shrink. erewrite bind_Ok; [|by apply read_Val].
    rewrite (bind_Ok _ _ _ _ _ H1). rewrite El.
    rewrite (bind_Ok _ _ _ _ _ H2).
    unfold update at 1. simpl. unfold bind at 1. simpl.
    unfold update at 1. simpl. unfold bind at 1. simpl.
    unfold update. simpl. reflexivity.
  - simpl. split; [done|]. split; [done|]. split; [done|].
    split; [by apply (agree_ext None s2)|].
    repeat split; congruence.
Qed.

(** ** Closing an operation: the piece played is recorded or taken off *)

Lemma agree_close k s e' g' :
  reg_shape s -> agree_ex (Some k) s ->
  (g' = board s /\ e' = Some (hx k, hy k))
  \/ (g' = upd2 (board s) (hx k) (hy k) 0x20 /\ e' = None) ->
  (e' <> None ->
   exists c, count s !! Z.to_nat (hp k / 0x10) = Some c /\ hp k mod 0x10 < c) ->
  agree (closed k g' e' s).
Proof.
  intros Hsh [Hg Hr Hh Hn Hi Hc] Hcase Hid. simpl in Hh.
  destruct Hh as (Hh1 & Hh2 & Hh3 & Hh4).
  pose proof (is_piece_side _ Hh2) as [Hside Hidx].
  assert (reg (closed k g' e' s) (hp k) = Some e') as Heq.
  { unfold reg, closed. simpl. unfold reg in Hh3.
    by apply (lk2_upd2_eq _ _ _ _ (he k)). }
  assert (forall p, is_piece p = true -> p <> hp k ->
                    reg (closed k g' e' s) p = reg s p) as Hne.
  { intros p Hp Hpk. unfold reg, closed. simpl.
    apply lk2_upd2_ne; [lia|lia|].
    intros [= H1 H2]. apply Hpk. by apply piece_code_inj. }
  assert (forall x y p, lk2 (board s) x y = Some p -> is_piece p = true ->
                        (x, y) <> (hx k, hy k) -> p <> hp k) as Hfresh.
  { intros x y p Hl Hp Hxy ->.
    pose proof (Hg x y (hp k) Hl Hp Hxy) as Hrp. rewrite Hh3 in Hrp.
    injection Hrp as Hrp. rewrite Hrp in Hh4. rewrite Hl in Hh4.
    injection Hh4 as Hh4. rewrite Hh4 in Hh2. by vm_compute in Hh2. }
  assert (forall x y, (x, y) <> (hx k, hy k) -> lk2 g' x y = lk2 (board s) x y)
    as Hsame.
  { intros x y Hxy. destruct Hcase as [[-> _]|[-> _]]; [done|].
    apply lk2_Some in Hh1 as (? & ? & _). by apply lk2_upd2_ne. }
  split.
  - intros x y p Hl Hp _. change (board (closed k g' e' s)) with g' in Hl.
    destruct (decide ((x, y) = (hx k, hy k))) as [[= -> ->]|Hxy].
    + destruct Hcase as [[-> ->]|[-> ->]].
      * rewrite Hh1 in Hl. injection Hl as <-. done.
      * rewrite (lk2_upd2_eq _ _ _ _ _ Hh1) in Hl. injection Hl as <-. done.
    + rewrite Hsame in Hl by done.
      rewrite Hne; [by apply Hg|done|by apply (Hfresh x y)].
  - intros p x y Hp Hrp _. change (board (closed k g' e' s)) with g'.
    destruct (decide (p = hp k)) as [->|Hpk].
    + rewrite Heq in Hrp. injection Hrp as ->.
      destruct Hcase as [[-> [= -> ->]]|[_ ?]]; done.
    + rewrite Hne in Hrp by done.
      pose proof (Hr p x y Hp Hrp Hpk) as Hl.
      rewrite Hsame; [done|]. intros [= -> ->]. congruence.
  - done.
  - intros t row Ht Hrow. unfold closed in *. simpl in *.
    rewrite upd2_row in Hrow. rewrite list_lookup_alter.
    destruct (decide (Z.to_nat t = Z.to_nat (hp k / 16))) as [E|E].
    + destruct (pieces s !! Z.to_nat t) as [row0|] eqn:Hrow0; [|done].
      injection Hrow as <-. rewrite decide_True by done. rewrite <- E.
      rewrite (Hn t row0 Ht Hrow0). simpl. f_equal.
      unfold reg in Hh3. apply lk2_Some in Hh3 as (_ & _ & row1 & Hr1 & He1).
      rewrite <- E, Hrow0 in Hr1. injection Hr1 as <-.
      rewrite (count_some_insert _ _ _ _ He1). unfold b2z.
      destruct e', (he k); lia.
    + rewrite decide_False by done. by apply Hn.
  - intros p pos Hp Hrp. change (count (closed k g' e' s)) with (count s).
    destruct (decide (p = hp k)) as [->|Hpk].
    + apply Hid. rewrite Heq in Hrp. by injection Hrp as ->.
    + rewrite Hne in Hrp by done. by apply (Hi p pos).
  - done.
Qed.

(** ** Enumerations *)

Lemma elem_of_range x a b : x ∈ range a b <-> a <= x < b.
Proof.
  unfold range. rewrite list_elem_of_fmap. split.
  - intros (k & -> & Hk). apply elem_of_seq in Hk. lia.
  - intros H. exists (Z.to_nat (x - a)). split; [lia|].
    apply elem_of_seq. lia.
Qed.

Lemma elem_of_product x y l1 l2 :
  (x, y) ∈ product l1 l2 <-> x ∈ l1 /\ y ∈ l2.
Proof.
  unfold product. rewrite list_elem_of_bind. split.
  - intros (x' & H & Hx'). apply list_elem_of_fmap in H as (y' & [= -> ->] & Hy').
    done.
  - intros [Hx Hy]. exists x. split; [|done].
    apply list_elem_of_fmap. by exists y.
Qed.

Lemma efilter_elem {A} (f : A -> Exc bool) l r a :
  efilter f l = Val r -> a ∈ r -> a ∈ l /\ f a = Val true.
Proof.
  revert r. induction l as [|b l IH]; intros r H Ha; simpl in H.
  - injection H as <-. by apply elem_of_nil in Ha.
  - destruct (f b) as [keep|] eqn:E; [|done]. simpl in H.
    destruct (efilter f l) as [r'|]; [|done]. simpl in H. injection H as <-.
    destruct keep.
    + apply elem_of_cons in Ha as [->|Ha]; [split; [left|done]|].
      destruct (IH r' eq_refl Ha). split; [by right|done].
    + destruct (IH r' eq_refl Ha). split; [by right|done].
Qed.

Lemma emap_elem {A B} (f : A -> Exc B) l r b :
  emap f l = Val r -> b ∈ r -> exists a, a ∈ l /\ f a = Val b.
Proof.
  revert r. induction l as [|a l IH]; intros r H Hb; simpl in H.
  - injection H as <-. by apply elem_of_nil in Hb.
  - destruct (f a) as [b'|] eqn:E; [|done]. simpl in H.
    destruct (emap f l) as [r'|]; [|done]. simpl in H. injection H as <-.
    apply elem_of_cons in Hb as [->|Hb].
    + exists a. split; [left|done].
    + destruct (IH r' eq_refl Hb) as (a' & Ha' & Hf). exists a'.
      split; [by right|done].
Qed.

Lemma cell_lk2 s x y v :
  0 <= x -> 0 <= y -> cell s x y = Val v -> lk2 (board s) x y = Some v.
Proof.
  intros Hx Hy. unfold cell. rewrite getitem2_nonneg by done.
  destruct (lk2 (board s) x y); [|done]. by intros [= ->].
Qed.

Lemma valid_place_elem s type l x y :
  valid_place s type = Val l -> (x, y) ∈ l ->
  in_grid x y /\ lk2 (board s) x y = Some 0x20
  /\ if type =? 0 then 0 <= x < 6 else 2 <= x < 8.
Proof.
  unfold valid_place. intros H Hin.
  destruct (efilter_elem _ _ _ _ H Hin) as [Hp Hc].
  apply elem_of_product in Hp as [Hx Hy].
  apply elem_of_range in Hy.
  assert (0 <= x < 8 /\ if type =? 0 then 0 <= x < 6 else 2 <= x < 8) as [Hx8 Hz].
  { destruct (type =? 0); apply elem_of_range in Hx; lia. }
  split; [done|]. split; [|done]. simpl in Hc.
  destruct (cell s x y) as [c|] eqn:E; [|done]. simpl in Hc.
  injection Hc as Hc. apply Z.eqb_eq in Hc as ->.
  apply cell_lk2; [lia|lia|done].
Qed.

Lemma valid_place_op s x y type :
  valid_op s (Place x y type) = true ->
  (type = 0 \/ type = 1)
  /\ (exists c, count s !! Z.to_nat type = Some c /\ c < 12)
  /\ in_grid x y /\ lk2 (board s) x y = Some 0x20
  /\ if type =? 0 then 0 <= x < 6 else 2 <= x < 8.
Proof.
  simpl. rewrite !andb_true_iff. intros [[Ht Hc] Hv].
  apply bool_decide_eq_true_1 in Ht.
  assert (type = 0 \/ type = 1) as Ht'.
  { repeat (apply elem_of_cons in Ht as [->|Ht]); [by left|by right|].
    by apply elem_of_nil in Ht. }
  split; [done|]. split.
  - rewrite getitem_nonneg in Hc by lia.
    destruct (count s !! Z.to_nat type) as [c|]; [|done].
    exists c. split; [done|lia].
  - destruct (valid_place s type) as [l|] eqn:E; [|done].
    apply bool_decide_eq_true_1 in Hv.
    by apply (valid_place_elem s type l).
Qed.

(** ** [place] *)

Lemma piece_code t c :
  t = 0 \/ t = 1 -> 0 <= c < 12 ->
  is_piece (t * 0x10 + c) = true
  /\ (t * 0x10 + c) / 0x10 = t /\ (t * 0x10 + c) mod 0x10 = c.
Proof.
  intros Ht Hc.
  assert ((t * 16 + c) / 16 = t) as H1.
  { rewrite Z.add_comm, Z.div_add by lia. rewrite Z.div_small; lia. }
  assert ((t * 16 + c) mod 16 = c) as H2.
  { rewrite Z.add_comm, Z.mod_add by lia. apply Z.mod_small. lia. }
  split; [|done]. apply is_piece_spec. lia.
Qed.

Lemma skel_Free_upd s x y q p :
  lk2 (board s) x y = Some q -> classify q = Free -> classify p = Free ->
  fmap (M:=list) (fmap (M:=list) classify) (upd2 (board s) x y p) = skel s.
Proof.
  intros Hq Hcq Hcp. unfold skel. rewrite fmap_upd2. apply upd2_id.
  rewrite lk2_fmap, Hq. simpl. congruence.
Qed.

Lemma dims_upd2 s x y p g :
  dims s -> g = upd2 (board s) x y p ->
  length g = 8%nat /\ Forall (fun r => length r = 8%nat) g.
Proof.
  intros [H1 H2] ->. split; [by rewrite length_upd2|by apply Forall_length_upd2].
Qed.

Lemma hostile_sides q p :
  is_piece q = true -> is_piece p = true -> hostile q p = true ->
  p / 0x10 <> q / 0x10.
Proof.
  intros [Hq _]%is_piece_side [Hp _]%is_piece_side. unfold hostile.
  destruct Hq as [-> | ->], Hp as [-> | ->]; simpl; done.
Qed.

Lemma hostile_to_hostile a s x y p :
  is_piece p = true -> p / 0x10 = a -> hostile_to a s x y = true ->
  exists v, lk2 (board s) x y = Some v /\ hostile p v = true.
Proof.
  intros Hp Ha. unfold hostile_to.
  destruct (lk2 (board s) x y) as [v|]; [|done]. intros H. exists v.
  split; [done|]. destruct (hostile_piece p v Hp) as (op & Hop & ->).
  apply is_piece_side in Hp as [Hside _].
  apply orb_true_iff in H as [H|H].
  - apply Z.eqb_eq in H as ->.
    destruct Hside as [E|E]; rewrite E in Hop; injection Hop as <-; done.
  - apply andb_true_iff in H as [Hv H]. apply Z.eqb_eq in H.
    rewrite H, <- Ha.
    destruct Hside as [E|E]; rewrite E in *; injection Hop as <-; done.
Qed.

(** [_elim] around a piece of side [a] takes pieces of the other side
    only. *)
Lemma elim_keeps_side K s0 s k :
  site_safe K (border s0) (hx k) (hy k) = true -> 0 <= border s0 ->
  mid K (Some k) s0 s ->
  exists s',
    _elim (hx k) (hy k) s = Ok tt s' /\ mid K (Some k) s0 s'
    /\ pieces s' !! Z.to_nat (hp k / 0x10) = pieces s !! Z.to_nat (hp k / 0x10)
    /\ num_pieces s' !! Z.to_nat (hp k / 0x10)
       = num_pieces s !! Z.to_nat (hp k / 0x10).
Proof.
  intros Hsafe Hb Hm.
  destruct (elim_inv
              (fun s1 => mid K (Some k) s0 s1
                 /\ pieces s1 !! Z.to_nat (hp k / 16)
                    = pieces s !! Z.to_nat (hp k / 16)
                 /\ num_pieces s1 !! Z.to_nat (hp k / 16)
                    = num_pieces s !! Z.to_nat (hp k / 16))
              K (border s0) (hx k) (hy k) s) as (s' & He & Hm' & H1 & H2);
    try done.
  - intros s1 (H1 & _). destruct H1. done.
  - intros s1 dx dy (Hm1 & P1 & P2) Hd Hf.
    assert ((hx k + dx, hy k + dy) <> (hx k, hy k)) as Hoff.
    { intros [= H2 H3]. apply (dirs_nonzero dx dy Hd). f_equal; lia. }
    split.
    { apply mid_capture; [done| |done]. by apply (flanked_piece _ _ _ dx dy). }
    pose proof (ag_hole _ _ (mid_agree _ _ _ _ Hm1)) as (Hh1 & Hh2 & _).
    simpl in Hh1, Hh2.
    unfold flanked in Hf. apply andb_true_iff in Hf as [_ Hf].
    destruct (lk2 (board s1) (hx k + dx) (hy k + dy)) as [q|] eqn:Hq; [|done].
    destruct (lk2 (board s1) (hx k + dx + dx) (hy k + dy + dy)); [|done].
    rewrite !Z.add_simpl_r, Hh1 in Hf.
    apply andb_true_iff in Hf as [Hqp Hf]. apply andb_true_iff in Hf as [_ Hf].
    pose proof (hostile_sides q (hp k) Hqp Hh2 Hf) as Hne.
    pose proof (is_piece_side _ Hqp) as [Hqs _].
    pose proof (is_piece_side _ Hh2) as [Hps _].
    assert (Z.to_nat (hp k / 16) <> Z.to_nat (q / 16)) as Hne' by lia.
    unfold wiped. rewrite Hq, Hqp. simpl.
    rewrite upd2_row, decide_False by done.
    rewrite list_lookup_alter_ne by done. done.
  - exists s'. done.
Qed.

Lemma place_piece_exec K s x y t c :
  skel s = K -> dims s -> reg_shape s -> agree s -> 0 <= border s ->
  site_safe K (border s) x y = true ->
  t = 0 \/ t = 1 -> count s !! Z.to_nat t = Some c -> c < 12 ->
  lk2 (board s) x y = Some 0x20 ->
  exists s1,
    place_piece x y t s = Ok (t * 0x10 + c) s1
    /\ mid K (Some (mkHole x y (t * 0x10 + c) None))
           (set_count (<[Z.to_nat t := c + 1]> (count s)) s) s1
    /\ pieces s1 !! Z.to_nat t = pieces s !! Z.to_nat t
    /\ num_pieces s1 !! Z.to_nat t = num_pieces s !! Z.to_nat t.
Proof.
  intros Hsk Hd Hsh Hag Hb Hsafe Ht Hc Hc12 Hxy.
  pose proof (ag_count _ _ Hag _ _ Hc) as Hc0.
  destruct (piece_code t c Ht) as (Hp & Hdiv & Hmod); [lia|].
  set (p := t * 16 + c) in *.
  set (s0 := set_count (<[Z.to_nat t := c + 1]> (count s)) s).
  set (sb := set_board (upd2 (board s) x y p) s0).
  assert (forall p', reg sb p' = reg s p') as Hreg by done.
  assert (mid K (Some (mkHole x y p None)) s0 sb) as Hm.
  { destruct Hag as [Hg Hr _ Hn Hi Hcn]. split; try done.
    - rewrite <- Hsk. apply (skel_Free_upd s x y 32 p); [done|done|].
      by apply classify_piece.
    - by apply (dims_upd2 s x y p).
    - destruct Hsh as (S1 & S2 & S3 & S4). repeat split; try done.
      simpl. by rewrite length_insert.
    - split.
      + intros x' y' p' Hl Hp' Hoff. simpl in Hoff, Hl.
        rewrite lk2_upd2_ne in Hl; [|by apply lk2_Some in Hxy as (? & ? & _)
                                    |by apply lk2_Some in Hxy as (? & ? & _)
                                    |done].
        rewrite Hreg. by apply Hg.
      + intros p' x' y' Hp' Hrp Hne. rewrite Hreg in Hrp.
        pose proof (Hr p' x' y' Hp' Hrp I) as Hl. simpl.
        rewrite lk2_upd2_ne; [done
                             |by apply lk2_Some in Hxy as (? & ? & _)
                             |by apply lk2_Some in Hxy as (? & ? & _)|].
        intros [= <- <-]. rewrite Hxy in Hl. injection Hl as <-.
        by vm_compute in Hp'.
      + simpl. split; [by apply (lk2_upd2_eq _ _ _ _ 32)|]. split; [done|].
        split; [|done]. rewrite Hreg.
        destruct (reg_shape_lookup s p Hsh Hp) as [[e He] _].
        destruct e as [pos|]; [|done].
        destruct (Hi p pos Hp He) as (c' & Hc' & Hlt).
        rewrite Hdiv, Hc in Hc'. injection Hc' as <-. lia.
      + done.
      + intros p' pos Hp' Hrp. rewrite Hreg in Hrp.
        destruct (Hi p' pos Hp' Hrp) as (c' & Hc' & Hlt). simpl.
        destruct (decide (Z.to_nat t = Z.to_nat (p' / 16))) as [E|E].
        * rewrite <- E. rewrite list_lookup_insert_eq
            by (by apply lookup_lt_Some in Hc).
          exists (c + 1). split; [done|]. rewrite <- E, Hc in Hc'.
          injection Hc' as <-. lia.
        * rewrite list_lookup_insert_ne by done. eauto.
      + intros t0 c0. simpl.
        destruct (decide (Z.to_nat t = t0)) as [<-|E].
        * rewrite list_lookup_insert_eq by (by apply lookup_lt_Some in Hc).
          intros [= <-]. lia.
        * rewrite list_lookup_insert_ne by done. apply Hcn. }
  destruct (elim_keeps_side K s0 sb (mkHole x y p None))
    as (s1 & H1 & Hm1 & Hk1 & Hk2); [done|done|done|].
  simpl in Hk1, Hk2. rewrite Hdiv in Hk1, Hk2.
  exists s1. split; [|done]. unfold place_piece.
  erewrite bind_Ok; [|apply read_Val; apply getitem_Val; [lia|done]].
  erewrite bind_Ok; cycle 1.
  { apply update_Val. rewrite (getitem_Val _ _ c) by (lia || done). simpl.
    rewrite (setitem_nonneg _ _ _ c) by (lia || done). simpl. reflexivity. }
  erewrite bind_Ok; cycle 1.
  { apply update_Val. unfold store_cell. simpl.
    rewrite (setitem2_lk2 _ _ _ _ _ Hxy). simpl. reflexivity. }
  simpl in H1. unfold sb, s0, set_board, set_count in H1. simpl in H1.
  unfold set_board, set_count. simpl.
  by rewrite (bind_Ok _ _ _ _ _ H1).
Qed.

Lemma self_surrounded_exec s x y p :
  dims s -> 0 <= border s ->
  lk2 (board s) x y = Some p -> is_piece p = true ->
  self_surrounded s x y = Val (flanked s x y 1 0 || flanked s x y 0 1).
Proof.
  intros Hd Hb Hp Hpc. unfold self_surrounded.
  assert (exists q, lk2 (board s) x y = Some q /\ classify q = Free) as Hq.
  { exists p. split; [done|]. by apply classify_piece. }
  rewrite !surrounded_flanked by done. simpl.
  by destruct (flanked s x y 1 0).
Qed.

Lemma add_rec_exec s p pos :
  reg_shape s -> is_piece p = true ->
  _add_rec p pos s
  = Ok tt {| board := board s;
             border := border s;
             count := count s;
             num_pieces :=
               alter (fun n => n + 1) (Z.to_nat (p / 0x10)) (num_pieces s);
             pieces := upd2 (pieces s) (p / 0x10) (p mod 0x10) (Some pos);
             turn_step := turn_step s;
             turn_thres := turn_thres s;
             turns := turns s |}.
Proof.
  intros Hsh Hp. destruct (reg_shape_lookup s p Hsh Hp) as [[e He] [n Hn]].
  pose proof (is_piece_side _ Hp) as [Hs Hi].
  unfold _add_rec.
  erewrite bind_Ok; cycle 1.
  { apply update_Val. unfold store_rec. unfold reg in He.
    rewrite (setitem2_lk2 _ _ _ _ _ He). simpl. reflexivity. }
  apply update_Val. unfold add_num, set_pieces. simpl.
  rewrite (getitem_Val _ _ n) by (done || lia). simpl.
  rewrite (setitem_nonneg _ _ _ n) by (done || lia). simpl.
  unfold set_num_pieces. simpl. do 2 f_equal.
  apply list_eq. intros i. rewrite list_lookup_alter.
  destruct (decide (Z.to_nat (p / 16) = i)) as [<-|Hne].
  - rewrite list_lookup_insert_eq by (by apply lookup_lt_Some in Hn). by rewrite Hn.
  - by rewrite list_lookup_insert_ne.
Qed.

Lemma closed_shape k g e s :
  reg_shape s -> reg_shape (closed k g e s).
Proof.
  intros (H1 & H2 & H3 & H4). unfold reg_shape, closed. simpl.
  rewrite length_upd2, length_alter. repeat split; try done.
  by apply Forall_length_upd2.
Qed.

(** The two ways [place] ends, from the state [s1] after [_elim]. *)
Lemma place_finish K s0 s s1 x y type p :
  place_piece x y type s = Ok p s1 ->
  mid K (Some (mkHole x y p None)) s0 s1 -> 0 <= border s0 ->
  (exists c, count s0 !! Z.to_nat (p / 0x10) = Some c /\ p mod 0x10 < c) ->
  exists s',
    place x y type s = Ok tt s'
    /\ mid K None s0 s'
    /\ s' = if flanked s1 x y 1 0 || flanked s1 x y 0 1
            then set_board (upd2 (board s1) x y 0x20) s1
            else closed (mkHole x y p None) (board s1) (Some (x, y)) s1.
Proof.
  intros Hpp Hm Hb Hid.
  destruct Hm as [M1 M2 M3 M4 M5 M6 M7 M8 M9].
  pose proof (ag_hole _ _ M4) as (Hh1 & Hh2 & Hh3 & _). simpl in Hh1, Hh2, Hh3.
  eexists. split; [|split; [|reflexivity]].
  - unfold place. rewrite (bind_Ok _ _ _ _ _ Hpp).
    erewrite bind_Ok; cycle 1.
    { apply read_Val. apply (self_surrounded_exec s1 x y p); try done. lia. }
    destruct (flanked s1 x y 1 0 || flanked s1 x y 0 1).
    + apply update_Val. unfold store_cell.
      by rewrite (setitem2_lk2 _ _ _ _ _ Hh1).
    + rewrite add_rec_exec by done. unfold closed. simpl.
      reflexivity.
  - destruct (flanked s1 x y 1 0 || flanked s1 x y 0 1).
    + (* captured at once *)
      assert (agree (closed (mkHole x y p None)
                       (upd2 (board s1) x y 32) None s1)) as Hag.
      { apply agree_close; [done|done|by right|done]. }
      split; simpl; try done.
      * rewrite <- M1. apply (skel_Free_upd s1 x y p 32); [done| |done].
        by apply classify_piece.
      * by apply (dims_upd2 s1 x y 32).
      * apply (agree_ext None (closed (mkHole x y p None)
                                   (upd2 (board s1) x y 32) None s1));
          simpl; [done| | |done|done].
        -- symmetry. by apply upd2_id.
        -- symmetry. apply list_alter_id. intros; simpl; lia.
    + (* recorded *)
      split; simpl; try done.
      * by apply closed_shape.
      * apply agree_close; [done|done|by left|].
        intros _. simpl. by rewrite M6.
Qed.

(** ** The invariant of the states of a game *)

Lemma expect_shape b :
  length (expect b) = 8%nat /\ Forall (fun r => length r = 8%nat) (expect b).
Proof.
  unfold expect. split; [by rewrite length_fmap|].
  apply Forall_fmap. apply Forall_forall. intros x _.
  unfold compose. by rewrite length_fmap.
Qed.

Lemma skel_dims s b : skel s = expect b -> dims s.
Proof.
  intros H. destruct (expect_shape b) as [H1 H2]. rewrite <- H in H1, H2.
  unfold skel in *. rewrite length_fmap in H1. split; [done|].
  apply Forall_fmap in H2. eapply Forall_impl; [exact H2|].
  intros r Hr. simpl in Hr. by rewrite length_fmap in Hr.
Qed.

Lemma sched_border s : sched s -> border s ∈ [0; 1; 3; 7].
Proof.
  unfold sched. intros H.
  repeat (apply elem_of_cons in H as [[= -> _ _]|H]);
    [repeat constructor..|by apply elem_of_nil in H].
Qed.

Lemma safe_site K b x y :
  safe_skel K b = true -> 0 <= b -> site_safe K b x y = true.
Proof.
  intros H Hb.
  destruct (decide ((-2 <= x < 10) /\ (-2 <= y < 10))) as [Hin|Hout].
  - unfold safe_skel in H. rewrite forallb_forall in H.
    apply (H (x, y)). apply list_elem_of_In, elem_of_product.
    split; apply elem_of_range; lia.
  - unfold site_safe. apply forallb_forall. intros [dx dy] _.
    destruct (inboard_at b (x + dx + dx) (y + dy + dy)) eqn:E1; [|done].
    destruct (inboard_at b (x + dx - dx) (y + dy - dy)) eqn:E2; [|done].
    exfalso. apply Hout. unfold inboard_at in E2.
    rewrite !andb_true_iff in E2. lia.
Qed.

Lemma Inv_facts s :
  Inv s ->
  dims s /\ 0 <= border s
  /\ forall x y, site_safe (expect (border s)) (border s) x y = true.
Proof.
  intros [H1 H2 H3 H4 H5]. pose proof (sched_border s H2) as Hb.
  assert (0 <= border s) as Hb0.
  { repeat (apply elem_of_cons in Hb as [->|Hb]); try lia.
    by apply elem_of_nil in Hb. }
  split; [by apply (skel_dims s (border s))|]. split; [done|].
  intros x y. apply safe_site; [|done]. by apply safe_expect.
Qed.

Lemma Inv_of_mid s0 s' :
  sched s0 -> 0 <= turns s0 < turn_thres s0 ->
  mid (expect (border s0)) None s0 s' -> Inv s'.
Proof.
  intros Hs Ht [M1 M2 M3 M4 M5 M6 M7 M8 M9]. split.
  - by rewrite M5.
  - unfold sched in *. by rewrite M5, M8, M9.
  - done.
  - done.
  - by rewrite M7, M8.
Qed.

Lemma init_Inv : Inv init.
Proof.
  split.
  - apply init_skel.
  - unfold sched. simpl. repeat constructor.
  - unfold reg_shape. simpl. repeat split; try done.
    repeat constructor.
  - split; try done.
    + intros x y p Hl Hp _. exfalso.
      apply lk2_Some in Hl as (Hx & Hy & row & Hr & Hv).
      assert (p = 32 \/ p = 48) as [->| ->]; [|done|done].
      assert (row = replicate 8 32 \/
              row = <[0%nat := 48]> (<[7%nat := 48]> (replicate 8 32))) as Hrow.
      { simpl in Hr. remember (Z.to_nat x) as i.
        do 8 (destruct i as [|i]; [injection Hr as <-; auto|]). done. }
      remember (Z.to_nat y) as j.
      destruct Hrow as [-> | ->]; simpl in Hv;
        do 8 (destruct j as [|j]; [injection Hv as <-; auto|]); done.
    + intros p x y Hp Hr _. exfalso.
      apply lk2_Some in Hr as (_ & _ & row & Hr & Hv).
      assert (row = replicate 12 None) as ->.
      { simpl in Hr. remember (Z.to_nat (p / 16)) as i.
        do 2 (destruct i as [|i]; [by injection Hr as <-|]). done. }
      remember (Z.to_nat (p mod 16)) as j. simpl in Hv.
      do 12 (destruct j as [|j]; [done|]). done.
    + intros t row [-> | ->]; simpl; by intros [= <-].
    + intros p pos Hp Hr. exfalso.
      apply lk2_Some in Hr as (_ & _ & row & Hr & Hv).
      assert (row = replicate 12 None) as ->.
      { simpl in Hr. remember (Z.to_nat (p / 16)) as i.
        do 2 (destruct i as [|i]; [by injection Hr as <-|]). done. }
      remember (Z.to_nat (p mod 16)) as j. simpl in Hv.
      do 12 (destruct j as [|j]; [done|]). done.
    + intros t c. simpl.
      do 2 (destruct t as [|t]; [intros [= <-]; lia|]). done.
  - simpl. lia.
Qed.

Lemma place_Inv s x y type :
  Inv s -> valid_op s (Place x y type) = true ->
  exists c s',
    place x y type s = Ok tt s' /\ Inv s'
    /\ count s !! Z.to_nat type = Some c
    /\ count s' = <[Z.to_nat type := c + 1]> (count s)
    /\ border s' = border s /\ turns s' = turns s
    /\ turn_thres s' = turn_thres s /\ turn_step s' = turn_step s.
Proof.
  intros HI Hv. pose proof (Inv_facts s HI) as (Hd & Hb & Hsafe).
  destruct HI as [I1 I2 I3 I4 I5].
  apply valid_place_op in Hv as (Ht & (c & Hc & Hc12) & Hin & Hl & _).
  destruct (place_piece_exec (expect (border s)) s x y type c)
    as (s1 & H1 & Hm1 & _ & _); try done.
  pose proof (ag_count _ _ I4 _ _ Hc) as Hc0.
  destruct (piece_code type c Ht) as (Hp & Hdiv & Hmod); [lia|].
  destruct (place_finish _ _ _ _ _ _ _ _ H1 Hm1) as (s' & H' & Hm' & _).
  - done.
  - rewrite Hdiv, Hmod. exists (c + 1). simpl. split; [|lia].
    apply list_lookup_insert_eq. by apply lookup_lt_Some in Hc.
  - exists c, s'. split; [done|]. split.
    { by apply (Inv_of_mid (set_count (<[Z.to_nat type := c + 1]> (count s)) s)). }
    destruct Hm' as [M1 M2 M3 M4 M5 M6 M7 M8 M9]. by repeat split.
Qed.

(** ** [move] *)

Lemma try_move_Some s x y dx dy d :
  _try_move s x y dx dy = Val (Some d) ->
  _inboard s d.1 d.2 = true /\ cell s d.1 d.2 = Val 0x20.
Proof.
  unfold _try_move.
  destruct (_inboard s (x + dx) (y + dy)) eqn:E1; [|done]. simpl.
  destruct (cell s (x + dx) (y + dy)) as [c|] eqn:Ec; [|done]. simpl.
  destruct (c =? 48); [done|].
  destruct (c =? 32) eqn:E2.
  - intros [= <-]. apply Z.eqb_eq in E2 as ->. done.
  - destruct (_inboard s (x + dx + dx) (y + dy + dy)) eqn:E3; [|done].
    destruct (cell s (x + dx + dx) (y + dy + dy)) as [c2|] eqn:Ec2; [|done].
    simpl. destruct (c2 =? 32) eqn:E4; [|done].
    intros [= <-]. apply Z.eqb_eq in E4 as ->. done.
Qed.

Lemma valid_move_elem s type l o ds d :
  reg_shape s -> type = 0 \/ type = 1 ->
  valid_move s type = Val l -> (o, ds) ∈ l -> d ∈ ds ->
  (exists i, 0 <= i < 12 /\ reg s (type * 0x10 + i) = Some (Some o))
  /\ exists dx dy, (dx, dy) ∈ dirs /\ _try_move s o.1 o.2 dx dy = Val (Some d).
Proof.
  intros Hsh Ht Hv Ho Hd. unfold valid_move in Hv.
  rewrite getitem_nonneg in Hv by lia.
  destruct (pieces s !! Z.to_nat type) as [row|] eqn:Hrow; [|done].
  cbn [ebind] in Hv.
  destruct (emap_elem _ _ _ _ Hv Ho) as ([x y] & Hxy & Hf). cbn beta iota in Hf.
  destruct (emap _ dirs) as [dsl|] eqn:Hds; [|done]. cbn [ebind] in Hf.
  injection Hf as <- <-. split.
  - apply list_elem_of_omap in Hxy as (e & He & Hid). unfold id in Hid. subst e.
    apply list_elem_of_lookup in He as [i Hi].
    destruct Hsh as (_ & Hlen & _).
    pose proof (Forall_lookup_1 _ _ _ _ Hlen Hrow) as Hl. simpl in Hl.
    pose proof (lookup_lt_Some _ _ _ Hi) as Hlt.
    exists (Z.of_nat i). split; [lia|].
    destruct (piece_code type (Z.of_nat i) Ht) as (_ & Hdiv & Hmod); [lia|].
    unfold reg. rewrite Hdiv, Hmod.
    apply (lk2_intro _ _ _ row); [lia|lia|done|]. by rewrite Nat2Z.id.
  - apply list_elem_of_omap in Hd as (e & He & Hid). unfold id in Hid. subst e.
    destruct (emap_elem _ _ _ _ Hds He) as ([dx dy] & Hdir & Hf).
    exists dx, dy. done.
Qed.

Lemma valid_move_op s sx sy dx dy :
  reg_shape s -> agree s -> 0 <= border s ->
  valid_op s (Move sx sy dx dy) = true ->
  exists p,
    is_piece p = true /\ reg s p = Some (Some (sx, sy))
    /\ lk2 (board s) sx sy = Some p
    /\ _inboard s dx dy = true /\ lk2 (board s) dx dy = Some 0x20
    /\ exists ddx ddy, (ddx, ddy) ∈ dirs
                       /\ _try_move s sx sy ddx ddy = Val (Some (dx, dy)).
Proof.
  intros Hsh Hag Hb Hv. unfold valid_op in Hv.
  apply existsb_exists in Hv as (type & Hin & Hv).
  assert (type = 0 \/ type = 1) as Ht.
  { simpl in Hin. destruct Hin as [<-|[<-|[]]]; auto. }
  destruct (valid_move s type) as [l|] eqn:El; [|done].
  apply existsb_exists in Hv as ([o ds] & Hol & Hv).
  apply andb_true_iff in Hv as [Ho Hd].
  apply bool_decide_eq_true_1 in Ho. apply bool_decide_eq_true_1 in Hd.
  subst o.
  destruct (valid_move_elem s type l (sx, sy) ds (dx, dy) Hsh Ht El)
    as ((i & Hi & Hreg) & ddx & ddy & Hdir & Htry); [by apply list_elem_of_In|done|].
  destruct (piece_code type i Ht Hi) as (Hp & _).
  destruct (try_move_Some _ _ _ _ _ _ Htry) as [Hinb Hcell]. simpl in *.
  exists (type * 16 + i). split; [done|]. split; [done|].
  split; [by apply (ag_reg _ _ Hag)|]. split; [done|].
  pose proof (inboard_in_grid _ _ _ Hb Hinb) as [Hx Hy].
  split; [apply cell_lk2; [lia|lia|done]|]. eauto.
Qed.

Lemma lk2_upd2 {A} (g : list (list A)) x y v a x' y' :
  lk2 g x y = Some a ->
  lk2 (upd2 g x y v) x' y'
  = if decide ((x, y) = (x', y')) then Some v else lk2 g x' y'.
Proof.
  intros H. destruct (decide ((x, y) = (x', y'))) as [[= <- <-]|Hne].
  - by apply (lk2_upd2_eq _ _ _ _ a).
  - apply lk2_Some in H as (? & ? & _). by apply lk2_upd2_ne.
Qed.

Lemma move_piece_exec K s sx sy dx dy p :
  skel s = K -> dims s -> reg_shape s -> agree s -> 0 <= border s ->
  site_safe K (border s) dx dy = true ->
  is_piece p = true -> reg s p = Some (Some (sx, sy)) ->
  lk2 (board s) sx sy = Some p -> lk2 (board s) dx dy = Some 0x20 ->
  exists s1 s',
    mid K (Some (mkHole dx dy p (Some (sx, sy)))) s s1
    /\ move_piece sx sy dx dy s = Ok tt s'
    /\ mid K None s s'
    /\ s' = if flanked s1 dx dy 1 0 || flanked s1 dx dy 0 1
            then closed (mkHole dx dy p (Some (sx, sy)))
                        (upd2 (board s1) dx dy 0x20) None s1
            else set_pieces (upd2 (pieces s1) (p / 0x10) (p mod 0x10)
                                  (Some (dx, dy))) s1.
Proof.
  intros Hsk Hd Hsh Hag Hb Hsafe Hp Hreg Hsrc Hdst.
  set (k := mkHole dx dy p (Some (sx, sy))).
  set (g1 := upd2 (board s) sx sy 32).
  set (g2 := upd2 g1 dx dy p).
  set (sb := set_board g2 s).
  assert ((sx, sy) <> (dx, dy)) as Hne.
  { intros [= <- <-]. rewrite Hsrc in Hdst. injection Hdst as ->.
    by vm_compute in Hp. }
  assert (lk2 g1 dx dy = Some 32) as Hg1.
  { unfold g1. rewrite (lk2_upd2 _ _ _ _ _ _ _ Hsrc).
    by rewrite decide_False. }
  assert (forall x y, lk2 g2 x y
            = if decide ((dx, dy) = (x, y)) then Some p
              else if decide ((sx, sy) = (x, y)) then Some 32
              else lk2 (board s) x y) as Hg2.
  { intros x y. unfold g2. rewrite (lk2_upd2 _ _ _ _ _ _ _ Hg1).
    destruct (decide ((dx, dy) = (x, y))); [done|].
    unfold g1. by rewrite (lk2_upd2 _ _ _ _ _ _ _ Hsrc). }
  assert (forall p', reg sb p' = reg s p') as Hregb by done.
  assert (mid K (Some k) s sb) as Hm.
  { destruct Hag as [Hg Hr _ Hn Hi Hcn]. split; try done.
    - rewrite <- Hsk.
      change (skel sb) with
        (fmap (M:=list) (fmap (M:=list) classify)
              (upd2 (board (set_board g1 s)) dx dy p)).
      rewrite (skel_Free_upd (set_board g1 s) dx dy 32 p);
        [|done|done|by apply classify_piece].
      apply (skel_Free_upd s sx sy p 32); [done|by apply classify_piece|done].
    - unfold sb, g2. apply (dims_upd2 (set_board g1 s) dx dy p); [|done].
      by apply (dims_upd2 s sx sy 32).
    - split.
      + intros x y p' Hl Hp' Hoff. simpl in Hoff, Hl. rewrite Hg2 in Hl.
        rewrite decide_False in Hl by done.
        destruct (decide ((sx, sy) = (x, y))).
        { injection Hl as <-. by vm_compute in Hp'. }
        rewrite Hregb. by apply Hg.
      + intros p' x y Hp' Hrp Hnp. simpl in Hnp. rewrite Hregb in Hrp.
        pose proof (Hr p' x y Hp' Hrp I) as Hl. simpl. rewrite Hg2.
        rewrite decide_False.
        2:{ intros [= <- <-]. rewrite Hdst in Hl. injection Hl as <-.
            by vm_compute in Hp'. }
        rewrite decide_False; [done|].
        intros [= <- <-]. rewrite Hsrc in Hl. by injection Hl as <-.
      + simpl. rewrite !Hg2. rewrite decide_True by done.
        rewrite decide_False by done. rewrite decide_True by done. done.
      + done.
      + done.
      + done. }
  destruct (elim_mid K s sb k) as (s1 & H1 & Hm1); [done|done|done|].
  pose proof Hm1 as [M1 M2 M3 M4 M5 M6 M7 M8 M9].
  pose proof (ag_hole _ _ M4) as (Hh1 & Hh2 & Hh3 & Hh4).
  simpl in Hh1, Hh2, Hh3, Hh4.
  exists s1. eexists. split; [done|]. split; [|split; [|reflexivity]].
  - unfold move_piece.
    erewrite bind_Ok; [|apply read_Val; unfold cell; by apply getitem2_lk2].
    erewrite bind_Ok; [|apply read_Val; unfold cell; by apply getitem2_lk2].
    erewrite bind_Ok; cycle 1.
    { apply update_Val. unfold store_cell.
      rewrite (setitem2_lk2 _ _ _ _ _ Hsrc). simpl. reflexivity. }
    erewrite bind_Ok; cycle 1.
    { apply update_Val. unfold store_cell. simpl.
      fold g1. rewrite (setitem2_lk2 _ _ _ _ _ Hg1). simpl. reflexivity. }
    erewrite bind_Ok; cycle 1.
    { apply read_Val. unfold cell. simpl. fold g2. apply getitem2_lk2.
      rewrite Hg2. by rewrite decide_True. }
    simpl in H1. unfold set_board at 1. simpl. fold g2.
    change (_elim dx dy sb = Ok () s1) in H1. unfold sb, set_board in H1.
    rewrite (bind_Ok _ _ _ _ _ H1).
    erewrite bind_Ok; cycle 1.
    { apply read_Val. apply (self_surrounded_exec s1 dx dy p); try done. lia. }
    destruct (flanked s1 dx dy 1 0 || flanked s1 dx dy 0 1).
    + erewrite bind_Ok; cycle 1.
      { apply update_Val. unfold store_cell.
        rewrite (setitem2_lk2 _ _ _ _ _ Hh1). simpl. reflexivity. }
      rewrite delete_rec_exec; [reflexivity|done|done].
    + apply update_Val. unfold store_rec. unfold reg in Hh3.
      by rewrite (setitem2_lk2 _ _ _ _ _ Hh3).
  - destruct (flanked s1 dx dy 1 0 || flanked s1 dx dy 0 1).
    + split; simpl; try done.
      * rewrite <- M1. apply (skel_Free_upd s1 dx dy p 32); [done| |done].
        by apply classify_piece.
      * by apply (dims_upd2 s1 dx dy 32).
      * by apply (closed_shape k).
      * apply agree_close; [done|done|by right|done].
    + assert (agree (closed k (board s1) (Some (dx, dy)) s1)) as Hcl.
      { apply agree_close; [done|done|by left|]. intros _.
        destruct (ag_ids _ _ M4 p (sx, sy) Hh2 Hh3) as (c & Hc & Hlt).
        exists c. done. }
      split; simpl; try done.
      * pose proof (closed_shape k (board s1) (Some (dx, dy)) s1 M3)
          as (S1 & S2 & _).
        destruct M3 as (_ & _ & S3 & S4). done.
      * apply (agree_ext None (closed k (board s1) (Some (dx, dy)) s1));
          simpl; try done.
        symmetry. apply list_alter_id. intros; simpl; lia.
Qed.

Lemma sched_cases s :
  sched s ->
  (border s = 0 /\ turn_thres s = 128 /\ turn_step s = 64)
  \/ (border s = 1 /\ turn_thres s = 192 /\ turn_step s = 32)
  \/ (border s = 3 /\ turn_thres s = 224 /\ turn_step s = 16)
  \/ (border s = 7 /\ turn_thres s = 240 /\ turn_step s = 8).
Proof.
  unfold sched. intros H.
  repeat (apply elem_of_cons in H as [[= -> -> ->]|H]); auto 10.
  by apply elem_of_nil in H.
Qed.

Lemma shrink_skel_expect b :
  b ∈ [0; 1; 3] -> shrink_skel b (expect b) = Some (expect (b + (b + 1))).
Proof.
  intros H. repeat (apply elem_of_cons in H as [->|H]).
  - apply shrink_skel_0.
  - apply shrink_skel_1.
  - apply shrink_skel_3.
  - by apply elem_of_nil in H.
Qed.

Lemma inboard_7 s x y : border s = 7 -> _inboard s x y = false.
Proof.
  intros H. unfold _inboard, inboard_at. rewrite H.
  destruct (7 - 1 <? x) eqn:E1, (x <? 8 - 7) eqn:E2; try done. lia.
Qed.

Lemma move_Inv s sx sy dx dy :
  Inv s -> valid_op s (Move sx sy dx dy) = true ->
  exists f s',
    move sx sy dx dy s = Ok f s' /\ Inv s'
    /\ f = (turns s + 1 =? turn_thres s)
    /\ turns s' = turns s + 1 /\ count s' = count s
    /\ if f then border s' = border s + (border s + 1)
               /\ turn_thres s' = turn_thres s + turn_step s
               /\ turn_step s' = turn_step s / 2
       else border s' = border s /\ turn_thres s' = turn_thres s
            /\ turn_step s' = turn_step s.
Proof.
  intros HI Hv. pose proof (Inv_facts s HI) as (Hd & Hb & Hsafe).
  destruct HI as [I1 I2 I3 I4 I5].
  destruct (valid_move_op s sx sy dx dy I3 I4 Hb Hv)
    as (p & Hp & Hreg & Hsrc & Hinb & Hdst & _).
  destruct (move_piece_exec (expect (border s)) s sx sy dx dy p)
    as (s1 & s2 & _ & H2 & Hm2 & _); try done.
  destruct Hm2 as [M1 M2 M3 M4 M5 M6 M7 M8 M9].
  set (s3 := set_turns (turns s2 + 1) s2).
  assert (move sx sy dx dy s
          = (let* due := read (fun s => Val (turns s =? turn_thres s)) in
             if due : bool then _shrink >> ret true else ret false) s3) as ->.
  { unfold move. rewrite (bind_Ok _ _ _ _ _ H2).
    erewrite bind_Ok; [|by apply update_Val]. done. }
  erewrite bind_Ok; [|by apply read_Val].
  change (turns s3) with (turns s2 + 1). change (turn_thres s3) with (turn_thres s2).
  rewrite M7, M8.
  destruct (turns s + 1 =? turn_thres s) eqn:Edue.
  - (* the board shrinks *)
    apply Z.eqb_eq in Edue.
    assert (border s ∈ [0; 1; 3]) as Hb3.
    { destruct (sched_cases s I2) as [(-> & _)|[(-> & _)|[(-> & _)|(E7 & _)]]];
        [repeat constructor..|].
      by rewrite (inboard_7 s dx dy E7) in Hinb. }
    destruct (shrink_sim s3 (expect (border s + (border s + 1))))
      as (s4 & H4 & S1 & S2 & S3 & S4 & S5 & S6 & S7 & S8 & S9).
    + done.
    + done.
    + by apply (agree_ext None s2).
    + simpl. lia.
    + change (border s3) with (border s2). change (skel s3) with (skel s2).
      rewrite M5, M1. by apply shrink_skel_expect.
    + exists true, s4. rewrite (bind_Ok _ _ _ _ _ H4).
      change (border s3) with (border s2) in S5.
      change (count s3) with (count s2) in S6.
      change (turns s3) with (turns s2 + 1) in S7.
      change (turn_thres s3) with (turn_thres s2) in S8.
      change (turn_step s3) with (turn_step s2) in S8, S9.
      rewrite M5 in S5. rewrite M6 in S6. rewrite M7 in S7.
      rewrite M8, M9 in S8. rewrite M9 in S9.
      split; [done|]. split; [|by repeat split].
      split.
      * by rewrite S1, S5.
      * unfold sched. rewrite S5, S8, S9.
        destruct (sched_cases s I2)
          as [(-> & -> & ->)|[(-> & -> & ->)|[(-> & -> & ->)|(E7 & _)]]];
          [repeat constructor..|].
        by rewrite (inboard_7 s dx dy E7) in Hinb.
      * done.
      * done.
      * rewrite S7, S8.
        destruct (sched_cases s I2)
          as [(_ & E & ->)|[(_ & E & ->)|[(_ & E & ->)|(_ & E & ->)]]]; lia.
  - exists false, s3. split; [done|].
    split; [|repeat split; simpl; congruence]. apply Z.eqb_neq in Edue.
    split; simpl; try done.
    + by rewrite M5.
    + unfold sched. simpl. by rewrite M5, M8, M9.
    + by apply (agree_ext None s2).
    + lia.
Qed.

(** ** Runs of valid operations *)

Lemma step_Inv s o :
  Inv s -> valid_op s o = true ->
  exists f s', step o s = Ok f s' /\ Inv s'.
Proof.
  intros HI Hv. destruct o as [x y type|sx sy dx dy].
  - destruct (place_Inv s x y type HI Hv) as (c & s' & H & HI' & _).
    exists false, s'. split; [|done]. simpl. by rewrite (bind_Ok _ _ _ _ _ H).
  - destruct (move_Inv s sx sy dx dy HI Hv) as (f & s' & H & HI' & _).
    by exists f, s'.
Qed.

Lemma reachable_Inv s : reachable s -> Inv s.
Proof.
  induction 1 as [|s o f s' Hr IH Hv Hs]; [apply init_Inv|].
  destruct (step_Inv s o IH Hv) as (f' & s'' & Hs' & HI).
  rewrite Hs in Hs'. by injection Hs' as <- <-.
Qed.

Lemma run_reachable ops s l s' :
  reachable s -> all_valid ops s = true -> run ops s = Ok l s' ->
  reachable s'.
Proof.
  revert s l. induction ops as [|o ops IH]; intros s l Hr Hv Hrun; simpl in *.
  - unfold ret in Hrun. by injection Hrun as _ <-.
  - apply andb_true_iff in Hv as [Hvo Hv].
    destruct (step o s) as [f s1|] eqn:Es; [|done].
    unfold bind in Hrun. rewrite Es in Hrun. unfold read in Hrun.
    destruct (run ops s1) as [l1 s2|] eqn:Er; [|done].
    injection Hrun as _ <-.
    apply (IH s1 l1); [|done|done]. by apply (reach_step s o f).
Qed.

Lemma run_init_Inv ops l s :
  all_valid ops init = true -> run ops init = Ok l s -> Inv s.
Proof.
  intros Hv Hr. apply reachable_Inv.
  apply (run_reachable ops init l s); [apply reach_init|done|done].
Qed.

(** ** Components that a computation leaves alone *)

Lemma final_bind {A B} (m : M A) (k : A -> M B) s :
  final (bind m k s)
  = match m s with Ok a s1 => final (k a s1) | Raise _ s1 => s1 end.
Proof. unfold bind. by destruct (m s). Qed.

Lemma bind_Ok_inv {A B} (m : M A) (k : A -> M B) s b s' :
  bind m k s = Ok b s' -> exists a s1, m s = Ok a s1 /\ k a s1 = Ok b s'.
Proof. unfold bind. destruct (m s) as [a s1|]; [eauto|done]. Qed.

Lemma keeps_Ok {A X} (f : Board -> X) (m : M A) s a s' :
  keeps f m -> m s = Ok a s' -> f s' = f s.
Proof. intros H E. specialize (H s). by rewrite E in H. Qed.

Section keeps.
Context {X : Type} (f : Board -> X).

Lemma keeps_ret {A} (a : A) : keeps f (ret a).
Proof. done. Qed.

Lemma keeps_raise {A} e : keeps f (raise (A:=A) e).
Proof. done. Qed.

Lemma keeps_read {A} (g : Board -> Exc A) : keeps f (read g).
Proof. intros s. unfold read. by destruct (g s). Qed.

Lemma keeps_update g :
  (forall s s', g s = Val s' -> f s' = f s) -> keeps f (update g).
Proof.
  intros H s. unfold update. destruct (g s) eqn:E; [by apply H|done].
Qed.

Lemma keeps_bind {A B} (m : M A) (k : A -> M B) :
  keeps f m -> (forall a, keeps f (k a)) -> keeps f (bind m k).
Proof.
  intros Hm Hk s. rewrite final_bind. specialize (Hm s).
  destruct (m s) as [a s1|e s1]; simpl in Hm; [|done].
  by rewrite Hk.
Qed.

Lemma keeps_for {A} (l : list A) (body : A -> M unit) :
  (forall a, keeps f (body a)) -> keeps f (for_ l body).
Proof.
  intros H. induction l as [|a l IH]; [done|].
  simpl. apply keeps_bind; [done|]. by intros _.
Qed.
End keeps.

Lemma store_cell_clock x y v s s' : store_cell x y v s = Val s' -> clock s' = clock s.
Proof.
  unfold store_cell. destruct (setitem2 (board s) x y v); [|done].
  by intros [= <-].
Qed.

Lemma store_rec_clock p e s s' : store_rec p e s = Val s' -> clock s' = clock s.
Proof.
  unfold store_rec. destruct (setitem2 _ _ _ _); [|done]. by intros [= <-].
Qed.

Lemma add_num_clock t k s s' : add_num t k s = Val s' -> clock s' = clock s.
Proof.
  unfold add_num. destruct (getitem _ _); [|done]. simpl.
  destruct (setitem _ _ _); [|done]. by intros [= <-].
Qed.

Lemma keeps_delete_rec p : keeps clock (_delete_rec p).
Proof.
  unfold _delete_rec. destruct (32 <=? p); [done|].
  apply keeps_bind; [|intros _]; apply keeps_update.
  - apply store_rec_clock.
  - apply add_num_clock.
Qed.

Lemma keeps_add_rec p pos : keeps clock (_add_rec p pos).
Proof.
  unfold _add_rec.
  apply keeps_bind; [|intros _]; apply keeps_update.
  - apply store_rec_clock.
  - apply add_num_clock.
Qed.

Lemma keeps_wipe x y v : keeps clock (wipe x y v).
Proof.
  unfold wipe. apply keeps_bind; [apply keeps_read|]. intros p.
  apply keeps_bind; [apply keeps_delete_rec|]. intros _.
  apply keeps_update. apply store_cell_clock.
Qed.

Lemma keeps_elim x y : keeps clock (_elim x y).
Proof.
  unfold _elim. apply keeps_for. intros [dx dy]. unfold elim_dir.
  apply keeps_bind; [apply keeps_read|]. intros [|]; [apply keeps_wipe|done].
Qed.

Lemma keeps_move_piece sx sy dx dy : keeps clock (move_piece sx sy dx dy).
Proof.
  unfold move_piece.
  apply keeps_bind; [apply keeps_read|]. intros a.
  apply keeps_bind; [apply keeps_read|]. intros b.
  apply keeps_bind; [apply keeps_update, store_cell_clock|]. intros _.
  apply keeps_bind; [apply keeps_update, store_cell_clock|]. intros _.
  apply keeps_bind; [apply keeps_read|]. intros p.
  apply keeps_bind; [apply keeps_elim|]. intros _.
  apply keeps_bind; [apply keeps_read|]. intros [|].
  - apply keeps_bind; [apply keeps_update, store_cell_clock|]. intros _.
    apply keeps_delete_rec.
  - apply keeps_update, store_rec_clock.
Qed.

(** What a completed [_shrink] does to the counters, in any state. *)
Lemma shrink_clock s s' :
  _shrink s = Ok tt s' ->
  border s' = border s + (border s + 1)
  /\ turn_thres s' = turn_thres s + turn_step s
  /\ turn_step s' = turn_step s / 2
  /\ turns s' = turns s /\ count s' = count s.
Proof.
  unfold _shrink. intros H.
  apply bind_Ok_inv in H as (b & s0 & H0 & H). unfold read in H0.
  injection H0 as <- <-.
  apply bind_Ok_inv in H as ([] & s1 & H1 & H).
  assert (clock s1 = clock s) as C1.
  { refine (keeps_Ok clock _ _ _ _ (keeps_for clock _ _ _) H1).
    intros i. apply keeps_for. intros [x y]. apply keeps_wipe. }
  destruct (last (range (border s) (7 - border s))) as [i|]; [|done].
  apply bind_Ok_inv in H as ([] & s2 & H2 & H).
  assert (clock s2 = clock s1) as C2.
  { refine (keeps_Ok clock _ _ _ _ (keeps_for clock _ _ _) H2).
    intros [x y]. unfold block_cell.
    apply keeps_bind; [apply keeps_wipe|]. intros _. apply keeps_elim. }
  unfold update, bind in H. simpl in H. injection H as <-. simpl.
  rewrite C1 in C2. unfold clock in C2. injection C2 as -> -> -> -> ->.
  done.
Qed.

(** ** The terminal test *)

(** C10.  On the freshly constructed board [end] already answers true,
    both sides having 0 live pieces; in any state it answers true exactly
    when some side's [num_pieces] entry is below 2, whatever the phase of
    the game. *)
Theorem end_true_below_two :
  num_pieces init = [0; 0]
  /\ end_ init = true
  /\ forall s, end_ s = true <-> exists i, i ∈ num_pieces s /\ i < 2.
Proof.
  split; [done|]. split; [done|]. intros s. unfold end_.
  rewrite existsb_exists. split.
  - intros (i & Hi & Hlt). exists i. split; [by apply list_elem_of_In|lia].
  - intros (i & Hi & Hlt). exists i. split; [by apply list_elem_of_In|lia].
Qed.

(** ** No legality check in [place] and [move] *)

(** C1, as stated, fails.  [(0, 0)] is a block on the initial board, so
    placing there is not a valid placement, yet [place] returns and the
    state has changed; and with a single piece on [(4, 3)], moving it to
    the far square [(6, 6)] is not a valid move, yet [move] returns and
    the state has changed. *)
Lemma place_move_accept_illegal :
  valid_op init (Place 0 0 0) = false
  /\ (exists s', place 0 0 0 init = Ok tt s' /\ s' <> init)
  /\ valid_op (final (place 4 3 0 init)) (Move 4 3 6 6) = false
  /\ (exists s', move 4 3 6 6 (final (place 4 3 0 init)) = Ok false s'
                 /\ s' <> final (place 4 3 0 init)).
Proof.
  split; [by vm_compute|]. split.
  { eexists. split; [vm_compute; reflexivity|]. by vm_compute. }
  split; [by vm_compute|].
  eexists. split; [vm_compute; reflexivity|]. by vm_compute.
Qed.

Lemma place_count_final s x y type c :
  type = 0 \/ type = 1 -> count s !! Z.to_nat type = Some c ->
  count (final (place x y type s)) = <[Z.to_nat type := c + 1]> (count s).
Proof.
  intros Ht Hc. unfold place, place_piece.
  rewrite !final_bind. unfold bind at 1.
  rewrite (read_Val _ _ c) by (apply getitem_Val; [lia|done]).
  unfold bind at 1.
  erewrite update_Val; cycle 1.
  { rewrite (getitem_Val _ _ c) by (lia || done). simpl.
    rewrite (setitem_nonneg _ _ _ c) by (lia || done). simpl. reflexivity. }
  set (sc := set_count _ s).
  change (<[Z.to_nat type:=c + 1]> (count s)) with (count sc).
  set (rest := update (store_cell x y (type * 16 + c)) >> _elim x y >>
               ret (type * 16 + c)).
  assert (keeps clock rest) as Hrest.
  { apply keeps_bind; [apply keeps_update, store_cell_clock|]. intros _.
    apply keeps_bind; [apply keeps_elim|]. by intros _. }
  pose proof (Hrest sc) as H1.
  destruct (rest sc) as [p s1|e s1]; simpl in H1.
  - assert (keeps clock (let* c0 := read (fun s0 => self_surrounded s0 x y) in
                         if c0 : bool then update (store_cell x y 32)
                         else _add_rec p (x, y))) as H2.
    { apply keeps_bind; [apply keeps_read|]. intros [|].
      - apply keeps_update, store_cell_clock.
      - apply keeps_add_rec. }
    specialize (H2 s1). rewrite H1 in H2. unfold clock in H2.
    by injection H2.
  - unfold clock in H1. by injection H1.
Qed.

Lemma move_turns s sx sy dx dy f s' :
  move sx sy dx dy s = Ok f s' -> turns s' = turns s + 1.
Proof.
  unfold move. intros H.
  apply bind_Ok_inv in H as ([] & s1 & H1 & H).
  pose proof (keeps_Ok clock _ _ _ _ (keeps_move_piece sx sy dx dy) H1) as C1.
  apply bind_Ok_inv in H as ([] & s2 & H2 & H).
  unfold update in H2. injection H2 as <-.
  apply bind_Ok_inv in H as (due & s3 & H3 & H).
  unfold read in H3. injection H3 as <- <-.
  unfold clock in C1. injection C1 as _ _ C1 _ _.
  simpl in H. destruct (turns s1 + 1 =? turn_thres s1).
  - apply bind_Ok_inv in H as ([] & s4 & H4 & H).
    apply shrink_clock in H4 as (_ & _ & _ & H4 & _).
    unfold ret in H. injection H as _ <-. rewrite H4. simpl. lia.
  - unfold ret in H. injection H as _ <-. simpl. lia.
Qed.

(** C1, amended.  [place] and [move] check nothing and there is no
    [IllegalPlacement] or [IllegalMove]: they run on any argument as on a
    valid one.  Every call of [place] for side 0 or 1 ends, returning or
    raising, in a state whose [count[side]] is one more than before, and
    every call of [move] that returns has advanced [turns] by one; so no
    such call leaves the state as it was. *)
Theorem place_move_unchecked :
  (forall s x y type c,
      type = 0 \/ type = 1 -> count s !! Z.to_nat type = Some c ->
      count (final (place x y type s)) !! Z.to_nat type = Some (c + 1)
      /\ final (place x y type s) <> s)
  /\ (forall s sx sy dx dy f s',
         move sx sy dx dy s = Ok f s' ->
         turns s' = turns s + 1 /\ s' <> s).
Proof.
  split.
  - intros s x y type c Ht Hc.
    pose proof (place_count_final s x y type c Ht Hc) as H.
    assert (count (final (place x y type s)) !! Z.to_nat type = Some (c + 1)) as H1.
    { rewrite H. apply list_lookup_insert_eq. by apply lookup_lt_Some in Hc. }
    split; [done|]. intros E. rewrite E, Hc in H1. injection H1. lia.
  - intros s sx sy dx dy f s' H. apply move_turns in H.
    split; [done|]. intros ->. lia.
Qed.

Lemma place_move_unchecked_witness :
  (count (final (place 0 0 0 init)) !! Z.to_nat 0 = Some (0 + 1)
   /\ final (place 0 0 0 init) <> init)
  /\ (turns (final (move 4 3 6 6 (final (place 4 3 0 init))))
      = turns (final (place 4 3 0 init)) + 1
      /\ final (move 4 3 6 6 (final (place 4 3 0 init)))
         <> final (place 4 3 0 init)).
Proof.
  split.
  - apply (proj1 place_move_unchecked init 0 0 0 0); [by left|reflexivity].
  - apply (proj2 place_move_unchecked (final (place 4 3 0 init)) 4 3 6 6 false).
    vm_compute. reflexivity.
Defined.

(** ** The shrink schedule *)

Lemma moves_nonneg ops : 0 <= moves ops.
Proof. induction ops as [|[] r IH]; simpl; lia. Qed.

Lemma run_cons_Ok o r s f s1 l s2 :
  step o s = Ok f s1 -> run r s1 = Ok l s2 ->
  run (o :: r) s = Ok (if f : bool then turns s1 :: l else l) s2.
Proof.
  intros H1 H2. simpl. rewrite (bind_Ok _ _ _ _ _ H1).
  erewrite bind_Ok; [|by apply read_Val].
  by rewrite (bind_Ok _ _ _ _ _ H2).
Qed.

Lemma all_valid_cons o r s :
  all_valid (o :: r) s = true ->
  valid_op s o = true
  /\ exists f s1, step o s = Ok f s1 /\ all_valid r s1 = true.
Proof.
  simpl. intros [Hv Hr]%andb_true_iff. split; [done|].
  destruct (step o s) as [f s1|]; [eauto|done].
Qed.

(** Placements alone never shrink the board. *)
Lemma run_quiet ops s :
  Inv s -> all_valid ops s = true -> moves ops = 0 ->
  exists s',
    run ops s = Ok [] s' /\ Inv s'
    /\ turns s' = turns s /\ turn_thres s' = turn_thres s
    /\ turn_step s' = turn_step s /\ border s' = border s.
Proof.
  revert s. induction ops as [|o r IH]; intros s HI Hv Hm.
  - by exists s.
  - apply all_valid_cons in Hv as (Hvo & f & s1 & Hs & Hr).
    destruct o as [x y type|sx sy dx dy]; simpl in Hm.
    2:{ pose proof (moves_nonneg r). lia. }
    destruct (place_Inv s x y type HI Hvo)
      as (c & s1' & Hp & HI1 & _ & _ & P1 & P2 & P3 & P4).
    assert (step (Place x y type) s = Ok false s1') as Hs'.
    { simpl. by rewrite (bind_Ok _ _ _ _ _ Hp). }
    rewrite Hs in Hs'. injection Hs' as -> ->.
    destruct (IH s1' HI1 Hr Hm) as (s' & Hrun & HI' & Q1 & Q2 & Q3 & Q4).
    exists s'. split; [by rewrite (run_cons_Ok _ _ _ _ _ _ _ Hs Hrun)|].
    split; [done|]. repeat split; congruence.
Qed.

(** The moves up to the threshold shrink the board once, on the move
    that reaches it. *)
Lemma run_first_shrink ops s :
  Inv s -> all_valid ops s = true ->
  turns s + moves ops = turn_thres s ->
  exists s',
    run ops s = Ok [turn_thres s] s' /\ Inv s'
    /\ turns s' = turn_thres s
    /\ turn_thres s' = turn_thres s + turn_step s
    /\ turn_step s' = turn_step s / 2
    /\ border s' = border s + (border s + 1).
Proof.
  revert s. induction ops as [|o r IH]; intros s HI Hv Hm.
  - simpl in Hm. pose proof (inv_turns s HI). lia.
  - apply all_valid_cons in Hv as (Hvo & f & s1 & Hs & Hr).
    destruct o as [x y type|sx sy dx dy]; simpl in Hm.
    + destruct (place_Inv s x y type HI Hvo)
        as (c & s1' & Hp & HI1 & _ & _ & P1 & P2 & P3 & P4).
      assert (step (Place x y type) s = Ok false s1') as Hs'.
      { simpl. by rewrite (bind_Ok _ _ _ _ _ Hp). }
      rewrite Hs in Hs'. injection Hs' as -> ->.
      destruct (IH s1') as (s' & Hrun & HI' & Q1 & Q2 & Q3 & Q4);
        [done|done|congruence|].
      exists s'. rewrite (run_cons_Ok _ _ _ _ _ _ _ Hs Hrun).
      rewrite P3 in *. rewrite P4 in *. rewrite P1 in *. done.
    + destruct (move_Inv s sx sy dx dy HI Hvo)
        as (f' & s1' & Hmv & HI1 & Hf & P1 & P2 & P3).
      simpl in Hs. rewrite Hs in Hmv. injection Hmv as <- <-.
      destruct (turns s + 1 =? turn_thres s) eqn:E; subst f.
      * apply Z.eqb_eq in E. destruct P3 as (P3 & P4 & P5).
        destruct (run_quiet r s1 HI1 Hr) as (s' & Hrun & HI' & Q1 & Q2 & Q3 & Q4);
          [lia|].
        exists s'. rewrite (run_cons_Ok (Move sx sy dx dy) _ _ _ _ _ _ Hs Hrun).
        rewrite P1, E. split; [done|]. split; [done|].
        repeat split; congruence.
      * apply Z.eqb_neq in E. destruct P3 as (P3 & P4 & P5).
        destruct (IH s1) as (s' & Hrun & HI' & Q1 & Q2 & Q3 & Q4);
          [done|done|lia|].
        exists s'. rewrite (run_cons_Ok (Move sx sy dx dy) _ _ _ _ _ _ Hs Hrun).
        rewrite P4 in *. rewrite P5 in *. rewrite P3 in *. done.
Qed.

(** C7.  Each shrink transition adds [turn_step] to [turn_thres] and
    then halves [turn_step] by floor division; the initial values are
    128 and 64, and every sequence of valid operations from the initial
    state that holds 128 moves runs to its end with exactly one shrink
    transition, on the move that brings [turns] to 128. *)
Theorem shrink_schedule :
  (forall s s',
      _shrink s = Ok tt s' ->
      turn_thres s' = turn_thres s + turn_step s
      /\ turn_step s' = turn_step s / 2)
  /\ turn_thres init = 128 /\ turn_step init = 64
  /\ (forall ops,
         all_valid ops init = true -> moves ops = 128 ->
         exists s, run ops init = Ok [128] s
                   /\ turns s = 128
                   /\ turn_thres s = 128 + 64 /\ turn_step s = 64 / 2).
Proof.
  split.
  { intros s s' H. apply shrink_clock in H as (_ & H1 & H2 & _). done. }
  split; [done|]. split; [done|].
  intros ops Hv Hm.
  destruct (run_first_shrink ops init init_Inv Hv)
    as (s & Hrun & _ & Q1 & Q2 & Q3 & _); [simpl; lia|].
  exists s. done.
Qed.

Lemma shrink_schedule_witness :
  (turn_thres (final (_shrink init)) = turn_thres init + turn_step init
   /\ turn_step (final (_shrink init)) = turn_step init / 2)
  /\ exists s, run (game 128) init = Ok [128] s
               /\ turns s = 128
               /\ turn_thres s = 128 + 64 /\ turn_step s = 64 / 2.
Proof.
  split.
  - apply (proj1 shrink_schedule init). vm_compute. reflexivity.
  - apply (proj2 (proj2 (proj2 shrink_schedule)) (game 128)).
    + vm_compute. reflexivity.
    + vm_compute. reflexivity.
Defined.

(** ** The ring counter *)

(** C4 fails on the code: [_shrink] ends with [self.border += b] after
    [b += 1], so [border] goes from [b] to [2 * b + 1].  In the game
    below, every operation valid, [border] is 0 after 127 moves, 1 after
    128, still 1 after 191, then 3 after 192 and 7 after 224. *)
Lemma border_after_shrinks :
  all_valid (game 224) init = true
  /\ border (final (run (game 127) init)) = 0
  /\ border (final (run (game 128) init)) = 1
  /\ border (final (run (game 191) init)) = 1
  /\ border (final (run (game 192) init)) = 3
  /\ border (final (run (game 224) init)) = 7
  /\ (exists s, run (game 224) init = Ok [128; 192; 224] s).
Proof.
  split; [by vm_compute|]. split; [by vm_compute|]. split; [by vm_compute|].
  split; [by vm_compute|]. split; [by vm_compute|]. split; [by vm_compute|].
  eexists. vm_compute. reflexivity.
Qed.

Lemma shrink_border s s' :
  _shrink s = Ok tt s' -> border s' = 2 * border s + 1.
Proof. intros H. apply shrink_clock in H as (H & _). lia. Qed.

(** ** Reading the invariant *)

Lemma getitem2_Val_lk2 {A} (g : list (list A)) x y a :
  0 <= x -> 0 <= y -> getitem2 g x y = Val a -> lk2 g x y = Some a.
Proof.
  intros Hx Hy. rewrite getitem2_nonneg by done.
  destruct (lk2 g x y); [|done]. by intros [= ->].
Qed.

Lemma lk2_in_grid s x y v :
  dims s -> lk2 (board s) x y = Some v -> in_grid x y.
Proof.
  intros [H1 H2] (Hx & Hy & row & Hr & Hv)%lk2_Some.
  pose proof (Forall_lookup_1 _ _ _ _ H2 Hr) as Hl. simpl in Hl.
  apply lookup_lt_Some in Hr, Hv. unfold in_grid. lia.
Qed.

Lemma range_lookup a b k :
  (Z.of_nat k < b - a) -> range a b !! k = Some (a + Z.of_nat k).
Proof.
  intros H. unfold range. rewrite list_lookup_fmap.
  rewrite lookup_seq_lt by lia. done.
Qed.

Lemma lk2_expect b x y :
  in_grid x y -> lk2 (expect b) x y = Some (expect_cls b x y).
Proof.
  intros [Hx Hy]. unfold expect.
  apply (lk2_intro _ _ _ ((fun y => expect_cls b x y) <$> range 0 8));
    [lia|lia| |].
  - rewrite list_lookup_fmap, range_lookup by lia. simpl.
    by rewrite Z2Nat.id by lia.
  - rewrite list_lookup_fmap, range_lookup by lia. simpl.
    by rewrite Z2Nat.id by lia.
Qed.

Lemma expect_cls_not_Junk b x y : expect_cls b x y <> Junk.
Proof.
  unfold expect_cls.
  destruct (_ <? _); [done|]. by destruct (_ && _).
Qed.

(** In a state of a game every cell holds a code of the docstring, of
    the class that [border] fixes for it. *)
Lemma Inv_cell s x y v :
  Inv s -> lk2 (board s) x y = Some v ->
  in_grid x y /\ classify v = expect_cls (border s) x y.
Proof.
  intros HI Hv. pose proof (Inv_facts s HI) as (Hd & _).
  pose proof (lk2_in_grid s x y v Hd Hv) as Hin. split; [done|].
  pose proof (lk2_expect (border s) x y Hin) as He.
  rewrite <- (inv_skel s HI) in He. unfold skel in He.
  rewrite lk2_fmap, Hv in He. by injection He.
Qed.

Lemma Inv_cell_total s x y :
  Inv s -> in_grid x y ->
  exists v, lk2 (board s) x y = Some v /\ cell s x y = Val v
            /\ classify v = expect_cls (border s) x y.
Proof.
  intros HI Hin. pose proof (Inv_facts s HI) as (Hd & _).
  destruct (dims_lk2 s x y Hd Hin) as [v Hv]. exists v.
  split; [done|]. split; [by apply getitem2_lk2|].
  by apply (Inv_cell s x y v).
Qed.

Lemma classify_Blocked v : classify v = Blocked -> v = 0x30.
Proof.
  unfold classify. destruct (_ || _); [done|].
  destruct (v =? 48) eqn:E; [lia|]. by destruct (v =? 64).
Qed.

Lemma classify_Removed v : classify v = Removed -> v = 0x40.
Proof.
  unfold classify. destruct (_ || _); [done|].
  destruct (v =? 48) eqn:E; [done|]. destruct (v =? 64) eqn:E'; [lia|done].
Qed.

(** ** Agreement of the grid and the registries *)

(** C2.  After every sequence of valid [place] and [move] operations
    from the initial state: every registry entry that holds a position
    names a cell of the grid that holds exactly that side's piece with
    that id; every cell that holds a piece code has the matching registry
    entry, at its own position; and [num_pieces[side]] is the number of
    occupied slots of that side's registry. *)
Theorem grid_registry_agreement ops l s :
  all_valid ops init = true -> run ops init = Ok l s ->
  (forall side id r c,
      side = 0 \/ side = 1 -> 0 <= id < 12 ->
      getitem2 (pieces s) side id = Val (Some (r, c)) ->
      in_grid r c /\ cell s r c = Val (side * 0x10 + id))
  /\ (forall r c p,
         in_grid r c -> cell s r c = Val p -> p < 0x20 ->
         (p / 0x10 = 0 \/ p / 0x10 = 1) /\ 0 <= p mod 0x10 < 12
         /\ getitem2 (pieces s) (p / 0x10) (p mod 0x10) = Val (Some (r, c)))
  /\ (forall side,
         side = 0 \/ side = 1 ->
         exists row, getitem (pieces s) side = Val row
                     /\ getitem (num_pieces s) side = Val (count_some row)).
Proof.
  intros Hv Hrun. pose proof (run_init_Inv ops l s Hv Hrun) as HI.
  pose proof (Inv_facts s HI) as (Hd & _).
  pose proof (inv_agree s HI) as Hag. pose proof (inv_shape s HI) as Hsh.
  split; [|split].
  - intros side id r c Hside Hid Hget.
    apply getitem2_Val_lk2 in Hget; [|lia|lia].
    destruct (piece_code side id Hside Hid) as (Hp & Hdiv & Hmod).
    assert (reg s (side * 16 + id) = Some (Some (r, c))) as Hreg.
    { unfold reg. by rewrite Hdiv, Hmod. }
    pose proof (ag_reg _ _ Hag _ _ _ Hp Hreg I) as Hl.
    split; [by apply (lk2_in_grid s r c (side * 16 + id) Hd)
           |by apply getitem2_lk2].
  - intros r c p [Hr Hc] Hcell Hlt.
    apply cell_lk2 in Hcell; [|lia|lia].
    destruct (Inv_cell s r c p HI Hcell) as [_ Hcl].
    assert (is_piece p = true) as Hp.
    { apply classify_low; [|done]. rewrite Hcl. apply expect_cls_not_Junk. }
    pose proof (is_piece_side p Hp) as [Hs Hi].
    split; [done|]. split; [done|].
    apply getitem2_lk2. by apply (ag_grid _ _ Hag).
  - intros side Hside. destruct Hsh as (S1 & _ & S3 & _).
    destruct (lookup_lt_is_Some_2 (pieces s) (Z.to_nat side)) as [row Hrow]; [lia|].
    exists row. split; [apply getitem_Val; [lia|done]|].
    apply getitem_Val; [lia|]. by apply (ag_num _ _ Hag).
Qed.

Lemma grid_registry_agreement_witness :
  let s := final (run (game 3) init) in
  (forall side id r c,
      side = 0 \/ side = 1 -> 0 <= id < 12 ->
      getitem2 (pieces s) side id = Val (Some (r, c)) ->
      in_grid r c /\ cell s r c = Val (side * 0x10 + id))
  /\ (forall r c p,
         in_grid r c -> cell s r c = Val p -> p < 0x20 ->
         (p / 0x10 = 0 \/ p / 0x10 = 1) /\ 0 <= p mod 0x10 < 12
         /\ getitem2 (pieces s) (p / 0x10) (p mod 0x10) = Val (Some (r, c)))
  /\ (forall side,
         side = 0 \/ side = 1 ->
         exists row, getitem (pieces s) side = Val row
                     /\ getitem (num_pieces s) side = Val (count_some row)).
Proof.
  apply (grid_registry_agreement (game 3) []).
  - vm_compute. reflexivity.
  - vm_compute. reflexivity.
Defined.

(** ** The flank test never reaches a block *)

Lemma safe_flank K b x y dx dy :
  safe_skel K b = true -> 0 <= b -> (dx, dy) ∈ dirs ->
  inboard_at b (x + dx) (y + dy) = true ->
  inboard_at b (x - dx) (y - dy) = true ->
  lk2 K x y = Some Free.
Proof.
  intros Hs Hb Hd H1 H2.
  pose proof (safe_site K b (x - dx) (y - dy) Hs Hb) as Hsite.
  pose proof (site_safe_dir K b (x - dx) (y - dy) dx dy Hsite Hd) as H.
  replace (x - dx + dx) with x in H by lia.
  replace (y - dy + dy) with y in H by lia.
  by apply H.
Qed.

(** C9, as stated, fails: blocks do not stay on the boundary of the
    active area.  After the 192nd move of the game [border] is 3 and the
    block on [(2, 2)] lies outside the active area; after the 224th,
    [border] is 7, no cell is active, and the block on [(3, 3)] has no
    removed square next to it either. *)
Lemma block_off_the_boundary :
  all_valid (game 224) init = true
  /\ (let s := final (run (game 192) init) in
      cell s 2 2 = Val 0x30 /\ _inboard s 2 2 = false)
  /\ (let s := final (run (game 224) init) in
      cell s 3 3 = Val 0x30 /\ _inboard s 3 3 = false
      /\ cell s 2 3 = Val 0x20 /\ cell s 4 3 = Val 0x30
      /\ cell s 3 2 = Val 0x20 /\ cell s 3 4 = Val 0x30).
Proof. by vm_compute. Qed.

(** C9, amended.  In every state of a game: at a block or a removed
    square the flank test fails one of its two [_inboard] checks, so it
    answers false before [oppo] is indexed; [_elim] at any cell returns
    and leaves every block, every removed square and the shape of the
    board as they are; and every valid operation returns, so no lookup
    in [oppo] goes out of range while it runs. *)
Theorem flank_test_safe ops l s :
  all_valid ops init = true -> run ops init = Ok l s ->
  (forall x y dx dy v,
      (dx, dy) ∈ dirs -> in_grid x y -> cell s x y = Val v ->
      v = 0x30 \/ v = 0x40 ->
      _inboard s (x + dx) (y + dy) && _inboard s (x - dx) (y - dy) = false
      /\ _surrounded s x y dx dy = Val false)
  /\ (forall x y,
         exists s', _elim x y s = Ok tt s' /\ skel s' = skel s
                    /\ forall r c v, in_grid r c -> cell s r c = Val v ->
                                     v = 0x30 \/ v = 0x40 ->
                                     cell s' r c = Val v)
  /\ (forall o, valid_op s o = true -> exists f s', step o s = Ok f s').
Proof.
  intros Hv Hrun. pose proof (run_init_Inv ops l s Hv Hrun) as HI.
  pose proof (Inv_facts s HI) as (Hd & Hb & Hsafe).
  pose proof (sched_border s (inv_sched s HI)) as Hb4.
  split; [|split].
  - intros x y dx dy v Hdir [Hx Hy] Hcell Hv'.
    apply cell_lk2 in Hcell; [|lia|lia].
    destruct (Inv_cell s x y v HI Hcell) as [_ Hcl].
    assert (_inboard s (x + dx) (y + dy) && _inboard s (x - dx) (y - dy)
            = false) as Hin.
    { destruct (_inboard s (x + dx) (y + dy)) eqn:E1; [|done].
      destruct (_inboard s (x - dx) (y - dy)) eqn:E2; [|done]. exfalso.
      pose proof (safe_flank (expect (border s)) (border s) x y dx dy
                    (safe_expect _ Hb4) Hb Hdir E1 E2) as Hf.
      rewrite lk2_expect in Hf by done. injection Hf as Hf.
      rewrite <- Hcl in Hf. destruct Hv' as [-> | ->]; by vm_compute in Hf. }
    split; [done|]. unfold _surrounded.
    destruct (_inboard s (x + dx) (y + dy)); [|done].
    simpl in Hin. by rewrite Hin.
  - intros x y.
    destruct (elim_mid_none (expect (border s)) s s x y) as (s' & He & Hm);
      [by apply Hsafe|done| |].
    { split; try done. apply (inv_skel s HI). apply (inv_shape s HI).
      apply (inv_agree s HI). }
    exists s'. pose proof (mid_skel _ _ _ _ Hm) as Hsk.
    split; [done|]. split; [by rewrite Hsk, (inv_skel s HI)|].
    intros r c v Hin Hcell Hv'.
    pose proof Hin as [Hr Hc].
    apply cell_lk2 in Hcell; [|lia|lia].
    destruct (Inv_cell s r c v HI Hcell) as [_ Hcl].
    destruct (dims_lk2 s' r c (mid_dims _ _ _ _ Hm) Hin) as [v' Hv2].
    assert (classify v' = classify v) as Hsame.
    { pose proof (lk2_expect (border s) r c Hin) as He2.
      rewrite <- Hsk in He2. unfold skel in He2.
      rewrite lk2_fmap, Hv2 in He2. injection He2 as He2. congruence. }
    apply getitem2_lk2. rewrite Hv2. f_equal.
    destruct Hv' as [-> | ->].
    + by apply classify_Blocked.
    + by apply classify_Removed.
  - intros o Hvo. destruct (step_Inv s o HI Hvo) as (f & s' & H & _). eauto.
Qed.

Lemma flank_test_safe_witness :
  let s := final (run (game 192) init) in
  (forall x y dx dy v,
      (dx, dy) ∈ dirs -> in_grid x y -> cell s x y = Val v ->
      v = 0x30 \/ v = 0x40 ->
      _inboard s (x + dx) (y + dy) && _inboard s (x - dx) (y - dy) = false
      /\ _surrounded s x y dx dy = Val false)
  /\ (forall x y,
         exists s', _elim x y s = Ok tt s' /\ skel s' = skel s
                    /\ forall r c v, in_grid r c -> cell s r c = Val v ->
                                     v = 0x30 \/ v = 0x40 ->
                                     cell s' r c = Val v)
  /\ (forall o, valid_op s o = true -> exists f s', step o s = Ok f s').
Proof.
  apply (flank_test_safe (game 192) [128; 192]).
  - vm_compute. reflexivity.
  - vm_compute. reflexivity.
Defined.

(** ** Legal moves *)

Lemma move_geometry_expect b :
  b ∈ [0; 1; 3; 7] -> move_geometry (expect b) b = true.
Proof.
  intros H. repeat (apply elem_of_cons in H as [->|H]); try by vm_compute.
  by apply elem_of_nil in H.
Qed.

Lemma move_geometry_dir K b x y dx dy :
  move_geometry K b = true -> in_grid x y -> lk2 K x y = Some Free ->
  (dx, dy) ∈ dirs ->
  let a := inboard_at b (x + dx) (y + dy) in
  let f := inboard_at b (x + dx + dx) (y + dy + dy) in
  (a = false -> f = false)
  /\ (a = true -> lk2 K (x + dx) (y + dy) = Some Blocked -> f = false)
  /\ (a = true -> lk2 K (x + dx) (y + dy) = Some Free
                  \/ lk2 K (x + dx) (y + dy) = Some Blocked).
Proof.
  unfold move_geometry. rewrite forallb_forall. intros H [Hx Hy] Hf Hd.
  specialize (H (x, y)). cbv beta iota in H.
  rewrite (bool_decide_eq_true_2 _ Hf), implb_true_l in H.
  assert (In (x, y) (product (range 0 8) (range 0 8))) as Hin.
  { apply list_elem_of_In, elem_of_product. split; apply elem_of_range; lia. }
  specialize (H Hin). rewrite forallb_forall in H.
  apply list_elem_of_In in Hd. specialize (H (dx, dy) Hd). cbv beta iota zeta in H.
  apply andb_true_iff in H as [H H3]. apply andb_true_iff in H as [H1 H2].
  cbv zeta.
  set (a := inboard_at b (x + dx) (y + dy)) in *.
  set (f := inboard_at b (x + dx + dx) (y + dy + dy)) in *.
  split; [|split].
  - intros Ha. rewrite Ha in H1. simpl in H1. by destruct f.
  - intros Ha Hb. rewrite Ha, (bool_decide_eq_true_2 _ Hb) in H2.
    simpl in H2. by destruct f.
  - intros Ha. rewrite Ha in H3. simpl in H3.
    apply orb_true_iff in H3 as [H3|H3]; apply bool_decide_eq_true_1 in H3; auto.
Qed.

(** [_try_move] from a cell that holds a piece, in a state of a game. *)
Lemma try_move_spec s x y dx dy p :
  Inv s -> lk2 (board s) x y = Some p -> is_piece p = true ->
  (dx, dy) ∈ dirs ->
  _try_move s x y dx dy = Val (spec_try_move s x y dx dy).
Proof.
  intros HI Hp Hpc Hd.
  pose proof (Inv_facts s HI) as (Hdims & Hb & _).
  pose proof (sched_border s (inv_sched s HI)) as Hb4.
  destruct (Inv_cell s x y p HI Hp) as [Hin Hcl].
  assert (lk2 (expect (border s)) x y = Some Free) as Hfree.
  { rewrite lk2_expect by done. rewrite <- Hcl. f_equal.
    by apply classify_piece. }
  destruct (move_geometry_dir _ _ x y dx dy (move_geometry_expect _ Hb4)
              Hin Hfree Hd) as (G1 & G2 & G3).
  unfold _try_move, spec_try_move, empty_active, occupied_or_blocked.
  simpl fst. simpl snd. unfold _inboard in *.
  destruct (inboard_at (border s) (x + dx) (y + dy)) eqn:Ea; simpl.
  - destruct (Inv_cell_total s (x + dx) (y + dy) HI) as (c & Hc & Hcell & Hcc).
    { apply (inboard_in_grid s); [done|]. by unfold _inboard. }
    rewrite Hcell, Hc. simpl.
    rewrite lk2_expect in G2, G3
      by (apply (inboard_in_grid s); [done|by unfold _inboard]).
    rewrite <- Hcc in G2, G3.
    destruct (c =? 48) eqn:E48.
    + apply Z.eqb_eq in E48 as ->.
      rewrite bool_decide_eq_false_2 by done. simpl.
      by rewrite G2.
    + destruct (c =? 32) eqn:E32.
      * apply Z.eqb_eq in E32 as ->. by rewrite bool_decide_eq_true_2.
      * rewrite bool_decide_eq_false_2 by (intros [= ->]; done).
        assert (is_piece c = true) as Hcp.
        { destruct (G3 eq_refl) as [[= G]|[= G]].
          - apply classify_Free in G as [->|G]; done.
          - apply classify_Blocked in G. lia. }
        rewrite Hcp. simpl.
        destruct (inboard_at (border s) (x + dx + dx) (y + dy + dy)) eqn:Ef;
          [|done]. simpl.
        destruct (Inv_cell_total s (x + dx + dx) (y + dy + dy) HI)
          as (c2 & Hc2 & Hcell2 & _).
        { apply (inboard_in_grid s); [done|]. by unfold _inboard. }
        rewrite Hcell2, Hc2. simpl.
        destruct (c2 =? 32) eqn:E2.
        -- apply Z.eqb_eq in E2 as ->. by rewrite bool_decide_eq_true_2.
        -- rewrite bool_decide_eq_false_2; [done|]. intros [= ->]. done.
  - rewrite (G1 eq_refl). simpl. by rewrite andb_false_r.
Qed.

Lemma emap_Val {A B} (f : A -> Exc B) (g : A -> B) l :
  (forall a, a ∈ l -> f a = Val (g a)) -> emap f l = Val (g <$> l).
Proof.
  induction l as [|a l IH]; intros H; [done|]. simpl.
  rewrite H by left. simpl. rewrite IH; [done|].
  intros a' Ha'. apply H. by right.
Qed.

Lemma live_piece s side id x y :
  Inv s -> side = 0 \/ side = 1 -> 0 <= id < 12 ->
  lk2 (pieces s) side id = Some (Some (x, y)) ->
  lk2 (board s) x y = Some (side * 0x10 + id)
  /\ is_piece (side * 0x10 + id) = true.
Proof.
  intros HI Hside Hid Hl.
  destruct (piece_code side id Hside Hid) as (Hp & Hdiv & Hmod).
  split; [|done]. apply (ag_reg _ _ (inv_agree s HI)); [done| |done].
  unfold reg. by rewrite Hdiv, Hmod.
Qed.

Lemma valid_move_spec s side row :
  Inv s -> side = 0 \/ side = 1 ->
  pieces s !! Z.to_nat side = Some row ->
  valid_move s side
  = Val ((fun pos =>
            (pos, omap id ((fun d => spec_try_move s pos.1 pos.2 d.1 d.2)
                             <$> dirs)))
           <$> omap id row).
Proof.
  intros HI Hside Hrow. unfold valid_move.
  rewrite (getitem_Val _ _ row) by (lia || done). cbn [ebind].
  apply emap_Val. intros [x y] Hpos. cbv beta iota.
  apply list_elem_of_omap in Hpos as (e & He & Hid). unfold id in Hid. subst e.
  apply list_elem_of_lookup in He as [i Hi].
  pose proof (inv_shape s HI) as (_ & Hlen & _).
  pose proof (Forall_lookup_1 _ _ _ _ Hlen Hrow) as Hl. simpl in Hl.
  pose proof (lookup_lt_Some _ _ _ Hi) as Hlt.
  destruct (live_piece s side (Z.of_nat i) x y HI Hside) as [Hp Hpc]; [lia| |].
  { apply (lk2_intro _ _ _ row); [lia|lia|done|]. by rewrite Nat2Z.id. }
  rewrite (emap_Val _ (fun d => spec_try_move s x y d.1 d.2)); [done|].
  intros [dx dy] Hd. by apply (try_move_spec s x y dx dy _ HI Hp).
Qed.

(** C5.  In every state of a game, for every live piece and every
    orthogonal direction, [_try_move] yields exactly the destination of
    the rule of the specification; [valid_move] lists, for each live
    piece of the side, the destinations of that rule over the four
    directions; and a move is valid exactly when it goes from a live
    piece to such a destination.  (The code never jumps over a block,
    but in these states no block next to a piece has an active cell
    behind it, so the rule and the code agree.) *)
Theorem legal_moves_rule ops l s :
  all_valid ops init = true -> run ops init = Ok l s ->
  (forall side id x y dx dy,
      side = 0 \/ side = 1 -> 0 <= id < 12 ->
      getitem2 (pieces s) side id = Val (Some (x, y)) ->
      (dx, dy) ∈ dirs ->
      _try_move s x y dx dy = Val (spec_try_move s x y dx dy))
  /\ (forall side,
         side = 0 \/ side = 1 ->
         exists row,
           getitem (pieces s) side = Val row
           /\ valid_move s side
              = Val ((fun pos =>
                        (pos, omap id ((fun d => spec_try_move s pos.1 pos.2
                                                   d.1 d.2) <$> dirs)))
                       <$> omap id row))
  /\ (forall sx sy tx ty,
         valid_op s (Move sx sy tx ty) = true <->
         exists side id dx dy,
           (side = 0 \/ side = 1) /\ 0 <= id < 12
           /\ getitem2 (pieces s) side id = Val (Some (sx, sy))
           /\ (dx, dy) ∈ dirs
           /\ spec_try_move s sx sy dx dy = Some (tx, ty)).
Proof.
  intros Hv Hrun. pose proof (run_init_Inv ops l s Hv Hrun) as HI.
  pose proof (Inv_facts s HI) as (Hd & Hb & _).
  pose proof (inv_shape s HI) as Hsh.
  assert (forall side, side = 0 \/ side = 1 ->
            exists row, pieces s !! Z.to_nat side = Some row) as Hrows.
  { intros side Hside. destruct Hsh as (S1 & _).
    apply lookup_lt_is_Some_2. lia. }
  split; [|split].
  - intros side id x y dx dy Hside Hid Hget Hdir.
    apply getitem2_Val_lk2 in Hget; [|lia|lia].
    destruct (live_piece s side id x y HI Hside Hid Hget) as [Hp Hpc].
    by apply (try_move_spec s x y dx dy _ HI Hp).
  - intros side Hside. destruct (Hrows side Hside) as [row Hrow].
    exists row. split; [apply getitem_Val; [lia|done]|].
    by apply valid_move_spec.
  - intros sx sy tx ty. split.
    + intros Hvo.
      destruct (valid_move_op s sx sy tx ty Hsh (inv_agree s HI) Hb Hvo)
        as (p & Hp & Hreg & Hsrc & _ & _ & ddx & ddy & Hdir & Htry).
      pose proof (is_piece_side p Hp) as [Hside Hid].
      exists (p / 16), (p mod 16), ddx, ddy.
      split; [done|]. split; [done|]. split; [by apply getitem2_lk2|].
      split; [done|].
      rewrite (try_move_spec s sx sy ddx ddy p HI Hsrc Hp Hdir) in Htry.
      by injection Htry.
    + intros (side & i & dx & dy & Hside & Hid & Hget & Hdir & Hspec).
      apply getitem2_Val_lk2 in Hget; [|lia|lia].
      destruct (Hrows side Hside) as [row Hrow].
      unfold valid_op. apply existsb_exists. exists side. split.
      { simpl. destruct Hside as [-> | ->]; auto. }
      rewrite (valid_move_spec s side row HI Hside Hrow).
      apply existsb_exists.
      exists ((sx, sy), omap id ((fun d => spec_try_move s sx sy d.1 d.2)
                                   <$> dirs)).
      split.
      * apply list_elem_of_In.
        apply (list_elem_of_fmap_2'
                 (fun pos => (pos, omap id ((fun d => spec_try_move s pos.1
                                                 pos.2 d.1 d.2) <$> dirs)))
                 _ (sx, sy)); [|done].
        apply list_elem_of_omap. exists (Some (sx, sy)). split; [|done].
        apply lk2_Some in Hget as (_ & _ & row' & Hrow' & Hi).
        rewrite Hrow in Hrow'. injection Hrow' as <-.
        by apply list_elem_of_lookup_2 in Hi.
      * cbv beta iota. rewrite bool_decide_eq_true_2 by done.
        rewrite andb_true_l. apply bool_decide_eq_true_2.
        apply list_elem_of_omap. exists (Some (tx, ty)). split; [|done].
        by apply (list_elem_of_fmap_2' _ _ (dx, dy)).
Qed.

Lemma legal_moves_rule_witness :
  let s := final (run (game 130) init) in
  (forall side id x y dx dy,
      side = 0 \/ side = 1 -> 0 <= id < 12 ->
      getitem2 (pieces s) side id = Val (Some (x, y)) ->
      (dx, dy) ∈ dirs ->
      _try_move s x y dx dy = Val (spec_try_move s x y dx dy))
  /\ (forall side,
         side = 0 \/ side = 1 ->
         exists row,
           getitem (pieces s) side = Val row
           /\ valid_move s side
              = Val ((fun pos =>
                        (pos, omap id ((fun d => spec_try_move s pos.1 pos.2
                                                   d.1 d.2) <$> dirs)))
                       <$> omap id row))
  /\ (forall sx sy tx ty,
         valid_op s (Move sx sy tx ty) = true <->
         exists side id dx dy,
           (side = 0 \/ side = 1) /\ 0 <= id < 12
           /\ getitem2 (pieces s) side id = Val (Some (sx, sy))
           /\ (dx, dy) ∈ dirs
           /\ spec_try_move s sx sy dx dy = Some (tx, ty)).
Proof.
  apply (legal_moves_rule (game 130) [128]).
  - vm_compute. reflexivity.
  - vm_compute. reflexivity.
Defined.

(** ** What a shrink transition leaves on the grid *)

(** C3, as stated, fails.  In the game the 128th move, valid like all
    before it, shrinks the board; [(1, 2)], [(2, 1)] and [(3, 6)] lie on
    the perimeter of the next ring inward and hold a space afterwards,
    not a block. *)
Lemma next_ring_not_blocked :
  all_valid (game 128) init = true
  /\ (exists s, run (game 128) init = Ok [128] s
                /\ ring_of 1 2 = 1 /\ cell s 1 2 = Val 0x20
                /\ ring_of 2 1 = 1 /\ cell s 2 1 = Val 0x20
                /\ ring_of 3 6 = 1 /\ cell s 3 6 = Val 0x20
                /\ cell s 1 1 = Val 0x30 /\ cell s 0 3 = Val 0x40).
Proof.
  split; [by vm_compute|]. eexists. split; [vm_compute; reflexivity|].
  by vm_compute.
Qed.

Lemma shrink_picture_ok b : b ∈ [0; 1; 3] -> shrink_picture b = true.
Proof.
  intros H. repeat (apply elem_of_cons in H as [->|H]); try by vm_compute.
  by apply elem_of_nil in H.
Qed.

Lemma shrink_picture_cell b x y :
  shrink_picture b = true -> in_grid x y ->
  let c := expect_cls (b + (b + 1)) x y in
  if bool_decide ((x, y) ∈ ring_cells (b + 1) (6 - b)) then c = Blocked
  else if ring_of x y =? b then c = Removed
  else if ring_of x y =? b + 1 then c = Free
  else True.
Proof.
  unfold shrink_picture. rewrite !andb_true_iff. intros [[H _] _] [Hx Hy].
  rewrite forallb_forall in H. specialize (H (x, y)). cbv beta iota zeta in H.
  cbv zeta.
  assert (In (x, y) (product (range 0 8) (range 0 8))) as Hin.
  { apply list_elem_of_In, elem_of_product. split; apply elem_of_range; lia. }
  specialize (H Hin).
  destruct (bool_decide _); [by apply bool_decide_eq_true_1 in H|].
  destruct (_ =? b); [by apply bool_decide_eq_true_1 in H|].
  destruct (_ =? b + 1); [by apply bool_decide_eq_true_1 in H|done].
Qed.

Lemma shrink_picture_corner b x y :
  shrink_picture b = true -> (x, y) ∈ ring_cells (b + 1) (6 - b) ->
  in_grid x y.
Proof.
  unfold shrink_picture. rewrite !andb_true_iff. intros [[_ H] _] Hc.
  rewrite forallb_forall in H. apply list_elem_of_In in Hc.
  specialize (H (x, y) Hc). cbv beta iota in H.
  rewrite !andb_true_iff in H. unfold in_grid. lia.
Qed.

(** C3, amended.  In every shrink transition of a game, entered with
    [border = b]: the second loop of [_shrink] runs over the four cells
    [ring_cells (b + 1) (6 - b)], the corners of the next ring inward
    (the loop variable [i] is left at [6 - b]), turning each into a block
    and running [_elim] at it; afterwards these four cells are blocks,
    every other cell of ring [b] is removed, and every other cell of the
    perimeter of ring [b + 1] is not a block: it holds a space or a
    piece. *)
Theorem shrink_blocks_corners ops l s sx sy dx dy s' :
  all_valid ops init = true -> run ops init = Ok l s ->
  valid_op s (Move sx sy dx dy) = true ->
  move sx sy dx dy s = Ok true s' ->
  (forall x y, (x, y) ∈ ring_cells (border s + 1) (6 - border s) ->
               in_grid x y /\ cell s' x y = Val 0x30)
  /\ (forall x y, in_grid x y -> ring_of x y = border s ->
                  (x, y) ∉ ring_cells (border s + 1) (6 - border s) ->
                  cell s' x y = Val 0x40)
  /\ (forall x y, in_grid x y -> ring_of x y = border s + 1 ->
                  (x, y) ∉ ring_cells (border s + 1) (6 - border s) ->
                  exists v, cell s' x y = Val v
                            /\ (v = 0x20 \/ is_piece v = true))
  /\ last (range (border s) (7 - border s)) = Some (6 - border s)
  /\ (forall c, block_cell c = (wipe c.1 c.2 0x30 >> _elim c.1 c.2)).
Proof.
  intros Hv Hrun Hvo Hmv. pose proof (run_init_Inv ops l s Hv Hrun) as HI.
  pose proof (Inv_facts s HI) as (Hd & Hb & _).
  destruct (valid_move_op s sx sy dx dy (inv_shape s HI) (inv_agree s HI) Hb Hvo)
    as (_ & _ & _ & _ & Hinb & _).
  assert (border s ∈ [0; 1; 3]) as Hb3.
  { destruct (sched_cases s (inv_sched s HI))
      as [(-> & _)|[(-> & _)|[(-> & _)|(E7 & _)]]]; [repeat constructor..|].
    by rewrite (inboard_7 s dx dy E7) in Hinb. }
  destruct (move_Inv s sx sy dx dy HI Hvo) as (f & s2 & Hmv' & HI' & _ & _ & _ & Hf).
  rewrite Hmv in Hmv'. injection Hmv' as <- <-.
  destruct Hf as (Hbd & _).
  pose proof (shrink_picture_ok _ Hb3) as Hpic.
  assert (forall x y, in_grid x y ->
            exists v, cell s' x y = Val v
                      /\ classify v = expect_cls (border s + (border s + 1)) x y)
    as Hcell.
  { intros x y Hin.
    destruct (Inv_cell_total s' x y HI' Hin) as (v & _ & Hc & Hcl).
    exists v. by rewrite <- Hbd. }
  split; [|split; [|split; [|split]]].
  - intros x y Hc. pose proof (shrink_picture_corner _ x y Hpic Hc) as Hin.
    split; [done|]. destruct (Hcell x y Hin) as (v & Hcv & Hcl).
    pose proof (shrink_picture_cell _ x y Hpic Hin) as H. cbv zeta in H.
    rewrite bool_decide_eq_true_2 in H by done. rewrite H in Hcl.
    by rewrite (classify_Blocked v Hcl) in Hcv.
  - intros x y Hin Hring Hnc. destruct (Hcell x y Hin) as (v & Hcv & Hcl).
    pose proof (shrink_picture_cell _ x y Hpic Hin) as H. cbv zeta in H.
    rewrite bool_decide_eq_false_2 in H by done.
    rewrite Hring, Z.eqb_refl in H. rewrite H in Hcl.
    by rewrite (classify_Removed v Hcl) in Hcv.
  - intros x y Hin Hring Hnc. destruct (Hcell x y Hin) as (v & Hcv & Hcl).
    pose proof (shrink_picture_cell _ x y Hpic Hin) as H. cbv zeta in H.
    rewrite bool_decide_eq_false_2 in H by done.
    rewrite Hring, Z.eqb_refl in H.
    destruct (border s + 1 =? border s) eqn:E; [lia|].
    rewrite H in Hcl. exists v. split; [done|]. by apply classify_Free.
  - unfold shrink_picture in Hpic. rewrite !andb_true_iff in Hpic.
    destruct Hpic as [_ Hl]. by apply bool_decide_eq_true_1 in Hl.
  - by intros [x y].
Qed.

Lemma shrink_blocks_corners_witness :
  let s := final (run (game 127) init) in
  let s' := final (move 4 4 4 3 s) in
  (forall x y, (x, y) ∈ ring_cells (border s + 1) (6 - border s) ->
               in_grid x y /\ cell s' x y = Val 0x30)
  /\ (forall x y, in_grid x y -> ring_of x y = border s ->
                  (x, y) ∉ ring_cells (border s + 1) (6 - border s) ->
                  cell s' x y = Val 0x40)
  /\ (forall x y, in_grid x y -> ring_of x y = border s + 1 ->
                  (x, y) ∉ ring_cells (border s + 1) (6 - border s) ->
                  exists v, cell s' x y = Val v
                            /\ (v = 0x20 \/ is_piece v = true))
  /\ last (range (border s) (7 - border s)) = Some (6 - border s)
  /\ (forall c, block_cell c = (wipe c.1 c.2 0x30 >> _elim c.1 c.2)).
Proof.
  apply (shrink_blocks_corners (game 127) [] _ 4 4 4 3).
  - vm_compute. reflexivity.
  - vm_compute. reflexivity.
  - vm_compute. reflexivity.
  - vm_compute. reflexivity.
Defined.

(** A fresh block captures: before the 128th move of the second game
    the first side's piece 0 stands on [(2, 6)] above a piece of the
    second side; the shrink turns [(1, 6)] into a block and [_elim]
    there takes the piece, flanked by the block and the enemy. *)
Lemma fresh_block_captures :
  all_valid (game2 128) init = true
  /\ (let s := final (run (game2 127) init) in
      cell s 1 6 = Val 0x20 /\ cell s 2 6 = Val 0x00 /\ cell s 3 6 = Val 0x10
      /\ num_pieces s = [2; 1])
  /\ (let s := final (run (game2 128) init) in
      cell s 1 6 = Val 0x30 /\ cell s 2 6 = Val 0x20 /\ cell s 3 6 = Val 0x10
      /\ num_pieces s = [1; 1]
      /\ getitem2 (pieces s) 0 0 = Val None).
Proof. by vm_compute. Qed.

(** ** A piece placed between two hostile cells *)

Lemma count_mono ops s l s' t c :
  Inv s -> all_valid ops s = true -> run ops s = Ok l s' ->
  count s !! t = Some c ->
  exists c', count s' !! t = Some c' /\ c <= c'.
Proof.
  revert s l c. induction ops as [|o r IH]; intros s l c HI Hv Hrun Hc.
  - simpl in Hrun. unfold ret in Hrun. injection Hrun as _ <-.
    exists c. split; [done|lia].
  - apply all_valid_cons in Hv as (Hvo & f & s1 & Hs & Hr).
    simpl in Hrun. rewrite (bind_Ok _ _ _ _ _ Hs) in Hrun.
    erewrite bind_Ok in Hrun; [|by apply read_Val].
    apply bind_Ok_inv in Hrun as (l1 & s2 & Hrun & Hret).
    unfold ret in Hret. injection Hret as _ <-.
    destruct o as [x y type|sx sy dx dy].
    + destruct (place_Inv s x y type HI Hvo)
        as (c0 & s1' & Hp & HI1 & Hc0 & Hcnt & _).
      simpl in Hs. rewrite (bind_Ok _ _ _ _ _ Hp) in Hs.
      unfold ret in Hs. injection Hs as _ <-.
      destruct (decide (Z.to_nat type = t)) as [<-|Hne].
      * assert (count s1' !! Z.to_nat type = Some (c0 + 1)) as Hc1.
        { rewrite Hcnt. apply list_lookup_insert_eq.
          by apply lookup_lt_Some in Hc0. }
        destruct (IH s1' l1 (c0 + 1) HI1 Hr Hrun Hc1) as (c' & Hc' & Hle).
        exists c'. split; [done|]. rewrite Hc in Hc0. injection Hc0 as <-. lia.
      * apply (IH s1' l1 c HI1 Hr Hrun).
        rewrite Hcnt. by rewrite list_lookup_insert_ne.
    + destruct (move_Inv s sx sy dx dy HI Hvo)
        as (f' & s1' & Hmv & HI1 & _ & _ & Hcnt & _).
      simpl in Hs. rewrite Hs in Hmv. injection Hmv as <- <-.
      apply (IH s1 l1 c HI1 Hr Hrun). by rewrite Hcnt.
Qed.

(** C6, as stated, fails.  After the 192nd move of the game [border] is
    3; [(2, 3)] is a space of the first side's zone, with the block on
    [(2, 2)] and the second side's piece on [(2, 4)] on either side.
    Placing there is valid, and the piece placed is recorded:
    [num_pieces[0]] goes from 1 to 2.  The two flanking cells are
    hostile but outside the active area. *)
Lemma flanked_outside_active_area :
  all_valid (game 192 ++ [Place 2 3 0]) init = true
  /\ (let s := final (run (game 192) init) in
      num_pieces s = [1; 1] /\ count s = [1; 1]
      /\ _inboard s 2 2 = false /\ _inboard s 2 4 = false
      /\ (let s1 := final (place_piece 2 3 0 s) in
          cell s1 2 2 = Val 0x30 /\ cell s1 2 4 = Val 0x10
          /\ hostile_to 0 s1 2 2 = true /\ hostile_to 0 s1 2 4 = true)
      /\ (let s' := final (place 2 3 0 s) in
          num_pieces s' = [2; 1] /\ count s' = [2; 1]
          /\ cell s' 2 3 = Val 0x01
          /\ getitem2 (pieces s') 0 1 = Val (Some (2, 3)))).
Proof. by vm_compute. Qed.

(** C6, amended.  For every valid placement of a piece of side [a] in a
    state of a game: if, once [_elim] has resolved the captures of other
    pieces, the cell is flanked on one axis by two cells that both lie
    within the active area ([_inboard]) and are hostile to [a] (a piece
    of the other side or a block on each side), then the piece is
    removed at once and never enters the registry: the cell is a space
    again, the registry and [num_pieces] of side [a] are as before the
    call, and [count[a]] has grown by one; [count[a]] never decreases in
    the rest of the game, so the id is not assigned again. *)
Theorem self_capture_on_place ops l s x y a :
  all_valid ops init = true -> run ops init = Ok l s ->
  valid_op s (Place x y a) = true ->
  exists c s1 s',
    getitem (count s) a = Val c
    /\ place_piece x y a s = Ok (a * 0x10 + c) s1
    /\ place x y a s = Ok tt s'
    /\ ((exists dx dy,
            (dx, dy) ∈ [(1, 0); (0, 1)]
            /\ _inboard s1 (x + dx) (y + dy) = true
            /\ _inboard s1 (x - dx) (y - dy) = true
            /\ hostile_to a s1 (x + dx) (y + dy) = true
            /\ hostile_to a s1 (x - dx) (y - dy) = true) ->
        cell s' x y = Val 0x20
        /\ getitem (pieces s') a = getitem (pieces s) a
        /\ getitem (num_pieces s') a = getitem (num_pieces s) a
        /\ getitem (count s') a = Val (c + 1)
        /\ forall ops' l' s'',
             all_valid ops' s' = true -> run ops' s' = Ok l' s'' ->
             exists c', getitem (count s'') a = Val c' /\ c + 1 <= c').
Proof.
  intros Hv Hrun Hvo. pose proof (run_init_Inv ops l s Hv Hrun) as HI.
  pose proof (Inv_facts s HI) as (Hd & Hb & Hsafe).
  destruct (place_Inv s x y a HI Hvo) as (c0 & s2 & Hpl & HI2 & Hc0 & Hcnt & _).
  pose proof HI as [I1 I2 I3 I4 I5].
  apply valid_place_op in Hvo as (Ha & (c & Hc & Hc12) & Hin & Hl & _).
  rewrite Hc in Hc0. injection Hc0 as <-.
  destruct (place_piece_exec (expect (border s)) s x y a c)
    as (s1 & H1 & Hm1 & Hk1 & Hk2); try done.
  pose proof (ag_count _ _ I4 _ _ Hc) as Hc0.
  destruct (piece_code a c Ha) as (Hp & Hdiv & Hmod); [lia|].
  destruct (place_finish _ _ _ _ _ _ _ _ H1 Hm1) as (s' & H' & Hm' & Hs').
  { done. }
  { rewrite Hdiv, Hmod. exists (c + 1). simpl. split; [|lia].
    apply list_lookup_insert_eq. by apply lookup_lt_Some in Hc. }
  rewrite Hpl in H'. injection H' as ->.
  exists c, s1, s'. split; [apply getitem_Val; [lia|done]|].
  split; [done|]. split; [done|].
  intros (dx & dy & Hdir & Hi1 & Hi2 & Hh1 & Hh2).
  pose proof (ag_hole _ _ (mid_agree _ _ _ _ Hm1)) as (Hcell1 & _).
  simpl in Hcell1.
  assert (flanked s1 x y dx dy = true) as Hfl.
  { unfold flanked. rewrite Hi1, Hi2. simpl.
    destruct (hostile_to_hostile a s1 _ _ _ Hp Hdiv Hh1) as (v1 & Hv1 & Hs1).
    destruct (hostile_to_hostile a s1 _ _ _ Hp Hdiv Hh2) as (v2 & Hv2 & Hs2).
    by rewrite Hcell1, Hv1, Hv2, Hp, Hs1, Hs2. }
  assert (flanked s1 x y 1 0 || flanked s1 x y 0 1 = true) as Hor.
  { apply elem_of_cons in Hdir as [[= -> ->]|Hdir]; [by rewrite Hfl|].
    apply elem_of_cons in Hdir as [[= -> ->]|Hdir];
      [by rewrite Hfl, orb_true_r|].
    by apply elem_of_nil in Hdir. }
  rewrite Hor in Hs'. subst s'.
  split.
  { apply getitem2_lk2. simpl. by apply (lk2_upd2_eq _ _ _ _ _ Hcell1). }
  split.
  { simpl. rewrite !getitem_nonneg by lia. by rewrite Hk1. }
  split.
  { simpl. rewrite !getitem_nonneg by lia. by rewrite Hk2. }
  assert (count (set_board (upd2 (board s1) x y 32) s1) !! Z.to_nat a
          = Some (c + 1)) as Hc1.
  { rewrite Hcnt. apply list_lookup_insert_eq. by apply lookup_lt_Some in Hc. }
  split; [apply getitem_Val; [lia|done]|].
  intros ops' l' s'' Hv' Hrun'.
  destruct (count_mono ops' _ l' s'' _ _ HI2 Hv' Hrun' Hc1) as (c' & Hc' & Hle).
  exists c'. split; [apply getitem_Val; [lia|done]|done].
Qed.

Lemma self_capture_on_place_witness :
  let s := final (run [Place 3 0 1; Place 3 2 1] init) in
  exists c s1 s',
    getitem (count s) 0 = Val c
    /\ place_piece 3 1 0 s = Ok (0 * 0x10 + c) s1
    /\ place 3 1 0 s = Ok tt s'
    /\ ((exists dx dy,
            (dx, dy) ∈ [(1, 0); (0, 1)]
            /\ _inboard s1 (3 + dx) (1 + dy) = true
            /\ _inboard s1 (3 - dx) (1 - dy) = true
            /\ hostile_to 0 s1 (3 + dx) (1 + dy) = true
            /\ hostile_to 0 s1 (3 - dx) (1 - dy) = true) ->
        cell s' 3 1 = Val 0x20
        /\ getitem (pieces s') 0 = getitem (pieces s) 0
        /\ getitem (num_pieces s') 0 = getitem (num_pieces s) 0
        /\ getitem (count s') 0 = Val (c + 1)
        /\ forall ops' l' s'',
             all_valid ops' s' = true -> run ops' s' = Ok l' s'' ->
             exists c', getitem (count s'') 0 = Val c' /\ c + 1 <= c').
Proof.
  apply (self_capture_on_place [Place 3 0 1; Place 3 2 1] []).
  - vm_compute. reflexivity.
  - vm_compute. reflexivity.
  - vm_compute. reflexivity.
Defined.

(** The premise of the amended C6 does occur: on the state of the
    witness the piece placed on [(3, 1)] stands between the second
    side's pieces on [(3, 0)] and [(3, 2)], both active. *)
Lemma self_capture_example :
  let s := final (run [Place 3 0 1; Place 3 2 1] init) in
  let s1 := final (place_piece 3 1 0 s) in
  valid_op s (Place 3 1 0) = true
  /\ _inboard s1 3 2 = true /\ _inboard s1 3 0 = true
  /\ hostile_to 0 s1 3 2 = true /\ hostile_to 0 s1 3 0 = true
  /\ num_pieces (final (place 3 1 0 s)) = [0; 2]
  /\ count (final (place 3 1 0 s)) = [1; 2].
Proof. by vm_compute. Qed.

(** ** [copy]: a new object that shares no list with the original *)

Lemma heap_example :
  let '(h, o) := new_board [] init in
  view h o = Some init
  /\ match heap_copy h o with
     | Some (h', o') =>
         view h' o' = Some init
         /\ view (calls h' o' [Place 4 3 0]) o' = Some (final (place 4 3 0 init))
         /\ view (calls h' o' [Place 4 3 0]) o = Some init
         /\ view (calls h' o [Place 4 3 0]) o = Some (final (place 4 3 0 init))
         /\ view (calls h' o [Place 4 3 0]) o' = Some init
     | None => False
     end.
Proof. vm_compute. repeat split. Qed.

Implicit Types (h : heap).

Lemma get_list_lt h l vs : get_list h l = Some vs -> (l < length h)%nat.
Proof.
  unfold get_list. destruct (h !! l) eqn:E; [|done].
  intros _. by apply lookup_lt_Some in E.
Qed.

Lemma get_list_prefix h h' l vs :
  h `prefix_of` h' -> get_list h l = Some vs -> get_list h' l = Some vs.
Proof.
  unfold get_list, heap, loc in *. intros Hp.
  destruct (h !! l) as [ob|] eqn:E; [|done].
  by rewrite (prefix_lookup_Some _ _ _ _ E Hp).
Qed.

Lemma get_refs_prefix h h' l rs :
  h `prefix_of` h' -> get_refs h l = Some rs -> get_refs h' l = Some rs.
Proof.
  unfold get_refs. intros Hp. destruct (get_list h l) as [vs|] eqn:E; [|done].
  by rewrite (get_list_prefix _ _ _ _ Hp E).
Qed.

Lemma mapM_get_list_prefix h h' rs rows :
  h `prefix_of` h' ->
  mapM (get_list h) rs = Some rows -> mapM (get_list h') rs = Some rows.
Proof.
  intros Hp H. apply mapM_Some. apply mapM_Some in H.
  eapply Forall2_impl; [exact H|]. intros r row Hr. simpl in *.
  by apply (get_list_prefix h).
Qed.

Lemma get_rows_prefix h h' l rows :
  h `prefix_of` h' -> get_rows h l = Some rows -> get_rows h' l = Some rows.
Proof.
  unfold get_rows. intros Hp. destruct (get_refs h l) as [rs|] eqn:E; [|done].
  rewrite (get_refs_prefix _ _ _ _ Hp E). simpl.
  by apply mapM_get_list_prefix.
Qed.

Lemma row_locs_prefix h h' l rs :
  h `prefix_of` h' -> get_refs h l = Some rs -> row_locs h' l = rs.
Proof.
  intros Hp E. unfold row_locs. by rewrite (get_refs_prefix _ _ _ _ Hp E).
Qed.

(** *** Reading depends on the locations of the object only *)

Lemma get_list_frame h1 h2 l :
  h2 !! l = h1 !! l -> get_list h2 l = get_list h1 l.
Proof. unfold get_list. by intros ->. Qed.

Lemma get_refs_frame h1 h2 l :
  h2 !! l = h1 !! l -> get_refs h2 l = get_refs h1 l.
Proof. unfold get_refs. by intros ->%get_list_frame. Qed.

Lemma get_rows_frame h1 h2 l :
  h2 !! l = h1 !! l ->
  (forall r, r ∈ row_locs h1 l -> h2 !! r = h1 !! r) ->
  get_rows h2 l = get_rows h1 l.
Proof.
  intros Hl Hr. unfold get_rows. rewrite (get_refs_frame _ _ _ Hl).
  unfold row_locs in Hr. destruct (get_refs h1 l) as [rs|]; [|done]. simpl in *.
  apply Forall_mapM_ext. apply Forall_forall. intros r Hin.
  apply get_list_frame. by apply Hr.
Qed.

Lemma view_frame h1 h2 o :
  (forall l, l ∈ locs h1 o -> h2 !! l = h1 !! l) ->
  view h2 o = view h1 o /\ locs h2 o = locs h1 o.
Proof.
  intros H. unfold view, locs in *. unfold heap, loc in *.
  destruct (h1 !! o) as [[vs|f]|] eqn:E.
  - rewrite (H o), E by left. done.
  - rewrite (H o), E by left.
    assert (forall l, l ∈ [s_board f; s_count f; s_num_pieces f; s_pieces f]
                      -> h2 !! l = h1 !! l) as H4.
    { intros l Hl. apply H. right.
      rewrite !elem_of_cons in Hl. rewrite !elem_of_cons.
      destruct Hl as [->|[->|[->|[->|Hl]]]]; auto.
      by apply elem_of_nil in Hl. }
    assert (get_rows h2 (s_board f) = get_rows h1 (s_board f)) as ->.
    { apply get_rows_frame; [apply H4; repeat constructor|].
      intros r Hr. apply H. do 5 right. apply elem_of_app. by left. }
    assert (get_rows h2 (s_pieces f) = get_rows h1 (s_pieces f)) as ->.
    { apply get_rows_frame; [apply H4; repeat constructor|].
      intros r Hr. apply H. do 5 right. apply elem_of_app. by right. }
    rewrite (get_list_frame h1 h2 (s_count f)) by (apply H4; repeat constructor).
    rewrite (get_list_frame h1 h2 (s_num_pieces f))
      by (apply H4; repeat constructor).
    split; [done|]. unfold row_locs.
    rewrite (get_refs_frame h1 h2 (s_board f)) by (apply H4; repeat constructor).
    rewrite (get_refs_frame h1 h2 (s_pieces f)) by (apply H4; repeat constructor).
    done.
  - rewrite (H o), E by left. done.
Qed.

(** *** A method call writes the lists of its object only *)

Lemma writes_refl C h : writes C h h.
Proof. intros l. by left. Qed.

Lemma writes_trans C h1 h2 h3 :
  writes C h1 h2 -> writes C h2 h3 -> writes C h1 h3.
Proof.
  intros H12 H23 l. destruct (H23 l) as [E|?]; [|by right].
  rewrite E. apply H12.
Qed.

Lemma writes_insert C h l ob :
  l ∈ C -> (forall r, r ∈ refs_of ob -> r ∈ C) -> writes C h (<[l := ob]> h).
Proof.
  unfold writes, heap, loc in *.
  intros Hl Hob l'. destruct (decide (l = l')) as [<-|Hne].
  - destruct (decide (l < length h)%nat) as [Hlt|Hge].
    + right. split; [done|]. exists ob. split; [|done].
      by apply list_lookup_insert_eq.
    + left. by rewrite list_insert_ge by lia.
  - left. by apply list_lookup_insert_ne.
Qed.

Lemma writes_put_rows C h rs rows :
  (forall r, r ∈ rs -> r ∈ C) ->
  (forall row, row ∈ rows -> omap as_ref row = []) ->
  writes C h (put_rows h rs rows).
Proof.
  revert h rows. induction rs as [|r rs IH]; intros h rows Hrs Hrows.
  - apply writes_refl.
  - destruct rows as [|row rows]; [apply writes_refl|]. simpl.
    apply (writes_trans _ _ (<[r := OList row]> h)).
    + apply writes_insert; [apply Hrs; left|].
      intros r'. simpl. rewrite Hrows by left. by intros ?%elem_of_nil.
    + apply IH.
      * intros r' Hr'. apply Hrs. by right.
      * intros row' Hr'. apply Hrows. by right.
Qed.

Lemma omap_as_ref_ints (zs : list Z) : omap as_ref (VInt <$> zs) = [].
Proof. induction zs; [done|]. simpl. done. Qed.

Lemma omap_as_ref_poss (ps : list (option (Z * Z))) :
  omap as_ref (VPos <$> ps) = [].
Proof. induction ps; [done|]. simpl. done. Qed.

Lemma mapM_as_ref_omap vs rs : mapM as_ref vs = Some rs -> omap as_ref vs = rs.
Proof.
  intros H%mapM_Some. induction H as [|v r vs rs Hv _ IH]; [done|].
  simpl. unfold omap in IH. by rewrite Hv, IH.
Qed.

Lemma row_locs_closed C h l :
  closed_set C h -> l ∈ C -> forall r, r ∈ row_locs h l -> r ∈ C.
Proof.
  intros Hc Hl r. unfold row_locs, get_refs, get_list.
  destruct (h !! l) as [[vs|f]|] eqn:E; simpl; try by intros ?%elem_of_nil.
  destruct (mapM as_ref vs) as [rs|] eqn:Em; simpl; [|by intros ?%elem_of_nil].
  intros Hr. apply (Hc l (OList vs) r Hl E). simpl.
  by rewrite (mapM_as_ref_omap _ _ Em).
Qed.

Lemma writes_put C h o s :
  o ∈ C -> closed_set C h -> writes C h (put h o s).
Proof.
  intros Ho Hc. unfold put.
  destruct (h !! o) as [[vs|f]|] eqn:E; try apply writes_refl.
  assert (forall r, r ∈ refs_of (OBoard f) -> r ∈ C) as Hf.
  { intros r. by apply (Hc o (OBoard f)). }
  assert (s_board f ∈ C /\ s_count f ∈ C /\ s_num_pieces f ∈ C
          /\ s_pieces f ∈ C) as (Hb & Hcn & Hn & Hp).
  { repeat split; apply Hf; simpl; repeat constructor. }
  eapply writes_trans; [|apply writes_insert; [done|]].
  eapply writes_trans; [|apply writes_put_rows].
  eapply writes_trans; [|apply writes_insert; [exact Hn|]].
  eapply writes_trans; [|apply writes_insert; [exact Hcn|]].
  apply writes_put_rows.
  - by apply row_locs_closed.
  - intros row (zs & -> & _)%list_elem_of_fmap. apply omap_as_ref_ints.
  - intros r. simpl. rewrite omap_as_ref_ints. by intros ?%elem_of_nil.
  - intros r. simpl. rewrite omap_as_ref_ints. by intros ?%elem_of_nil.
  - by apply row_locs_closed.
  - intros row (zs & -> & _)%list_elem_of_fmap. apply omap_as_ref_poss.
  - intros r Hr. apply Hf. exact Hr.
Qed.

Lemma writes_closed C h h' : closed_set C h -> writes C h h' -> closed_set C h'.
Proof.
  unfold writes, closed_set, heap, loc in *.
  intros Hc Hw l ob r Hl Hob Hr. destruct (Hw l) as [E|(_ & ob' & E & H')].
  - rewrite E in Hob. by apply (Hc l ob r).
  - rewrite E in Hob. injection Hob as <-. by apply H'.
Qed.

Lemma writes_other C h h' l : writes C h h' -> l ∉ C -> h' !! l = h !! l.
Proof.
  unfold writes, heap, loc in *.
  intros Hw Hl. by destruct (Hw l) as [E|(? & _)].
Qed.

Lemma writes_calls C h o ops :
  o ∈ C -> closed_set C h -> writes C h (calls h o ops).
Proof.
  intros Ho. revert h. induction ops as [|op r IH]; intros h Hc.
  - apply writes_refl.
  - simpl. assert (writes C h (call h o (step op))) as Hw.
    { unfold call. destruct (view h o); [by apply writes_put|apply writes_refl]. }
    apply (writes_trans _ _ _ _ Hw). apply IH. by apply (writes_closed C h).
Qed.

(** *** What [copy] builds *)

Lemma get_list_fresh h vs : get_list (h ++ [OList vs]) (length h) = Some vs.
Proof.
  unfold get_list, heap, loc in *.
  by rewrite (list_lookup_middle h [] (OList vs) (length h) eq_refl).
Qed.

Lemma copy_list_spec h l vs :
  get_list h l = Some vs -> copy_list h l = Some (h ++ [OList vs], length h).
Proof. unfold copy_list, alloc. by intros ->. Qed.

Lemma copy_rows_spec rs : forall h rows,
  mapM (get_list h) rs = Some rows ->
  copy_rows h rs
  = Some (h ++ (OList <$> rows), seq (length h) (length rows)).
Proof.
  induction rs as [|r rs IH]; intros h rows H.
  - simpl in H. injection H as <-. simpl. by rewrite app_nil_r.
  - apply mapM_Some in H. inversion H as [|? row ? rows' Hr Hrs]; subst.
    simpl. rewrite (copy_list_spec _ _ _ Hr).
    apply mapM_Some in Hrs.
    rewrite (IH (h ++ [OList row]) rows').
    + rewrite length_app, <- app_assoc. simpl.
      by rewrite Nat.add_1_r.
    + apply (mapM_get_list_prefix h); [by apply prefix_app_r|done].
Qed.

Lemma mapM_as_ref_refs (ls : list loc) : mapM as_ref (VRef <$> ls) = Some ls.
Proof.
  apply mapM_Some. apply Forall2_fmap_l. by apply Forall_Forall2_diag, Forall_true.
Qed.

Lemma get_refs_fresh h ls :
  get_refs (h ++ [OList (VRef <$> ls)]) (length h) = Some ls.
Proof.
  unfold get_refs. rewrite get_list_fresh. simpl. apply mapM_as_ref_refs.
Qed.

Lemma mapM_get_list_fresh h rows :
  mapM (get_list (h ++ (OList <$> rows))) (seq (length h) (length rows))
  = Some rows.
Proof.
  apply mapM_Some. apply Forall2_same_length_lookup_2.
  - by rewrite length_seq.
  - intros i l row Hl Hrow. apply lookup_seq in Hl as [-> Hi].
    unfold get_list, heap, loc in *.
    rewrite lookup_app_r by lia.
    replace (length h + i - length h)%nat with i by lia.
    by rewrite list_lookup_fmap, Hrow.
Qed.

Lemma copy_grid_spec h l rows :
  get_rows h l = Some rows ->
  exists h',
    copy_grid h l = Some (h', (length h + length rows)%nat)
    /\ h `prefix_of` h'
    /\ length h' = S (length h + length rows)%nat
    /\ get_rows h' (length h + length rows)%nat = Some rows
    /\ row_locs h' (length h + length rows)%nat = seq (length h) (length rows).
Proof.
  unfold get_rows. destruct (get_refs h l) as [rs|] eqn:E; [|done]. simpl.
  intros Hrows. unfold copy_grid. rewrite E, (copy_rows_spec _ _ _ Hrows).
  unfold alloc. eexists. split.
  { rewrite length_app, length_fmap. reflexivity. }
  assert (length (h ++ (OList <$> rows)) = (length h + length rows)%nat) as Hl.
  { by rewrite length_app, length_fmap. }
  split; [|split; [|split]].
  - rewrite <- app_assoc. by apply prefix_app_r.
  - rewrite length_app, Hl. simpl. lia.
  - rewrite <- Hl, get_refs_fresh. simpl.
    apply (mapM_get_list_prefix (h ++ (OList <$> rows))); [by apply prefix_app_r|].
    apply mapM_get_list_fresh.
  - unfold row_locs. by rewrite <- Hl, get_refs_fresh.
Qed.

(** *** The lists behind a state *)

Lemma view_backing h o s :
  view h o = Some s <-> exists f rb cv nv rp, backing h o s f rb cv nv rp.
Proof.
  unfold view. split.
  - destruct (h !! o) as [[vs|f]|] eqn:E; try done.
    destruct (get_rows h (s_board f)) as [rb|] eqn:E1; [|done]. simpl.
    destruct (mapM (mapM as_int) rb) as [g|] eqn:E2; [|done]. simpl.
    destruct (get_list h (s_count f)) as [cv|] eqn:E3; [|done]. simpl.
    destruct (mapM as_int cv) as [c|] eqn:E4; [|done]. simpl.
    destruct (get_list h (s_num_pieces f)) as [nv|] eqn:E5; [|done]. simpl.
    destruct (mapM as_int nv) as [n|] eqn:E6; [|done]. simpl.
    destruct (get_rows h (s_pieces f)) as [rp|] eqn:E7; [|done]. simpl.
    destruct (mapM (mapM as_pos) rp) as [p|] eqn:E8; [|done]. simpl.
    intros [= <-]. exists f, rb, cv, nv, rp. by constructor.
  - intros (f & rb & cv & nv & rp & [H0 H1 H2 H3 H4 H5 H6 H7 H8 H9]).
    rewrite H0, H1. simpl. rewrite H2. simpl. rewrite H3. simpl.
    rewrite H4. simpl. rewrite H5. simpl. rewrite H6. simpl.
    rewrite H7. simpl. rewrite H8. simpl.
    destruct s. simpl in *. by injection H9 as <- <- <- <-.
Qed.

Lemma get_list_obj h l vs : get_list h l = Some vs <-> h !! l = Some (OList vs).
Proof.
  unfold get_list. destruct (h !! l) as [[vs'|f]|]; split; intros H; by simplify_eq.
Qed.

Lemma mapM_as_int_refs vs zs : mapM as_int vs = Some zs -> omap as_ref vs = [].
Proof.
  intros H%mapM_Some. induction H as [|v z vs zs Hv _ IH]; [done|].
  by destruct v.
Qed.

Lemma mapM_as_pos_refs vs ps : mapM as_pos vs = Some ps -> omap as_ref vs = [].
Proof.
  intros H%mapM_Some. induction H as [|v z vs zs Hv _ IH]; [done|].
  by destruct v.
Qed.

Lemma get_rows_row h l rows r :
  get_rows h l = Some rows -> r ∈ row_locs h l ->
  exists row, get_list h r = Some row /\ row ∈ rows.
Proof.
  unfold get_rows, row_locs. destruct (get_refs h l) as [rs|]; [|done]. simpl.
  intros H%mapM_Some Hr. apply list_elem_of_lookup in Hr as [i Hi].
  destruct (Forall2_lookup_l _ _ _ _ _ H Hi) as (row & Hrow & Hg).
  exists row. split; [done|]. by apply list_elem_of_lookup_2 in Hrow.
Qed.

Lemma mapM_row {A B} (f : A -> option B) (l : list (list A)) k row :
  mapM (mapM f) l = Some k -> row ∈ l -> exists r, mapM f row = Some r.
Proof.
  intros H%mapM_Some Hr. apply list_elem_of_lookup in Hr as [i Hi].
  destruct (Forall2_lookup_l _ _ _ _ _ H Hi) as (r & _ & Hg). by exists r.
Qed.

Lemma get_rows_list h l rows :
  get_rows h l = Some rows ->
  exists vs, get_list h l = Some vs /\ mapM as_ref vs = Some (row_locs h l).
Proof.
  unfold get_rows, row_locs, get_refs.
  destruct (get_list h l) as [vs|]; [|done]. simpl.
  destruct (mapM as_ref vs) as [rs|] eqn:E; [|done]. simpl.
  intros _. by exists vs.
Qed.

Lemma elem_of_locs h o f l :
  h !! o = Some (OBoard f) ->
  l ∈ locs h o <->
  l = o \/ l = s_board f \/ l = s_count f \/ l = s_num_pieces f
  \/ l = s_pieces f \/ l ∈ row_locs h (s_board f)
  \/ l ∈ row_locs h (s_pieces f).
Proof.
  intros E. unfold locs. rewrite E. rewrite !elem_of_cons, elem_of_app. tauto.
Qed.

Lemma backing_lt h o s f rb cv nv rp l :
  backing h o s f rb cv nv rp -> l ∈ locs h o -> (l < length h)%nat.
Proof.
  intros [H0 H1 H2 H3 H4 H5 H6 H7 H8 H9] Hl.
  apply (elem_of_locs _ _ _ _ H0) in Hl.
  destruct (get_rows_list _ _ _ H1) as (vb & Hvb & _).
  destruct (get_rows_list _ _ _ H7) as (vp & Hvp & _).
  destruct Hl as [->|[->|[->|[->|[->|[Hl|Hl]]]]]].
  - by apply lookup_lt_Some in H0.
  - by apply get_list_lt in Hvb.
  - by apply get_list_lt in H3.
  - by apply get_list_lt in H5.
  - by apply get_list_lt in Hvp.
  - destruct (get_rows_row _ _ _ _ H1 Hl) as (row & Hrow & _).
    by apply get_list_lt in Hrow.
  - destruct (get_rows_row _ _ _ _ H7 Hl) as (row & Hrow & _).
    by apply get_list_lt in Hrow.
Qed.

Lemma backing_closed h o s f rb cv nv rp :
  backing h o s f rb cv nv rp -> closed_set (locs h o) h.
Proof.
  intros [H0 H1 H2 H3 H4 H5 H6 H7 H8 H9] l ob r Hl Hob Hr.
  apply (elem_of_locs _ _ _ _ H0). apply (elem_of_locs _ _ _ _ H0) in Hl.
  destruct (get_rows_list _ _ _ H1) as (vb & Hvb & Hrb).
  destruct (get_rows_list _ _ _ H7) as (vp & Hvp & Hrp).
  assert (forall vs, get_list h l = Some vs -> omap as_ref vs = [] -> False)
    as Hnone.
  { intros vs Hvs Hno. apply get_list_obj in Hvs.
    unfold heap, loc in *. rewrite Hvs in Hob. injection Hob as <-.
    unfold refs_of, loc in Hr. rewrite Hno in Hr. by apply elem_of_nil in Hr. }
  destruct Hl as [->|[->|[->|[->|[->|[Hl|Hl]]]]]].
  - unfold heap, loc in *. rewrite H0 in Hob. injection Hob as <-.
    simpl in Hr. rewrite !elem_of_cons in Hr.
    destruct Hr as [->|[->|[->|[->|Hr]]]]; auto 10.
    by apply elem_of_nil in Hr.
  - apply get_list_obj in Hvb. unfold heap, loc in *.
    rewrite Hvb in Hob. injection Hob as <-. unfold refs_of in Hr.
    pose proof (mapM_as_ref_omap _ _ Hrb) as Ho. unfold loc in *.
    rewrite Ho in Hr. auto 10.
  - destruct (Hnone _ H3 (mapM_as_int_refs _ _ H4)).
  - destruct (Hnone _ H5 (mapM_as_int_refs _ _ H6)).
  - apply get_list_obj in Hvp. unfold heap, loc in *.
    rewrite Hvp in Hob. injection Hob as <-. unfold refs_of in Hr.
    pose proof (mapM_as_ref_omap _ _ Hrp) as Ho. unfold loc in *.
    rewrite Ho in Hr. auto 10.
  - destruct (get_rows_row _ _ _ _ H1 Hl) as (row & Hrow & Hin).
    destruct (mapM_row _ _ _ _ H2 Hin) as (zs & Hzs).
    destruct (Hnone _ Hrow (mapM_as_int_refs _ _ Hzs)).
  - destruct (get_rows_row _ _ _ _ H7 Hl) as (row & Hrow & Hin).
    destruct (mapM_row _ _ _ _ H8 Hin) as (zs & Hzs).
    destruct (Hnone _ Hrow (mapM_as_pos_refs _ _ Hzs)).
Qed.

Lemma get_rows_refs h l rows :
  get_rows h l = Some rows -> get_refs h l = Some (row_locs h l).
Proof.
  unfold get_rows, row_locs. by destruct (get_refs h l).
Qed.

Lemma row_locs_grow h h' l rows :
  h `prefix_of` h' -> get_rows h l = Some rows -> row_locs h' l = row_locs h l.
Proof.
  intros Hp H%get_rows_refs. by apply (row_locs_prefix h).
Qed.

Lemma heap_copy_spec h o s :
  view h o = Some s ->
  exists h' o',
    heap_copy h o = Some (h', o')
    /\ h `prefix_of` h'
    /\ view h' o' = Some s
    /\ forall l, l ∈ locs h' o' -> (length h <= l)%nat.
Proof.
  intros (f & rb & cv & nv & rp & [H0 H1 H2 H3 H4 H5 H6 H7 H8 H9])%view_backing.
  unfold heap_copy. rewrite H0.
  destruct (copy_grid_spec _ _ _ H1) as (h1 & -> & P1 & L1 & G1 & R1).
  pose proof (get_list_prefix _ _ _ _ P1 H3) as C1.
  rewrite (copy_list_spec _ _ _ C1).
  set (h2 := h1 ++ [OList cv]).
  assert (h1 `prefix_of` h2) as P2 by (by apply prefix_app_r).
  assert (h `prefix_of` h2) as P02 by (by etrans).
  pose proof (get_rows_prefix _ _ _ _ P02 H7) as C2.
  destruct (copy_grid_spec _ _ _ C2) as (h3 & -> & P3 & L3 & G3 & R3).
  assert (h `prefix_of` h3) as P03 by (by etrans).
  pose proof (get_list_prefix _ _ _ _ P03 H5) as C3.
  rewrite (copy_list_spec _ _ _ C3).
  set (h4 := h3 ++ [OList nv]).
  assert (h3 `prefix_of` h4) as P4 by (by apply prefix_app_r).
  unfold alloc.
  set (f' := mkSlots _ _ _ _ _ _ _ _).
  set (h' := h4 ++ [OBoard f']).
  assert (h4 `prefix_of` h') as P5 by (by apply prefix_app_r).
  assert (h3 `prefix_of` h') as P35 by (by etrans).
  assert (h2 `prefix_of` h') as P25 by (by etrans).
  assert (h1 `prefix_of` h') as P15 by (by etrans).
  assert (h' !! length h4 = Some (OBoard f')) as E'.
  { unfold h', heap, loc in *.
    by rewrite (list_lookup_middle h4 [] (OBoard f') (length h4) eq_refl). }
  assert (length h <= length h1 /\ length h1 <= length h2
          /\ length h2 <= length h3 /\ length h3 <= length h4)%nat
    as (Le1 & Le2 & Le3 & Le4).
  { repeat split; by apply prefix_length. }
  exists h', (length h4). split; [done|]. split; [by etrans|]. split.
  - apply view_backing. exists f', rb, cv, nv, rp. constructor; simpl; try done.
    + by apply (get_rows_prefix h1).
    + apply (get_list_prefix h2); [done|]. apply get_list_fresh.
    + apply (get_list_prefix h4); [done|]. apply get_list_fresh.
    + by apply (get_rows_prefix h3).
  - intros l Hl. apply (elem_of_locs _ _ _ _ E') in Hl. simpl in Hl.
    rewrite (row_locs_grow h1 h' _ _ P15 G1), R1 in Hl.
    rewrite (row_locs_grow h3 h' _ _ P35 G3), R3 in Hl.
    destruct Hl as [->|[->|[->|[->|[->|[Hl|Hl]]]]]]; try lia.
    + apply elem_of_seq in Hl. lia.
    + apply elem_of_seq in Hl. lia.
Qed.

Lemma locs_self h o : o ∈ locs h o.
Proof. unfold locs. destruct (h !! o) as [[?|?]|]; by left. Qed.

Lemma copy_id s : copy s = s.
Proof.
  unfold copy. destruct s as [g b c n p ts tt t]. simpl. f_equal.
  - rewrite <- (list_fmap_id g) at 2. apply list_fmap_ext.
    intros i j _. apply map_id.
  - apply map_id.
  - apply map_id.
  - rewrite <- (list_fmap_id p) at 2. apply list_fmap_ext.
    intros i j _. apply map_id.
Qed.

Lemma view_unwritten C h h' o s :
  view h o = Some s -> writes C h h' ->
  (forall l, l ∈ locs h o -> l ∉ C) ->
  view h' o = Some s.
Proof.
  intros Hv Hw Hd. rewrite <- Hv. apply view_frame.
  intros l Hl. apply (writes_other C); [done|]. by apply Hd.
Qed.

(** XCOPY. [copy] returns an object that holds the value of the original
    and shares no list with it: copying leaves the original as it was,
    the lists of the copy are all new, and whatever sequence of [place]
    and [move] calls is made on one of the two objects afterwards, the
    other one still holds the value it held. *)
Theorem copy_independent h o s :
  view h o = Some s ->
  copy s = s
  /\ exists h' o',
       heap_copy h o = Some (h', o')
       /\ view h' o' = Some (copy s)
       /\ view h' o = Some s
       /\ (forall l, l ∈ locs h' o' -> l ∉ locs h' o)
       /\ (forall ops, view (calls h' o' ops) o = Some s)
       /\ (forall ops, view (calls h' o ops) o' = Some s).
Proof.
  intros Hv. split; [apply copy_id|]. rewrite copy_id.
  destruct (heap_copy_spec _ _ _ Hv) as (h' & o' & Hc & Hp & Hv' & Hfresh).
  exists h', o'. split; [done|]. split; [done|].
  pose proof Hv as (f & rb & cv & nv & rp & Hb)%view_backing.
  pose proof Hv' as (f' & rb' & cv' & nv' & rp' & Hb')%view_backing.
  assert (forall l, l ∈ locs h o -> h' !! l = h !! l) as Hsame.
  { intros l Hl. symmetry. apply prefix_lookup_lt; [|done].
    by apply (backing_lt _ _ _ _ _ _ _ _ _ Hb). }
  destruct (view_frame h h' o Hsame) as [Hvo Hlo].
  assert (view h' o = Some s) as Hv'o by (by rewrite Hvo).
  pose proof Hv'o as (f2 & rb2 & cv2 & nv2 & rp2 & Hb2)%view_backing.
  assert (forall l, l ∈ locs h' o' -> l ∉ locs h' o) as Hdisj.
  { intros l Hl Hl'. apply Hfresh in Hl. rewrite Hlo in Hl'.
    apply (backing_lt _ _ _ _ _ _ _ _ _ Hb) in Hl'. lia. }
  split; [done|]. split; [done|]. split.
  - intros ops. apply (view_unwritten (locs h' o') h'); [done| |].
    + apply writes_calls; [apply locs_self|].
      by apply (backing_closed _ _ _ _ _ _ _ _ Hb').
    + intros l Hl Hl'. by apply (Hdisj l).
  - intros ops. apply (view_unwritten (locs h' o) h'); [done| |].
    + apply writes_calls; [apply locs_self|].
      by apply (backing_closed _ _ _ _ _ _ _ _ Hb2).
    + intros l Hl Hl'. by apply (Hdisj l).
Qed.

Lemma copy_independent_witness :
  view (new_board [] init).1 (new_board [] init).2 = Some init
  /\ exists h' o',
       heap_copy (new_board [] init).1 (new_board [] init).2 = Some (h', o')
       /\ view h' o' = Some (copy init)
       /\ (forall ops, view (calls h' o' ops) (new_board [] init).2 = Some init)
       /\ (forall ops, view (calls h' (new_board [] init).2 ops) o' = Some init).
Proof.
  assert (view (new_board [] init).1 (new_board [] init).2 = Some init) as Hv
    by (by vm_compute).
  split; [exact Hv|].
  destruct (copy_independent _ _ _ Hv) as (_ & h' & o' & H1 & H2 & _ & _ & H5 & H6).
  by exists h', o'.
Defined.
